(** * examine_3d-tile.py: statistics of an OGC 3D tileset

    A shallow embedding of [examine_3d-tile.py] and the properties of its
    traversal, rasterizer and report writer.

    Conventions of the embedding.
    - Python [int] is [Z]; Python [float] is an exact rational [Q] (rounding
      of binary floating point is not modelled); [x ** 0.5] is the
      uninterpreted function [pow_half].
    - A Python exception is a value [Raise e] of [result]; code that
      mutates module or caller state is a function of that state.
    - [dict]s with a fixed set of keys are records; the result rows, which
      the report writer walks key by key, are association lists in
      insertion order. *)

From Stdlib Require Import ZArith QArith Qfield List String Ascii Bool Lia.
From Stdlib Require Import Permutation Sorted FinFun.
From Stdlib Require Import DecimalString DecimalPos DecimalN.
Import ListNotations.

Open Scope Z_scope.

(* ================================================================== *)
(** * Python values, exceptions and sequences *)
(* ================================================================== *)

Inductive exn : Type :=
| ValueError | IndexError | ZeroDivisionError | UnboundLocalError
| TypeError | KeyError | RecursionError | FileNotFoundError | RuntimeError.

Inductive result (A : Type) : Type :=
| Ok (a : A)
| Raise (e : exn).

Arguments Ok {A} a.
Arguments Raise {A} e.

Definition bind {A B} (c : result A) (k : A -> result B) : result B :=
  match c with
  | Ok a => k a
  | Raise e => Raise e
  end.

Declare Scope py_scope.
Delimit Scope py_scope with py.
Notation "x <- c ;; k" := (bind c (fun x => k))
  (at level 100, c at next level, right associativity) : py_scope.
Notation "' p <- c ;; k" := (bind c (fun p => k))
  (at level 100, p pattern, c at next level, right associativity) : py_scope.
Open Scope py_scope.

(** [for x in l: st = body x st], stopping at the first exception. *)
Fixpoint for_each {A S} (body : A -> S -> result S) (l : list A) (st : S)
  : result S :=
  match l with
  | [] => Ok st
  | x :: l' => st' <- body x st ;; for_each body l' st'
  end.

(** [range(a, b)] *)
Definition py_range (a b : Z) : list Z :=
  map (fun i => a + Z.of_nat i) (seq 0 (Z.to_nat (b - a))).

(** [l[i]], with Python's negative indices. *)
Definition py_index {A} (l : list A) (i : Z) : result nat :=
  let n := Z.of_nat (List.length l) in
  if (0 <=? i) && (i <? n) then Ok (Z.to_nat i)
  else if (- n <=? i) && (i <? 0) then Ok (Z.to_nat (n + i))
  else Raise IndexError.

Definition py_getitem {A} (l : list A) (i : Z) : result A :=
  k <- py_index l i ;;
  match nth_error l k with
  | Some x => Ok x
  | None => Raise IndexError
  end.

Fixpoint list_update {A} (l : list A) (k : nat) (x : A) : list A :=
  match l, k with
  | [], _ => []
  | _ :: l', O => x :: l'
  | y :: l', S k' => y :: list_update l' k' x
  end.

(** [l[i] = x] *)
Definition py_setitem {A} (l : list A) (i : Z) (x : A) : result (list A) :=
  k <- py_index l i ;; Ok (list_update l k x).

(** [int(x)] of a float: truncation toward zero. *)
Definition py_int (x : Q) : Z := Z.quot (Qnum x) (Zpos (Qden x)).

(** [a / b] on numbers. *)
Definition py_truediv (a b : Q) : result Q :=
  if Qeq_bool b 0 then Raise ZeroDivisionError else Ok (a / b)%Q.

Definition Qltb (a b : Q) : bool := negb (Qle_bool b a).

Definition Qmin (a b : Q) : Q := if Qltb b a then b else a.
Definition Qmax (a b : Q) : Q := if Qltb a b then b else a.

(** [min(...)] and [max(...)] of a generator: [ValueError] when empty. *)
Definition py_min (l : list Q) : result Q :=
  match l with
  | [] => Raise ValueError
  | x :: l' => Ok (fold_left Qmin l' x)
  end.

Definition py_max (l : list Q) : result Q :=
  match l with
  | [] => Raise ValueError
  | x :: l' => Ok (fold_left Qmax l' x)
  end.

(** [sum(...)] of integers. *)
Definition py_sum (l : list Z) : Z := fold_left Z.add l 0.

(** [l.sort(key=...)]: a stable sort by an integer key. *)
Fixpoint insert_by {A} (key : A -> Z) (a : A) (l : list A) : list A :=
  match l with
  | [] => [a]
  | b :: l' => if key a <=? key b then a :: b :: l'
               else b :: insert_by key a l'
  end.

Definition py_sort_by {A} (key : A -> Z) (l : list A) : list A :=
  fold_right (insert_by key) [] l.

(** The order of the keys. *)
Definition key_le {A} (key : A -> Z) (a b : A) : Prop := key a <= key b.

(** Truth value of a string that may be [None]. *)
Definition truthy (o : option string) : bool :=
  match o with
  | Some s => negb (String.eqb s "")
  | None => false
  end.

(** [a or b] on such values. *)
Definition py_or (a b : option string) : option string :=
  if truthy a then a else b.

(** [s.endswith(suffix)] *)
Definition endswith (s suffix : string) : bool :=
  let n := String.length s in
  let m := String.length suffix in
  (m <=? n)%nat && String.eqb (substring (n - m) m s) suffix.

(** [pat in s] *)
Definition contains (pat s : string) : bool :=
  match index 0 pat s with
  | Some _ => true
  | None => false
  end.

(** [int(s)] of a string of decimal digits. Python also reads the
    decimal digits of other scripts, and refuses numerals of several
    thousand digits; the model covers the ASCII numerals, of any length. *)
Definition int_of_string (s : string) : result Z :=
  match s with
  | EmptyString => Raise ValueError
  | _ =>
      match NilEmpty.uint_of_string s with
      | Some d => Ok (Z.of_N (N.of_uint d))
      | None => Raise ValueError
      end
  end.

(* ================================================================== *)
(** * Graphic processing *)
(* ================================================================== *)

Module Raster.

(** [mathutils.Vector] with two components. *)
Record Vector : Type := mkVector { x : Q; y : Q }.

(** A face of the [bmesh]: [face.calc_area()] and the UV of each loop. *)
Record face : Type := mkFace {
  calc_area : Q;
  loops_uv : list Vector
}.

(** [image.size] *)
Record image : Type := mkImage { size : Z * Z }.

Record node : Type := mkNode {
  node_type : string;
  node_image : option image
}.

Record material : Type := mkMaterial { node_tree : option (list node) }.

(** The Blender object, as far as the script reads it. *)
Record object : Type := mkObject {
  obj_type : string;
  uv_active : bool;                  (* bm.loops.layers.uv.active *)
  active_material : option material;
  faces : list face;                 (* bm.faces *)
  edge_lengths : list Q              (* edge.calc_length() for bm.edges *)
}.

Definition grid : Type := list (list Z).

(** The nested function [sign] of [point_in_triangle_uv]. *)
Definition sign (p1 p2 p3 : Vector) : Q :=
  ((x p1 - x p3) * (y p2 - y p3) - (x p2 - x p3) * (y p1 - y p3))%Q.

Definition point_in_triangle_uv (p : Vector) (triangle : list Vector)
  : result bool :=
  t0 <- py_getitem triangle 0 ;;
  t1 <- py_getitem triangle 1 ;;
  let d1 := sign p t0 t1 in
  t2 <- py_getitem triangle 2 ;;
  let d2 := sign p t1 t2 in
  let d3 := sign p t2 t0 in
  let has_neg := Qltb d1 0 || Qltb d2 0 || Qltb d3 0 in
  let has_pos := Qltb 0 d1 || Qltb 0 d2 || Qltb 0 d3 in
  Ok (negb (has_neg && has_pos)).

(** The first [TEX_IMAGE] node that carries an image. *)
Fixpoint first_texture (nodes : list node) : option image :=
  match nodes with
  | [] => None
  | n :: nodes' =>
      if String.eqb (node_type n) "TEX_IMAGE"%string then
        match node_image n with
        | Some img => Some img
        | None => first_texture nodes'
        end
      else first_texture nodes'
  end.

Definition find_image (obj : object) : option image :=
  match active_material obj with
  | Some m =>
      match node_tree m with
      | Some nodes => first_texture nodes
      | None => None
      end
  | None => None
  end.

Definition fraction : Q := 1 # 2.

Definition grid_resolution (image_width image_height : Z) : Z :=
  py_int (inject_Z (Z.max image_width image_height) * fraction).

(** [[[0 for _ in range(n)] for _ in range(n)]] *)
Definition new_grid (n : Z) : grid :=
  repeat (repeat 0 (Z.to_nat n)) (Z.to_nat n).

(** The body of the two sampling loops, for one cell [(u, v)]. *)
Definition sample_cell (res : Z) (uv_coords : list Vector) (u v : Z)
  (st : grid * Z) : result (grid * Z) :=
  let '(g, pixel_count) := st in
  px <- py_truediv (inject_Z u) (inject_Z res) ;;
  py <- py_truediv (inject_Z v) (inject_Z res) ;;
  inside <- point_in_triangle_uv (mkVector px py) uv_coords ;;
  if inside then
    row <- py_getitem g v ;;
    c <- py_getitem row u ;;
    if c =? 0 then
      row' <- py_setitem row u 1 ;;
      g' <- py_setitem g v row' ;;
      Ok (g', pixel_count + 1)
    else Ok st
  else Ok st.

(** The sampling loops of one face: the grid afterwards and [pixel_count]. *)
Definition sample_face (res : Z) (g : grid) (f : face) : result (grid * Z) :=
  let uv_coords := loops_uv f in
  min_u <- py_min (map x uv_coords) ;;
  max_u <- py_max (map x uv_coords) ;;
  min_v <- py_min (map y uv_coords) ;;
  max_v <- py_max (map y uv_coords) ;;
  for_each
    (fun u =>
       for_each (sample_cell res uv_coords u)
         (py_range (py_int (min_v * inject_Z res))
                   (Z.min (py_int (max_v * inject_Z res) + 1) res)))
    (py_range (py_int (min_u * inject_Z res))
              (Z.min (py_int (max_u * inject_Z res) + 1) res))
    (g, 0).

(** What [calculate_texel_sizes_and_utilization] returns: a tuple of two
    values on the early exits, of three at the end. *)
Inductive texel_tuple : Type :=
| Tuple2 (sizes : list Q) (utilization : Z)
| Tuple3 (sizes : list Q) (utilization : Q) (width : Z).

Section Rasterizer.

(** [x ** 0.5] *)
Variable pow_half : Q -> Q.

(** The body of [for face in bm.faces]. *)
Definition face_step (res image_width image_height : Z)
  (f : face) (st : grid * list Q) : result (grid * list Q) :=
  let '(g, texel_sizes) := st in
  let face_area := calc_area f in
  '(g', pixel_count) <- sample_face res g f ;;
  if 0 <? pixel_count then
    cw <- py_truediv (inject_Z image_width) (inject_Z res) ;;
    ch <- py_truediv (inject_Z image_height) (inject_Z res) ;;
    q <- py_truediv face_area (inject_Z pixel_count * cw * ch) ;;
    Ok (g', texel_sizes ++ [pow_half q])
  else Ok (g', texel_sizes).

Definition used_pixels (g : grid) : Z := py_sum (map py_sum g).

(** The loop [for face in bm.faces] from the empty grid. *)
Definition run_faces (res image_width image_height : Z) (fs : list face)
  : result (grid * list Q) :=
  for_each (face_step res image_width image_height) fs (new_grid res, []).

Definition calculate_texel_sizes_and_utilization (obj : object)
  : result texel_tuple :=
  if negb (uv_active obj) then Ok (Tuple2 [] 0)
  else
    match find_image obj with
    | None => Ok (Tuple2 [] 0)
    | Some img =>
        let '(image_width, image_height) := size img in
        let res := grid_resolution image_width image_height in
        let total_pixels := res * res in
        '(g', texel_sizes) <-
          run_faces res image_width image_height (faces obj) ;;
        texture_utilization <-
          py_truediv (inject_Z (used_pixels g')) (inject_Z total_pixels) ;;
        Ok (Tuple3 texel_sizes texture_utilization image_width)
    end.

(** The statistics dictionary of [calculate_statistics]. *)
Record stats : Type := mkStats {
  avg_texel_size : Q;
  median_texel_size : Q;
  std_dev_texel_size : Q;
  texture_utilization : Q;
  texture_width : Z;
  avg_polygon_edge_length : Q;
  median_polygon_edge_length : Q;
  std_dev_polygon_edge_length : Q;
  total_polygons : Z
}.

(** [numpy.mean], [numpy.median], [numpy.std] *)
Variables np_mean np_median np_std : list Q -> Q.

(** [sizes, texture_utilization, texture_width = ...] *)
Definition unpack3 (t : texel_tuple) : result (list Q * Q * Z) :=
  match t with
  | Tuple2 _ _ => Raise ValueError
  | Tuple3 sizes u w => Ok (sizes, u, w)
  end.

Definition calculate_statistics (obj : object) : result (option stats) :=
  t <- calculate_texel_sizes_and_utilization obj ;;
  '(sizes, utilization, width) <- unpack3 t ;;
  match sizes with
  | [] => Ok None
  | _ :: _ =>
      Ok (Some {|
        avg_texel_size := np_mean sizes;
        median_texel_size := np_median sizes;
        std_dev_texel_size := np_std sizes;
        texture_utilization := utilization;
        texture_width := width;
        avg_polygon_edge_length := np_mean (edge_lengths obj);
        median_polygon_edge_length := np_median (edge_lengths obj);
        std_dev_polygon_edge_length := np_std (edge_lengths obj);
        total_polygons := Z.of_nat (List.length (faces obj))
      |})
  end.

(** What [process_glb_file] returns: [None], the initial [{}], or the
    statistics of the first mesh object. *)
Inductive glb_stats : Type :=
| StatsNone
| StatsEmpty
| StatsOf (s : stats).

Fixpoint first_mesh (objects : list object) : option object :=
  match objects with
  | [] => None
  | o :: objects' =>
      if String.eqb (obj_type o) "MESH"%string then Some o else first_mesh objects'
  end.

(** [process_glb_file]: [isfile] is [os.path.isfile(glb_file_path)] and
    [imported] the outcome of [bpy.ops.import_scene.gltf], the objects of
    the scene or the exception it raised. *)
Definition process_glb_file (isfile : bool) (imported : result (list object))
  : result glb_stats :=
  if negb isfile then Ok StatsNone
  else
    match imported with
    | Raise RuntimeError => Ok StatsNone
    | Raise e => Raise e
    | Ok objects =>
        match first_mesh objects with
        | None => Ok StatsEmpty
        | Some obj =>
            s <- calculate_statistics obj ;;
            Ok match s with Some s => StatsOf s | None => StatsNone end
        end
    end.

End Rasterizer.

(** ** Vocabulary of the properties *)

(** A grid whose cells are all 0 or 1. *)
Definition binary (g : grid) : Prop :=
  Forall (Forall (fun c => c = 0 \/ c = 1)) g.

(** The number of cells of the grid that are occupied. *)
Definition occupied (g : grid) : Z :=
  Z.of_nat (List.length (filter (Z.eqb 1) (List.concat g))).

(** A grid of [res] rows of [res] cells. *)
Definition square (res : Z) (g : grid) : Prop :=
  List.length g = Z.to_nat res /\
  Forall (fun r => List.length r = Z.to_nat res) g.

(** A face with at least three loops, none of them at a negative UV
    coordinate. *)
Definition placed (f : face) : Prop :=
  (3 <= List.length (loops_uv f))%nat /\
  Forall (fun p => 0 <= x p /\ 0 <= y p)%Q (loops_uv f).

(** The cell in row [kv], column [ku]. *)
Definition cell (g : grid) (kv ku : nat) : option Z :=
  match nth_error g kv with
  | Some r => nth_error r ku
  | None => None
  end.

(** Cells that are occupied in [g] are occupied in [g']. *)
Definition keeps (g g' : grid) : Prop :=
  forall kv ku, cell g kv ku = Some 1 -> cell g' kv ku = Some 1.

(** What one face may do to the grid and to its own count: the count
    grows by the number of pixels that become used, cell by cell, and no
    cell is cleared. *)
Definition counted (g0 : grid) (n0 : Z) (st : grid * Z) : Prop :=
  used_pixels (fst st) - snd st = used_pixels g0 - n0 /\
  n0 <= snd st /\
  (binary g0 -> binary (fst st)) /\
  keeps g0 (fst st).



End Raster.

(* ================================================================== *)
(** * Tileset traversal *)
(* ================================================================== *)

Module Traversal.

(** A JSON number or [null]. *)
Inductive number : Type :=
| JNull
| JInt (z : Z)
| JFloat (q : Q).

(** The [content] object of a tile: its [uri] and [url] members. *)
Record content : Type := mkContent {
  uri : option string;
  url : option string
}.

#[local] Set Warnings "-register-all".

(** A tile of the tileset document; [None] is a member that is absent. *)
Inductive tile : Type :=
| mkTile (tile_content : option content)
         (geometricError : number)
         (children : option (list tile)).

Definition tile_content (t : tile) : option content :=
  let 'mkTile c _ _ := t in c.
Definition geometricError (t : tile) : number :=
  let 'mkTile _ e _ := t in e.
Definition children (t : tile) : option (list tile) :=
  let 'mkTile _ _ cs := t in cs.

(** [{}] *)
Definition empty_content : content := mkContent None None.
Definition empty_tile : tile := mkTile None JNull None.

(** A tileset document: its [root] member. *)
Record document : Type := mkDocument { root : option tile }.

(** An entry of [tiles_to_process]; [xyz] holds the keys ['x'], ['y'],
    ['z'] that only the implicit tiles have. *)
Record descriptor : Type := mkDescriptor {
  lod_level : Z;
  tile_id : Z;
  parent_id : option Z;
  tile_url : string;
  screen_space_error : number;
  base_path : string;
  xyz : option (Z * Z * Z)
}.

(** The global [tile_id_counter] and the list [tiles_to_process] that
    the traversal appends to. *)
Record state : Type := mkState {
  tile_id_counter : Z;
  tiles_to_process : list descriptor
}.

Definition get_unique_tile_id (st : state) : Z * state :=
  let c := tile_id_counter st + 1 in
  (c, mkState c (tiles_to_process st)).

Definition append (d : descriptor) (st : state) : state :=
  mkState (tile_id_counter st) (tiles_to_process st ++ [d]).

(** ** The pattern [tiles/(\d+)/(\d+)/(\d+)/(\d+)\.glb] *)

(** [\d], on ASCII characters. *)
Definition is_digit (c : ascii) : bool :=
  let n := nat_of_ascii c in (48 <=? n)%nat && (n <=? 57)%nat.

(** The longest prefix of digits, and what follows it. *)
Fixpoint take_digits (s : string) : string * string :=
  match s with
  | EmptyString => (EmptyString, EmptyString)
  | String c s' =>
      if is_digit c then
        let '(d, r) := take_digits s' in (String c d, r)
      else (EmptyString, s)
  end.

(** [\d+]: at least one digit. *)
Definition digits1 (s : string) : option (string * string) :=
  match take_digits s with
  | (EmptyString, _) => None
  | (d, r) => Some (d, r)
  end.

(** A literal at the start of [s]. *)
Fixpoint literal (lit s : string) : option string :=
  match lit, s with
  | EmptyString, _ => Some s
  | String a lit', String b s' =>
      if Ascii.eqb a b then literal lit' s' else None
  | String _ _, EmptyString => None
  end.

(** [pattern.match(s)]: the four groups when the pattern matches at the
    start of [s]. *)
Definition pattern_match (s : string)
  : option (string * string * string * string) :=
  match literal "tiles/" s with
  | None => None
  | Some s1 =>
  match digits1 s1 with
  | None => None
  | Some (g1, s2) =>
  match literal "/" s2 with
  | None => None
  | Some s3 =>
  match digits1 s3 with
  | None => None
  | Some (g2, s4) =>
  match literal "/" s4 with
  | None => None
  | Some s5 =>
  match digits1 s5 with
  | None => None
  | Some (g3, s6) =>
  match literal "/" s6 with
  | None => None
  | Some s7 =>
  match digits1 s7 with
  | None => None
  | Some (g4, s8) =>
  match literal ".glb" s8 with
  | None => None
  | Some _ => Some (g1, g2, g3, g4)
  end end end end end end end end end.

(** ** Vocabulary of the properties *)

(** [map(int, match.groups())] of a path the pattern matches. *)
Definition parsed (s : string) : option (Z * Z * Z * Z) :=
  match pattern_match s with
  | Some (g1, g2, g3, g4) =>
      match int_of_string g1, int_of_string g2,
            int_of_string g3, int_of_string g4 with
      | Ok level, Ok x, Ok y, Ok z => Some (level, x, y, z)
      | _, _, _, _ => None
      end
  | None => None
  end.





(** The identifiers [c + 1, ..., c + n]. *)
Definition ids_from (c : Z) (n : nat) : list Z :=
  map (fun i => c + 1 + Z.of_nat i) (seq 0 n).

(** The list holds the descriptors numbered from [c0] on, and the counter
    stands at the last number given. *)
Definition numbered (c0 : Z) (st : state) : Prop :=
  tile_id_counter st = c0 + Z.of_nat (List.length (tiles_to_process st)) /\
  map tile_id (tiles_to_process st)
  = ids_from c0 (List.length (tiles_to_process st)).



(** [tile_uri_template and '{level}' in tile_uri_template] *)
Definition is_implicit (tile_uri_template : option string) : bool :=
  match tile_uri_template with
  | Some template => truthy tile_uri_template && contains "{level}" template
  | None => false
  end.

(** The tile emits a descriptor of its own: its content is a mesh asset
    named outright. *)
Definition emits (t : tile) : bool :=
  let c := match tile_content t with Some c => c | None => empty_content end in
  negb (is_implicit (uri c))
  && match py_or (uri c) (url c) with
     | Some u => truthy (Some u) && negb (endswith u ".json")
                 && endswith u ".glb"
     | None => false
     end.

(** A tree all of whose tiles emit a descriptor, and its height. *)
Fixpoint explicit (t : tile) : bool :=
  match t with
  | mkTile c e cs =>
      emits (mkTile c e None)
      && match cs with
         | Some l => forallb explicit l
         | None => true
         end
  end.

Fixpoint height (t : tile) : nat :=
  match t with
  | mkTile _ _ cs =>
      S (match cs with
         | Some l => fold_right (fun c m => Nat.max (height c) m) O l
         | None => O
         end)
  end.

Section Walk.

(** The file system and [os.path]: [read_json p] is [json.load] of the
    file opened at [p]; [os_walk d] lists, for each directory under [d],
    its path and its files. *)
Variable read_json : string -> result document.
Variable os_walk : string -> list (string * list string).
Variable path_join : string -> string -> string.
Variable path_dirname : string -> string.
Variable path_relpath : string -> string -> string.

(** The body of [for file in files] in the implicit-tiling branch; the
    first component of the state is the local variable [tile_id]. *)
Definition scan_file (base_path : string) (parent_id : option Z)
  (screen_space_error : number) (root : string) (file : string)
  (st : option Z * state) : result (option Z * state) :=
  if endswith file ".glb" then
    let full_path := path_join root file in
    let relative_path := path_relpath full_path base_path in
    match pattern_match relative_path with
    | Some (g1, g2, g3, g4) =>
        level <- int_of_string g1 ;;
        x <- int_of_string g2 ;;
        y <- int_of_string g3 ;;
        z <- int_of_string g4 ;;
        let '(id, st') := get_unique_tile_id (snd st) in
        Ok (Some id,
            append {| lod_level := level;
                      tile_id := id;
                      parent_id := parent_id;
                      tile_url := relative_path;
                      screen_space_error := screen_space_error;
                      base_path := base_path;
                      xyz := Some (x, y, z) |} st')
    | None => Ok st
    end
  else Ok st.

(** The implicit-tiling branch: [for root, dirs, files in os.walk(...)]. *)
Definition implicit_scan (base_path : string) (parent_id : option Z)
  (screen_space_error : number) (st : option Z * state)
  : result (option Z * state) :=
  for_each
    (fun '(root, files) =>
       for_each (scan_file base_path parent_id screen_space_error root) files)
    (os_walk (path_join base_path "tiles"))
    st.


(** [process_tile_structure]. [depth] is the number of frames left on the
    interpreter's stack: a call that finds none raises [RecursionError].
    The local variable [tile_id] is [None] while it is unbound. *)
Fixpoint process_tile_structure (depth : nat) (t : tile)
  (parent_id : option Z) (lod_level : Z) (base_path : string) (st : state)
  : result state :=
  match depth with
  | O => Raise RecursionError
  | S depth' =>
      let tile_content :=
        match tile_content t with Some c => c | None => empty_content end in
      let tile_uri_template := uri tile_content in
      let screen_space_error := geometricError t in
      '(tile_id, st1) <-
        (if is_implicit tile_uri_template then
           implicit_scan base_path parent_id screen_space_error (None, st)
         else
           let tile_url := py_or (uri tile_content) (url tile_content) in
           match tile_url with
           | Some tile_url =>
               if negb (truthy (Some tile_url)) then Ok (None, st)
               else if endswith tile_url ".json" then
                 let nested_tileset_path := path_join base_path tile_url in
                 nested_tileset_data <- read_json nested_tileset_path ;;
                 let nested_root :=
                   match root nested_tileset_data with
                   | Some r => r
                   | None => empty_tile
                   end in
                 st' <- process_tile_structure depth' nested_root
                          parent_id lod_level
                          (path_dirname nested_tileset_path) st ;;
                 Ok (None, st')
               else if endswith tile_url ".glb" then
                 let '(id, st') := get_unique_tile_id st in
                 Ok (Some id,
                     append {| lod_level := lod_level;
                               tile_id := id;
                               parent_id := parent_id;
                               tile_url := tile_url;
                               screen_space_error := screen_space_error;
                               base_path := base_path;
                               xyz := None |} st')
               else Ok (None, st)
           | None => Ok (None, st)
           end) ;;
      match children t with
      | None => Ok st1
      | Some cs =>
          for_each
            (fun child st2 =>
               match tile_id with
               | None => Raise UnboundLocalError
               | Some id =>
                   process_tile_structure depth' child (Some id)
                     (lod_level + 1) base_path st2
               end)
            cs st1
      end
  end.

(** [load_tileset], from the value [counter] of [tile_id_counter]; the
    list returned and the counter afterwards. *)
Definition load_tileset (depth : nat) (counter : Z) (tileset_path : string)
  : result (list descriptor * Z) :=
  tileset_data <- read_json tileset_path ;;
  let root_tile :=
    match root tileset_data with Some r => r | None => empty_tile end in
  st <- process_tile_structure depth root_tile None 0
          (path_dirname tileset_path) (mkState counter []) ;;
  Ok (py_sort_by lod_level (tiles_to_process st), tile_id_counter st).

End Walk.

End Traversal.

(* ================================================================== *)
(** * Writing csv to disk *)
(* ================================================================== *)

Module Report.

(** The values held by a result row. *)
Inductive pyval : Type :=
| VNone
| VInt (z : Z)
| VFloat (q : Q)
| VStr (s : string).

(** A result row: a [dict] from column names to values, in insertion
    order. *)
Definition row : Type := list (string * pyval).

Fixpoint dict_get (k : string) (d : row) : option pyval :=
  match d with
  | [] => None
  | (k', v) :: d' => if String.eqb k' k then Some v else dict_get k d'
  end.

(** [d[k] = v] *)
Fixpoint dict_set (k : string) (v : pyval) (d : row) : row :=
  match d with
  | [] => [(k, v)]
  | (k', v') :: d' =>
      if String.eqb k' k then (k', v) :: d' else (k', v') :: dict_set k v d'
  end.

(** [d[k]] *)
Definition getitem (d : row) (k : string) : result pyval :=
  match dict_get k d with
  | Some v => Ok v
  | None => Raise KeyError
  end.

Definition keys (d : row) : list string := map fst d.

(** [isinstance(v, (int, float))] *)
Definition is_number (v : pyval) : bool :=
  match v with
  | VInt _ | VFloat _ => true
  | _ => false
  end.

(** [result['lod_level']] as a dictionary and sort key. The script stores
    an [int] there; the model covers no other kind of key. *)
Definition row_lod (r : row) : result Z :=
  v <- getitem r "lod_level" ;;
  match v with
  | VInt z => Ok z
  | _ => Raise TypeError
  end.

(** The accumulator of [sum(...)], which starts at the integer 0. *)
Inductive num : Type :=
| NInt (z : Z)
| NFloat (q : Q).

Definition val_of_num (n : num) : pyval :=
  match n with
  | NInt z => VInt z
  | NFloat q => VFloat q
  end.

Definition Q_of_num (n : num) : Q :=
  match n with
  | NInt z => inject_Z z
  | NFloat q => q
  end.

(** [acc + v] *)
Definition num_add (acc : num) (v : pyval) : result num :=
  match acc, v with
  | NInt a, VInt b => Ok (NInt (a + b))
  | NInt a, VFloat b => Ok (NFloat (inject_Z a + b))
  | NFloat a, VInt b => Ok (NFloat (a + inject_Z b))
  | NFloat a, VFloat b => Ok (NFloat (a + b))
  | _, _ => Raise TypeError
  end.

(** [sum(r[key] for r in group)] *)
Definition sum_key (key : string) (group : list row) : result num :=
  for_each (fun r acc => v <- getitem r key ;; num_add acc v) group (NInt 0).

(** [lod_groups[lod].append(result)], after [lod_groups[lod] = []] for a
    level seen for the first time. *)
Fixpoint group_append (lod : Z) (r : row) (groups : list (Z * list row))
  : list (Z * list row) :=
  match groups with
  | [] => [(lod, [r])]
  | (k, g) :: groups' =>
      if k =? lod then (k, g ++ [r]) :: groups'
      else (k, g) :: group_append lod r groups'
  end.

Definition group_by_lod (results : list row) : result (list (Z * list row)) :=
  for_each (fun r groups => lod <- row_lod r ;; Ok (group_append lod r groups))
    results [].

(** The body of [for key in group[0].keys()]. *)
Definition average_key (group : list row) (first : row) (key : string)
  (avg_result : row) : result row :=
  if String.eqb key "total_polygons" then
    s <- sum_key key group ;;
    Ok (dict_set key (val_of_num s) avg_result)
  else if negb (String.eqb key "lod_level" || String.eqb key "tile_id") then
    v <- getitem first key ;;
    if is_number v then
      s <- sum_key key group ;;
      m <- py_truediv (Q_of_num s) (inject_Z (Z.of_nat (List.length group))) ;;
      Ok (dict_set key (VFloat m) avg_result)
    else Ok avg_result
  else Ok avg_result.

(** The summary row of one level. *)
Definition summarize (lod : Z) (group : list row) : result row :=
  let avg_result :=
    [("lod_level"%string, VInt lod);
     ("tile_id"%string, VInt (Z.of_nat (List.length group)))] in
  first <- py_getitem group 0 ;;
  for_each (average_key group first) (keys first) avg_result.

(** The list [summary]. *)
Definition lod_summary (results : list row) : result (list row) :=
  lod_groups <- group_by_lod results ;;
  for_each
    (fun '(lod, group) summary =>
       avg_result <- summarize lod group ;; Ok (summary ++ [avg_result]))
    (py_sort_by fst lod_groups) [].

(** ** Vocabulary of the properties *)

(** The rows of one level, in the order of the list. *)
Definition has_lod (lod : Z) (r : row) : bool :=
  match dict_get "lod_level" r with
  | Some (VInt z) => z =? lod
  | _ => false
  end.

Definition rows_of (lod : Z) (results : list row) : list row :=
  filter (has_lod lod) results.

Definition Q_of_val (v : pyval) : Q :=
  match v with
  | VInt z => inject_Z z
  | VFloat q => q
  | _ => 0%Q
  end.

(** The numbers of one column of a group. *)
Definition column (key : string) (group : list row) : list Q :=
  map (fun r => match dict_get key r with
                | Some v => Q_of_val v
                | None => 0%Q
                end) group.

Definition Qsum (l : list Q) : Q := fold_left Qplus l 0%Q.

(** The row holds a number under [key]. *)
Definition numeric_at (key : string) (r : row) : bool :=
  match dict_get key r with
  | Some v => is_number v
  | None => false
  end.

(** The keys for which the summary of a group computes a sum: that of
    the polygons, and those under which the first row holds a number. *)
Definition averaged (first : row) (key : string) : bool :=
  String.eqb key "total_polygons"
  || (negb (String.eqb key "lod_level" || String.eqb key "tile_id")
      && numeric_at key first).

(** Every column that the summary sums holds a number in every row. *)
Definition uniform (group : list row) : Prop :=
  match group with
  | [] => True
  | first :: _ =>
      forall key, In key (keys first) -> averaged first key = true ->
                  Forall (fun r => numeric_at key r = true) group
  end.

Definition well_typed (results : list row) : Prop :=
  Forall (fun r => exists z, dict_get "lod_level" r = Some (VInt z)) results /\
  forall lod, uniform (rows_of lod results).

(** The same conditions as boolean tests. *)
Definition uniformb (group : list row) : bool :=
  match group with
  | [] => true
  | first :: _ =>
      forallb (fun key => implb (averaged first key)
                                (forallb (numeric_at key) group))
              (keys first)
  end.

Definition levels_of (results : list row) : list Z :=
  flat_map (fun r => match dict_get "lod_level" r with
                     | Some (VInt z) => [z]
                     | _ => []
                     end) results.

Definition well_typedb (results : list row) : bool :=
  forallb (fun r => match dict_get "lod_level" r with
                    | Some (VInt _) => true
                    | _ => false
                    end) results
  && forallb (fun lod => uniformb (rows_of lod results)) (levels_of results).

(** [s] is the summary row of the level [lod] of [results]. *)
Definition summarizes (results : list row) (lod : Z) (s : row) : Prop :=
  let group := rows_of lod results in
  dict_get "lod_level" s = Some (VInt lod) /\
  dict_get "tile_id" s = Some (VInt (Z.of_nat (List.length group))) /\
  forall first rest key,
    group = first :: rest -> In key (keys first) ->
    (key = "total_polygons"%string ->
     exists v, dict_get key s = Some v /\
               (Q_of_val v == Qsum (column key group))%Q) /\
    (key <> "total_polygons"%string -> key <> "lod_level"%string ->
     key <> "tile_id"%string ->
     if numeric_at key first then
       exists m, dict_get key s = Some (VFloat m) /\
                 (m == Qsum (column key group)
                       / inject_Z (Z.of_nat (List.length group)))%Q
     else dict_get key s = None).

(** The value that the summary of [group] holds under [key], if any. *)
Definition entry (group : list row) (first : row) (key : string)
  : option pyval :=
  match sum_key key group with
  | Ok sum =>
      if String.eqb key "total_polygons" then Some (val_of_num sum)
      else if averaged first key then
        Some (VFloat (Q_of_num sum
                      / inject_Z (Z.of_nat (List.length group))))
      else None
  | Raise _ => None
  end.

Definition put (group : list row) (first : row) (avg : row) (key : string)
  : row :=
  match entry group first key with
  | Some v => dict_set key v avg
  | None => avg
  end.

(** The group filed under a level. *)
Fixpoint assoc (lod : Z) (groups : list (Z * list row)) : option (list row) :=
  match groups with
  | [] => None
  | (k, g) :: groups' => if k =? lod then Some g else assoc lod groups'
  end.

(** The groups built from the rows [pre]: one entry for each level that
    occurs, holding the rows of that level in order. *)
Definition grouped (pre : list row) (groups : list (Z * list row)) : Prop :=
  NoDup (map fst groups) /\
  forall lod,
    assoc lod groups
    = match rows_of lod pre with [] => None | g => Some g end.

Section Csv.

(** [f'{v:.4f}'] *)
Variable fmt4 : Q -> string.

Definition rounded_row (r : row) : row :=
  map (fun '(k, v) =>
         (k, match v with VFloat q => VStr (fmt4 q) | _ => v end)) r.

(** [DictWriter.writerow]: a key outside [fieldnames] raises; a field the
    row lacks is written as the empty string. *)
Definition writerow (fieldnames : list string) (r : row)
  : result (list pyval) :=
  if forallb (fun k => existsb (String.eqb k) fieldnames) (keys r) then
    Ok (map (fun k => match dict_get k r with
                      | Some v => v
                      | None => VStr ""
                      end) fieldnames)
  else Raise ValueError.

Definition writerows (fieldnames : list string) (rows : list row)
  (out : list (list pyval)) : result (list (list pyval)) :=
  for_each (fun r out => line <- writerow fieldnames (rounded_row r) ;;
                         Ok (out ++ [line])) rows out.

(** [write_results_to_csv]: the lines written to the output file. *)
Definition write_results_to_csv (results : list row)
  : result (list (list pyval)) :=
  summary <- lod_summary results ;;
  first <- py_getitem results 0 ;;
  let fieldnames := keys first in
  let header := map VStr fieldnames in
  out <- writerows fieldnames summary [header] ;;
  blank <- writerow fieldnames [] ;;
  let out := out ++ [blank; blank; blank] ++ [header] in
  writerows fieldnames results out.

(** The end of [main]: drop the [None] results, sort by level, write. *)
Definition main_report (results : list (option row))
  : result (list (list pyval)) :=
  let valid_results :=
    flat_map (fun r => match r with Some r => [r] | None => [] end) results in
  keyed <- for_each (fun r acc => k <- row_lod r ;; Ok (acc ++ [(k, r)]))
             valid_results [] ;;
  write_results_to_csv (map snd (py_sort_by fst keyed)).

(** The line written for a row whose keys are among [fieldnames], and
    the lines of a report: the header, the summary rows, three blank
    rows, the header again and the result rows. *)
Definition line (fieldnames : list string) (r : row) : list pyval :=
  map (fun k => match dict_get k r with
                | Some v => v
                | None => VStr ""
                end) fieldnames.

Definition report_lines (fieldnames : list string) (summary results : list row)
  : list (list pyval) :=
  [map VStr fieldnames]
  ++ map (fun r => line fieldnames (rounded_row r)) summary
  ++ [line fieldnames []; line fieldnames []; line fieldnames []]
  ++ [map VStr fieldnames]
  ++ map (fun r => line fieldnames (rounded_row r)) results.

End Csv.

End Report.

(* ================================================================== *)
(** * One tile: from descriptor and mesh to result row *)
(* ================================================================== *)

Module Tile.

Import Raster Traversal Report.

Definition val_of_number (n : number) : pyval :=
  match n with
  | JNull => VNone
  | JInt z => VInt z
  | JFloat q => VFloat q
  end.

Definition val_of_id (o : option Z) : pyval :=
  match o with
  | Some z => VInt z
  | None => VNone
  end.

(** [process_tile_parallel], given what [process_glb_file] returned. *)
Definition process_tile_parallel (tile_info : descriptor) (stats : glb_stats)
  : option row :=
  match stats with
  | StatsOf s =>
      Some [("lod_level"%string, VInt (lod_level tile_info));
            ("tile_id"%string, VInt (tile_id tile_info));
            ("parent_id"%string, val_of_id (parent_id tile_info));
            ("tile_uri"%string, VStr (tile_url tile_info));
            ("screen_space_error"%string,
               val_of_number (screen_space_error tile_info));
            ("avg_texel_size"%string, VFloat (avg_texel_size s));
            ("median_texel_size"%string, VFloat (median_texel_size s));
            ("std_dev_texel_size"%string, VFloat (std_dev_texel_size s));
            ("texture_utilization"%string, VFloat (texture_utilization s));
            ("texture_width"%string, VInt (texture_width s));
            ("avg_polygon_edge_length"%string,
               VFloat (avg_polygon_edge_length s));
            ("median_polygon_edge_length"%string,
               VFloat (median_polygon_edge_length s));
            ("std_dev_polygon_edge_length"%string,
               VFloat (std_dev_polygon_edge_length s));
            ("total_polygons"%string, VInt (total_polygons s))]
  | StatsEmpty | StatsNone => None
  end.

End Tile.

(* ================================================================== *)
(** * The run *)
(* ================================================================== *)

Module Main.

Import Raster Traversal Report.

(** How a run ends without an exception: [sys.exit(code)], or the lines
    written to the output file. *)
Inductive outcome : Type :=
| Exit (code : Z)
| Written (output_csv : string) (lines : list (list pyval)).

Section Run.

Variable pow_half : Q -> Q.
Variables np_mean np_median np_std : list Q -> Q.
Variable read_json : string -> result document.
Variable os_walk : string -> list (string * list string).
Variable path_join : string -> string -> string.
Variable path_dirname : string -> string.
Variable path_relpath : string -> string -> string.

(** [os.path.isfile], and the objects of the scene after
    [bpy.ops.import_scene.gltf] of a file, or the exception it raised. *)
Variable isfile : string -> bool.
Variable import_scene : string -> result (list object).

(** [f'{v:.4f}'] *)
Variable fmt4 : Q -> string.

(** [process_tile_parallel]: the row of a tile, from its file. *)
Definition process_tile_parallel (tile_info : descriptor)
  : result (option row) :=
  let glb_file_path :=
    path_join (base_path tile_info) (tile_url tile_info) in
  stats <- process_glb_file pow_half np_mean np_median np_std
             (isfile glb_file_path) (import_scene glb_file_path) ;;
  Ok (Tile.process_tile_parallel tile_info stats).

(** [for i, result in enumerate(pool.imap(process_tile_parallel, ...))]:
    the results come in the order of the tiles, and the exception of a
    worker is raised when its result is due. The workers share nothing,
    so the model runs them one after the other. *)
Definition imap (tiles_to_process : list descriptor)
  : result (list (option row)) :=
  for_each (fun tile_info results =>
              r <- process_tile_parallel tile_info ;; Ok (results ++ [r]))
    tiles_to_process [].

(** [main], on [sys.argv], with [depth] frames of stack for the
    traversal. The counter of identifiers starts at 0. *)
Definition main (depth : nat) (argv : list string) : result outcome :=
  if Z.of_nat (List.length argv) <? 6 then Ok (Exit 1)
  else
    tileset_path <- py_getitem argv (-2) ;;
    output_csv <- py_getitem argv (-1) ;;
    '(tiles_to_process, _) <-
      load_tileset read_json os_walk path_join path_dirname path_relpath
        depth 0 tileset_path ;;
    results <- imap tiles_to_process ;;
    lines <- main_report fmt4 results ;;
    Ok (Written output_csv lines).

End Run.

End Main.

(* ================================================================== *)
(** * Sample inputs *)
(* ================================================================== *)

Module Samples.

Import Raster Traversal Report.

#[local] Open Scope Q_scope.

(** Stand-ins for [x ** 0.5] and for [numpy]'s functions, which the model
    leaves uninterpreted: a rational root that is exact on squares, and
    the mean for all three statistics. *)
Definition rational_root (q : Q) : Q :=
  Z.sqrt (Qnum q * Zpos (Qden q)) # Qden q.

Definition mean (l : list Q) : Q :=
  fold_left Qplus l 0 / inject_Z (Z.of_nat (List.length l)).

Definition textured (w h : Z) : option material :=
  Some (mkMaterial
          (Some [mkNode "TEX_IMAGE" (Some (mkImage (w, h)))])).

Definition triangle (area : Q) (a b c : Q * Q) : face :=
  mkFace area [mkVector (fst a) (snd a);
               mkVector (fst b) (snd b);
               mkVector (fst c) (snd c)].

(** The lower-left half of the unit square. *)
Definition half_square : face := triangle 1 (0, 0) (1, 0) (0, 1).


(** A triangle of UV coordinates that are all negative. *)
Definition negative_face : face :=
  triangle 1 (- (9 # 10), - (9 # 10)) (- (1 # 10), - (9 # 10))
             (- (9 # 10), - (1 # 10)).



Definition mesh (uv : bool) (m : option material) (fs : list face) : object :=
  mkObject "MESH" uv m fs [1; 1; 1].

Definition negative_mesh : object := mesh true (textured 8 8) [negative_face].
Definition twice_mesh : object :=
  mesh true (textured 4 4) [half_square; half_square].
Definition no_uv_mesh : object := mesh false (textured 8 8) [half_square].

(** A leaf that refers to a mesh asset. *)
Definition leaf (u : string) (e : number) : tile :=
  mkTile (Some (mkContent (Some u) None)) e None.

(** A root without content, with one leaf below it. *)
Definition bare_root : tile :=
  mkTile None (JInt 16) (Some [leaf "tile_0.glb" JNull]).

(** A root with content and three children, one of them with a child. *)
Definition full_root : tile :=
  mkTile (Some (mkContent (Some "r.glb"%string) None)) (JInt 16)
    (Some [leaf "a.glb" JNull;
           mkTile (Some (mkContent (Some "b.glb"%string) None)) (JInt 4)
                  (Some [leaf "c.glb" (JInt 1)]);
           leaf "d.glb" (JInt 2)]).

Definition document_at (name : string) (t : tile) (p : string)
  : result document :=
  if String.eqb p name then Ok (mkDocument (Some t))
  else Raise FileNotFoundError.

Definition no_walk (d : string) : list (string * list string) := [].

(** Four tiles and their result rows; [tile_b] has no geometric error. *)
Definition sample_stats : stats :=
  mkStats (1 # 2) (1 # 2) 0 (3 # 4) 8 1 1 0 12.

Definition tile_r : descriptor :=
  mkDescriptor 0 1 None "r.glb" (JFloat 32) "." None.
Definition tile_a : descriptor :=
  mkDescriptor 1 2 (Some 1%Z) "a.glb" (JFloat 16) "." None.
Definition tile_b : descriptor :=
  mkDescriptor 1 3 (Some 1%Z) "b.glb" JNull "." None.
Definition tile_c : descriptor :=
  mkDescriptor 1 4 (Some 1%Z) "c.glb" (JFloat 8) "." None.

Definition row_of (d : descriptor) : row :=
  match Tile.process_tile_parallel d (StatsOf sample_stats) with
  | Some r => r
  | None => []
  end.

(** Results in the order in which [main] hands them over. *)
Definition report_rows : list row := [row_of tile_r; row_of tile_a; row_of tile_c].

Definition join (a b : string) : string := (a ++ "/" ++ b)%string.
Definition dirname (p : string) : string := "."%string.
Definition relpath (p base : string) : string := p.
Definition no_texture_mesh : object := mesh true None [half_square].
Definition tiny_texture_mesh : object := mesh true (textured 1 1) [half_square].

End Samples.

(* ================================================================== *)
(** * Further vocabulary *)
(* ================================================================== *)

Module RasterSpec.

Import Raster.

#[local] Open Scope Q_scope.



End RasterSpec.

Module TraversalSpec.

Import Traversal.

(** The parent that [d] names was numbered after [c0] and before [d]. *)
Definition parent_before (c0 : Z) (d : descriptor) : Prop :=
  match parent_id d with
  | Some p => c0 < p < tile_id d
  | None => True
  end.

(** [parent] is a number given since [c0]. *)
Definition known (c0 : Z) (st : state) (parent : option Z) : Prop :=
  match parent with
  | Some p => c0 < p <= tile_id_counter st
  | None => True
  end.

(** The list is numbered from [c0] on, its parents come before their
    children and no level is negative. *)
Definition sound (c0 : Z) (st : state) : Prop :=
  numbered c0 st /\
  Forall (fun d => parent_before c0 d /\ 0 <= lod_level d)
         (tiles_to_process st).

(** [st] after the descriptors [ds] were numbered and appended. *)
Definition extend (st : state) (ds : list descriptor) : state :=
  mkState (tile_id_counter st + Z.of_nat (List.length ds))
          (tiles_to_process st ++ ds).

(** The lists that [f] gives for the elements of [l], one after the
    other; each is numbered from where the one before it stopped. *)
Fixpoint thread {A} (f : A -> Z -> list descriptor) (l : list A) (c : Z)
  : list descriptor :=
  match l with
  | [] => []
  | a :: l' =>
      let ds := f a c in ds ++ thread f l' (c + Z.of_nat (List.length ds))
  end.

(** The tiles of a tree in preorder, numbered from [c + 1] on: a tile
    comes before its children, and each child gets the number of the
    tile as its parent and the next level. *)
Fixpoint preorder (base : string) (t : tile) (parent : option Z)
  (lod c : Z) {struct t} : list descriptor :=
  match t with
  | mkTile tc e cs =>
      let tc := match tc with Some tc => tc | None => empty_content end in
      {| lod_level := lod;
         tile_id := c + 1;
         parent_id := parent;
         tile_url := match py_or (uri tc) (url tc) with
                     | Some u => u
                     | None => EmptyString
                     end;
         screen_space_error := e;
         base_path := base;
         xyz := None |}
      :: match cs with
         | Some l =>
             thread (fun child c' =>
                       preorder base child (Some (c + 1)) (lod + 1) c')
                    l (c + 1)
         | None => []
         end
  end.

(** The number of tiles of a tree. *)
Fixpoint size (t : tile) : nat :=
  match t with
  | mkTile _ _ cs =>
      S (match cs with
         | Some l => fold_right (fun c n => (size c + n)%nat) O l
         | None => O
         end)
  end.

End TraversalSpec.

Module ReportSpec.

Import Raster Traversal Report.

(** The number of tiles that a summary row stands for: the summary keeps
    it under [tile_id]. *)
Definition tile_count (s : row) : Z :=
  match dict_get "tile_id" s with
  | Some (VInt n) => n
  | _ => 0
  end.

(** The columns of a result row, in the order in which
    [process_tile_parallel] and [calculate_statistics] put them. *)
Definition columns : list string :=
  ["lod_level"; "tile_id"; "parent_id"; "tile_uri"; "screen_space_error";
   "avg_texel_size"; "median_texel_size"; "std_dev_texel_size";
   "texture_utilization"; "texture_width"; "avg_polygon_edge_length";
   "median_polygon_edge_length"; "std_dev_polygon_edge_length";
   "total_polygons"]%string.

(** The result row of a tile whose mesh gave the statistics [s]. *)
Definition tile_row (d : descriptor) (s : stats) : row :=
  match Tile.process_tile_parallel d (StatsOf s) with
  | Some r => r
  | None => []
  end.

(** Two tiles agree on having a parent and on having a geometric error. *)
Definition alike (d d' : descriptor) : Prop :=
  (parent_id d = None <-> parent_id d' = None) /\
  (screen_space_error d = JNull <-> screen_space_error d' = JNull).

(** The rows of the results that are not [None], in order. *)
Definition valid (results : list (option row)) : list row :=
  flat_map (fun r => match r with Some r => [r] | None => [] end) results.

End ReportSpec.

Module MoreSamples.

Import Raster Traversal Report.

#[local] Open Scope Q_scope.


(** An object that is no mesh. *)
Definition camera : object := mkObject "CAMERA" false None [] [].

(** A tile whose content is the document that holds it. *)
Definition loop_tile : tile :=
  mkTile (Some (mkContent (Some "ts.json"%string) None)) JNull None.

(** A stand-in for [f'{v:.4f}']: the number of ten-thousandths, rounded
    down. *)
Definition ten_thousandths (q : Q) : string :=
  NilEmpty.string_of_int
    (Z.to_int (Qnum q * 10000 / Zpos (Qden q))).

(** Four jobs, one of them for a tile whose file is missing. *)
Definition jobs : list (descriptor * glb_stats) :=
  [(Samples.tile_a, StatsOf Samples.sample_stats);
   (Samples.tile_b, StatsNone);
   (Samples.tile_r, StatsOf Samples.sample_stats);
   (Samples.tile_c, StatsOf Samples.sample_stats)].

(** A root with two leaves; every tile has a geometric error. *)
Definition even_root : tile :=
  mkTile (Some (mkContent (Some "r.glb"%string) None)) (JInt 16)
    (Some [Samples.leaf "a.glb" (JInt 4); Samples.leaf "b.glb" (JInt 4)]).

(** A world in which every file exists and holds the mesh [o]. *)
Definition every_file (p : string) : bool := true.
Definition scene_of (o : object) (p : string) : result (list object) :=
  Ok [camera; o].

(** What [process_glb_file] gives for a file that holds
    [Samples.twice_mesh]. *)
Definition twice_stats : glb_stats :=
  match process_glb_file Samples.rational_root Samples.mean Samples.mean
          Samples.mean true (Ok [camera; Samples.twice_mesh]) with
  | Ok st => st
  | Raise _ => StatsNone
  end.

(** The descriptors of [even_root], numbered from 1. *)
Definition even_tiles : list descriptor :=
  [mkDescriptor 0 1 None "r.glb" (JInt 16) "." None;
   mkDescriptor 1 2 (Some 1%Z) "a.glb" (JInt 4) "." None;
   mkDescriptor 1 3 (Some 1%Z) "b.glb" (JInt 4) "." None].

(** The command line of a run. *)
Definition command_line : list string :=
  ["blender"; "--background"; "--python"; "examine_3d-tile.py"; "--";
   "ts.json"; "out.csv"]%string.

(** A tile whose content is neither a mesh asset nor a document. *)
Definition batched (cs : option (list tile)) : tile :=
  mkTile (Some (mkContent None (Some "model.b3dm"%string))) (JInt 8) cs.

End MoreSamples.

(* ================================================================== *)
(** * Properties of the sequence helpers *)
(* ================================================================== *)

Lemma bind_ok {A B} (c : result A) (k : A -> result B) (b : B) :
  bind c k = Ok b -> exists a, c = Ok a /\ k a = Ok b.
Proof.
  destruct c as [a | e]; simpl; intros H; [eauto | discriminate].
Qed.

Lemma for_each_app {A S} (body : A -> S -> result S) (l1 l2 : list A) (st : S) :
  for_each body (l1 ++ l2) st = (st' <- for_each body l1 st ;; for_each body l2 st').
Proof.
  revert st; induction l1 as [| a l1 IH]; intros st; simpl; [reflexivity |].
  destruct (body a st); simpl; auto.
Qed.

(** A loop whose body leaves the state alone leaves it alone. *)
Lemma for_each_id {A S} (body : A -> S -> result S) (l : list A) (st : S) :
  (forall a, In a l -> body a st = Ok st) -> for_each body l st = Ok st.
Proof.
  induction l as [| a l IH]; intros H; simpl; [reflexivity |].
  rewrite H by (left; reflexivity); simpl.
  apply IH; intros b Hb; apply H; right; exact Hb.
Qed.

(** An invariant of the loop body is an invariant of the loop. *)
Lemma for_each_inv {A S} (P : S -> Prop) (body : A -> S -> result S) :
  (forall a st st', P st -> body a st = Ok st' -> P st') ->
  forall l st st', P st -> for_each body l st = Ok st' -> P st'.
Proof.
  intros Hbody; induction l as [| a l IH]; simpl; intros st st' HP H.
  - injection H as <-; exact HP.
  - apply bind_ok in H as (st1 & H1 & H2); eauto.
Qed.

Lemma py_range_empty (a b : Z) : b <= a -> py_range a b = [].
Proof.
  intros H; unfold py_range.
  replace (Z.to_nat (b - a)) with O by lia; reflexivity.
Qed.

Lemma truediv_nonzero (a : Q) (n : Z) :
  n <> 0 -> py_truediv a (inject_Z n) = Ok (a / inject_Z n)%Q.
Proof.
  intros Hn; unfold py_truediv.
  destruct (Qeq_bool (inject_Z n) 0) eqn:E; [| reflexivity].
  apply Qeq_bool_iff in E; unfold Qeq in E; simpl in E; lia.
Qed.

Lemma truediv_zero (a : Q) : py_truediv a (inject_Z 0) = Raise ZeroDivisionError.
Proof. reflexivity. Qed.

Lemma for_each_prefix {A S} (body : A -> S -> result S) (l1 l2 : list A)
  (st st' : S) :
  for_each body (l1 ++ l2) st = Ok st' ->
  exists st1, for_each body l1 st = Ok st1 /\ for_each body l2 st1 = Ok st'.
Proof. rewrite for_each_app; apply bind_ok. Qed.

Lemma firstn_snoc {A} (l : list A) (k : nat) (a : A) :
  nth_error l k = Some a -> firstn (S k) l = firstn k l ++ [a].
Proof.
  revert k; induction l as [| b l IH]; intros [| k] H; simpl in H;
    try discriminate.
  - now injection H as ->.
  - simpl; f_equal; now apply IH.
Qed.

Lemma split_at {A} (l : list A) (k : nat) (a : A) :
  nth_error l k = Some a -> l = firstn k l ++ a :: skipn (S k) l.
Proof.
  revert k; induction l as [| b l IH]; intros [| k] H; simpl in H;
    try discriminate.
  - now injection H as ->.
  - simpl; f_equal; now apply IH.
Qed.

(** A loop whose body returns, and keeps [P], returns and keeps [P]. *)
Lemma for_each_total {A S} (P : S -> Prop) (body : A -> S -> result S)
  (l : list A) (st : S) :
  P st ->
  (forall a st, In a l -> P st -> exists st', body a st = Ok st' /\ P st') ->
  exists st', for_each body l st = Ok st' /\ P st'.
Proof.
  revert st; induction l as [| a l IH]; intros st HP Hbody.
  - exists st; now split.
  - destruct (Hbody a st (or_introl eq_refl) HP) as (st1 & H1 & HP1).
    destruct (IH st1 HP1) as (st2 & H2 & HP2);
      [intros b st' Hb; apply Hbody; now right |].
    exists st2; split; [cbn [for_each]; now rewrite H1 | exact HP2].
Qed.

Lemma py_range_bounds (a b i : Z) : In i (py_range a b) -> a <= i < b.
Proof.
  unfold py_range; rewrite in_map_iff; intros (k & <- & Hk).
  apply in_seq in Hk; lia.
Qed.

Lemma getitem_total {A} (l : list A) (i : Z) :
  0 <= i < Z.of_nat (List.length l) -> exists a, py_getitem l i = Ok a.
Proof.
  intros Hi; unfold py_getitem, py_index.
  replace ((0 <=? i) && (i <? Z.of_nat (List.length l))) with true
    by (symmetry; apply andb_true_intro; split;
        [apply Z.leb_le | apply Z.ltb_lt]; lia).
  cbn [bind].
  destruct (nth_error l (Z.to_nat i)) as [a |] eqn:E; [eauto |].
  apply nth_error_None in E; lia.
Qed.

Lemma setitem_total {A} (l : list A) (i : Z) (a : A) :
  0 <= i < Z.of_nat (List.length l) ->
  py_setitem l i a = Ok (list_update l (Z.to_nat i) a).
Proof.
  intros Hi; unfold py_setitem, py_index.
  replace ((0 <=? i) && (i <? Z.of_nat (List.length l))) with true
    by (symmetry; apply andb_true_intro; split;
        [apply Z.leb_le | apply Z.ltb_lt]; lia).
  reflexivity.
Qed.

Lemma length_update {A} (l : list A) (k : nat) (a : A) :
  List.length (list_update l k a) = List.length l.
Proof.
  revert k; induction l as [| b l IH]; intros [| k]; simpl; auto.
Qed.

(** ** The stable sort *)

Section Sort.

Context {A : Type} (key : A -> Z).

Lemma insert_by_perm (a : A) (l : list A) :
  Permutation (a :: l) (insert_by key a l).
Proof.
  induction l as [| b l IH]; simpl; [reflexivity |].
  destruct (key a <=? key b); [reflexivity |].
  rewrite perm_swap; now apply perm_skip.
Qed.

Lemma py_sort_by_perm (l : list A) : Permutation l (py_sort_by key l).
Proof.
  induction l as [| a l IH]; simpl; [reflexivity |].
  rewrite <- insert_by_perm; now apply perm_skip.
Qed.

Lemma insert_by_sorted (a : A) (l : list A) :
  StronglySorted (key_le key) l -> StronglySorted (key_le key) (insert_by key a l).
Proof.
  induction 1 as [| b l Hl IH Hb]; simpl; [repeat constructor |].
  destruct (key a <=? key b) eqn:E.
  - apply Z.leb_le in E.
    constructor; [now constructor |].
    constructor; [exact E |].
    eapply Forall_impl; [| exact Hb].
    unfold key_le; intros c Hc; lia.
  - apply Z.leb_gt in E.
    constructor; [exact IH |].
    rewrite <- insert_by_perm.
    constructor; [unfold key_le; lia | exact Hb].
Qed.

Lemma py_sort_by_sorted (l : list A) : StronglySorted (key_le key) (py_sort_by key l).
Proof.
  induction l as [| a l IH]; simpl; [constructor |].
  now apply insert_by_sorted.
Qed.

(** Elements of equal key keep their order. *)
Lemma insert_by_stable (k : Z) (a : A) (l : list A) :
  filter (fun b => key b =? k) (insert_by key a l)
  = filter (fun b => key b =? k) (a :: l).
Proof.
  induction l as [| b l IH]; [reflexivity |].
  cbn [insert_by]; destruct (key a <=? key b) eqn:E; [reflexivity |].
  apply Z.leb_gt in E.
  cbn [filter] in *; rewrite IH.
  destruct (key a =? k) eqn:Ea, (key b =? k) eqn:Eb; try reflexivity.
  apply Z.eqb_eq in Ea, Eb; lia.
Qed.

Lemma py_sort_by_stable (k : Z) (l : list A) :
  filter (fun b => key b =? k) (py_sort_by key l)
  = filter (fun b => key b =? k) l.
Proof.
  induction l as [| a l IH]; [reflexivity |].
  cbn [py_sort_by fold_right]; rewrite insert_by_stable.
  cbn [filter]; fold (py_sort_by key l); now rewrite IH.
Qed.

End Sort.

(* ================================================================== *)
(** * The rasterizer *)
(* ================================================================== *)

Module RasterFacts.

Import Raster.

Lemma grid_resolution_quot (w h : Z) :
  grid_resolution w h = Z.quot (Z.max w h) 2.
Proof.
  unfold grid_resolution, py_int, fraction; simpl.
  now rewrite Z.mul_1_r.
Qed.

Lemma py_int_mul_0 (q : Q) : py_int (q * inject_Z 0) = 0.
Proof.
  unfold py_int; simpl. rewrite Z.mul_0_r. apply Z.quot_0_l; lia.
Qed.

(** On a grid of side 0 the bounding box of a face holds no cell. *)
Lemma sample_face_res0 (g : grid) (f : face) :
  loops_uv f <> [] -> sample_face 0 g f = Ok (g, 0).
Proof.
  intros Hne; unfold sample_face.
  destruct (loops_uv f) as [| p ps]; [contradiction |].
  cbn [map py_min py_max bind].
  rewrite !py_int_mul_0.
  rewrite (py_range_empty 0 (Z.min (0 + 1) 0)) by lia.
  reflexivity.
Qed.

(** ** Counting occupied cells *)

Lemma fold_add_shift (l : list Z) (a : Z) :
  fold_left Z.add l a = a + fold_left Z.add l 0.
Proof.
  revert a; induction l as [| b l IH]; intros a; simpl; [lia |].
  rewrite (IH (a + b)), (IH b); lia.
Qed.

Lemma py_sum_cons (a : Z) (l : list Z) : py_sum (a :: l) = a + py_sum l.
Proof. unfold py_sum; simpl; apply fold_add_shift. Qed.

Lemma py_sum_binary (r : list Z) :
  Forall (fun c => c = 0 \/ c = 1) r ->
  py_sum r = Z.of_nat (List.length (filter (Z.eqb 1) r)).
Proof.
  induction 1 as [| c r Hc _ IH]; [reflexivity |].
  rewrite py_sum_cons, IH.
  destruct Hc as [-> | ->].
  - change (filter (Z.eqb 1) (0 :: r)) with (filter (Z.eqb 1) r); lia.
  - change (filter (Z.eqb 1) (1 :: r)) with (1 :: filter (Z.eqb 1) r).
    cbn [List.length]; lia.
Qed.

(** On a binary grid [sum(sum(row) for row in grid)] counts the occupied
    cells. *)
Lemma used_pixels_occupied (g : grid) :
  binary g -> used_pixels g = occupied g.
Proof.
  unfold used_pixels, occupied.
  induction 1 as [| r g Hr _ IH]; [reflexivity |].
  simpl map; rewrite py_sum_cons, IH, (py_sum_binary r Hr).
  simpl List.concat; rewrite filter_app, length_app; lia.
Qed.

Lemma binary_new_grid (n : Z) : binary (new_grid n).
Proof.
  unfold binary, new_grid.
  apply Forall_forall; intros r Hr; apply repeat_spec in Hr; subst r.
  apply Forall_forall; intros c Hc; apply repeat_spec in Hc; auto.
Qed.

Lemma py_sum_repeat_0 (m : nat) : py_sum (repeat 0 m) = 0.
Proof.
  induction m as [| m IH]; [reflexivity |].
  simpl repeat; rewrite py_sum_cons; lia.
Qed.

Lemma occupied_new_grid (n : Z) : occupied (new_grid n) = 0.
Proof.
  rewrite <- used_pixels_occupied by apply binary_new_grid.
  unfold used_pixels, new_grid.
  generalize (Z.to_nat n) at 2; intros k.
  induction k as [| k IH]; [reflexivity |].
  simpl repeat; simpl map; rewrite py_sum_cons, IH, py_sum_repeat_0; lia.
Qed.

(** The grid is square: [n] rows of [n] cells. *)
Lemma new_grid_square (n : Z) :
  List.length (new_grid n) = Z.to_nat n /\
  Forall (fun r => List.length r = Z.to_nat n) (new_grid n).
Proof.
  unfold new_grid; split; [apply repeat_length |].
  apply Forall_forall; intros r Hr; apply repeat_spec in Hr; subst r.
  apply repeat_length.
Qed.

(** ** Reading and writing a cell *)

Lemma getitem_ok {A} (l : list A) (i : Z) (a : A) :
  py_getitem l i = Ok a ->
  exists k, py_index l i = Ok k /\ nth_error l k = Some a.
Proof.
  unfold py_getitem; intros H.
  apply bind_ok in H as (k & Hk & H).
  exists k; split; [exact Hk |].
  destruct (nth_error l k); [injection H as -> |]; easy.
Qed.

Lemma setitem_ok {A} (l l' : list A) (i : Z) (a : A) :
  py_setitem l i a = Ok l' ->
  exists k, py_index l i = Ok k /\ l' = list_update l k a.
Proof.
  unfold py_setitem; intros H.
  apply bind_ok in H as (k & Hk & H).
  exists k; split; [exact Hk | now injection H].
Qed.

Lemma py_sum_update (l : list Z) (k : nat) (c a : Z) :
  nth_error l k = Some c ->
  py_sum (list_update l k a) = py_sum l - c + a.
Proof.
  revert k; induction l as [| b l IH]; intros [| k] H; simpl in H;
    try discriminate.
  - injection H as ->; simpl; rewrite !py_sum_cons; lia.
  - simpl; rewrite !py_sum_cons, (IH k H); lia.
Qed.

Lemma map_update {A B} (f : A -> B) (l : list A) (k : nat) (a : A) :
  map f (list_update l k a) = list_update (map f l) k (f a).
Proof.
  revert k; induction l as [| b l IH]; intros [| k]; simpl; auto.
  now rewrite IH.
Qed.

Lemma Forall_update {A} (P : A -> Prop) (l : list A) (k : nat) (a : A) :
  Forall P l -> P a -> Forall P (list_update l k a).
Proof.
  intros Hl Ha; revert k; induction Hl as [| b l Hb Hl IH]; intros [| k];
    simpl; auto.
Qed.

(** Writing [1] into a free cell adds one used pixel. *)
Lemma used_pixels_mark (g : grid) (kv ku : nat) (r : list Z) :
  nth_error g kv = Some r -> nth_error r ku = Some 0 ->
  used_pixels (list_update g kv (list_update r ku 1)) = used_pixels g + 1.
Proof.
  intros Hr Hc; unfold used_pixels.
  rewrite map_update.
  rewrite (py_sum_update _ kv (py_sum r)) by (now rewrite nth_error_map, Hr).
  rewrite (py_sum_update r ku 0 1 Hc); lia.
Qed.

(** ** The sampling loops *)

Lemma nth_error_update {A} (l : list A) (k j : nat) (a : A) :
  nth_error (list_update l k a) j =
  if Nat.eqb j k then option_map (fun _ => a) (nth_error l k)
  else nth_error l j.
Proof.
  revert k j; induction l as [| b l IH]; intros [| k] [| j]; simpl; auto.
  now destruct (Nat.eqb j k).
Qed.

Lemma keeps_refl (g : grid) : keeps g g.
Proof. now intros kv ku H. Qed.

Lemma keeps_trans (g1 g2 g3 : grid) : keeps g1 g2 -> keeps g2 g3 -> keeps g1 g3.
Proof. intros H12 H23 kv ku H; auto. Qed.

(** Occupying a free cell keeps every occupied cell. *)
Lemma keeps_mark (g : grid) (kv ku : nat) (r : list Z) :
  nth_error g kv = Some r -> nth_error r ku = Some 0 ->
  keeps g (list_update g kv (list_update r ku 1)).
Proof.
  intros Hr Hc i j; unfold cell.
  rewrite nth_error_update.
  destruct (Nat.eqb i kv) eqn:Ei; [| auto].
  apply Nat.eqb_eq in Ei; subst i; rewrite Hr; cbn [option_map].
  rewrite nth_error_update.
  destruct (Nat.eqb j ku) eqn:Ej; [| auto].
  apply Nat.eqb_eq in Ej; subst j; rewrite Hc; discriminate.
Qed.

Lemma counted_refl (g : grid) (n : Z) : counted g n (g, n).
Proof.
  unfold counted; simpl; repeat split; auto using keeps_refl; lia.
Qed.

Lemma sample_cell_counted (res : Z) (uv : list Vector) (u v : Z)
  (g0 : grid) (n0 : Z) (st st' : grid * Z) :
  counted g0 n0 st -> sample_cell res uv u v st = Ok st' -> counted g0 n0 st'.
Proof.
  intros (Hsum & Hle & Hbin & Hkeep) H.
  destruct st as [g n]; unfold sample_cell in H.
  apply bind_ok in H as (px & _ & H).
  apply bind_ok in H as (py & _ & H).
  apply bind_ok in H as ([|] & _ & H);
    [| injection H as <-; repeat split; auto].
  apply bind_ok in H as (r & Hr & H).
  apply bind_ok in H as (c & Hc & H).
  destruct (c =? 0) eqn:Ec;
    [| injection H as <-; repeat split; auto].
  apply Z.eqb_eq in Ec; subst c.
  apply bind_ok in H as (r' & Hr' & H).
  apply bind_ok in H as (g' & Hg' & H).
  injection H as <-.
  apply getitem_ok in Hr as (kv & Hkv & Hnr).
  apply getitem_ok in Hc as (ku & Hku & Hnc).
  apply setitem_ok in Hr' as (ku' & Hku' & ->).
  apply setitem_ok in Hg' as (kv' & Hkv' & ->).
  assert (ku' = ku) by congruence; assert (kv' = kv) by congruence; subst.
  unfold counted; cbn [fst snd] in *; repeat split.
  - rewrite (used_pixels_mark g kv ku r Hnr Hnc); lia.
  - lia.
  - intros Hb; specialize (Hbin Hb).
    apply Forall_update; [exact Hbin |].
    apply Forall_update; [| now right].
    unfold binary in Hbin; rewrite Forall_forall in Hbin.
    apply Hbin; eapply nth_error_In; eauto.
  - eapply keeps_trans; [exact Hkeep | now apply keeps_mark].
Qed.

Lemma sample_face_counted (res : Z) (g g' : grid) (f : face) (n : Z) :
  sample_face res g f = Ok (g', n) -> counted g 0 (g', n).
Proof.
  unfold sample_face; intros H.
  apply bind_ok in H as (min_u & _ & H).
  apply bind_ok in H as (max_u & _ & H).
  apply bind_ok in H as (min_v & _ & H).
  apply bind_ok in H as (max_v & _ & H).
  revert H; apply for_each_inv; [| apply counted_refl].
  intros u st st' Hst; apply for_each_inv; [| exact Hst].
  intros v st1 st2; apply sample_cell_counted.
Qed.

(** ** Faces that occupy nothing *)

Lemma Qmin_lower (b a1 a2 : Q) : (b <= a1 -> b <= a2 -> b <= Qmin a1 a2)%Q.
Proof. intros H1 H2; unfold Qmin; now destruct (Qltb a2 a1). Qed.

Lemma fold_Qmin_lower (b : Q) (l : list Q) (a : Q) :
  (b <= a)%Q -> Forall (fun q => b <= q)%Q l -> (b <= fold_left Qmin l a)%Q.
Proof.
  intros Ha Hl; revert a Ha; induction Hl as [| q l Hq _ IH]; intros a Ha;
    simpl; auto using Qmin_lower.
Qed.

Lemma py_min_lower (b : Q) (l : list Q) (m : Q) :
  Forall (fun q => b <= q)%Q l -> py_min l = Ok m -> (b <= m)%Q.
Proof.
  intros Hl; destruct l as [| a l]; simpl; [discriminate |].
  intros [= <-]; inversion Hl; subst; now apply fold_Qmin_lower.
Qed.

(** [int(q)] is at least [r] when [q] is. *)
Lemma py_int_lower (r : Z) (q : Q) : (inject_Z r <= q)%Q -> r <= py_int q.
Proof.
  unfold py_int, Qle; destruct q as [n d]; simpl; intros H.
  apply Z.quot_le_lower_bound; lia.
Qed.





(** ** The rasterizer returns *)

Lemma point_in_triangle_total (p : Vector) (uv : list Vector) :
  (3 <= List.length uv)%nat -> exists b, point_in_triangle_uv p uv = Ok b.
Proof.
  intros Hlen; unfold point_in_triangle_uv.
  destruct (getitem_total uv 0) as (t0 & ->); [lia |].
  destruct (getitem_total uv 1) as (t1 & ->); [lia |].
  destruct (getitem_total uv 2) as (t2 & ->); [lia |].
  cbn [bind]; eauto.
Qed.

Lemma sample_cell_total (res : Z) (uv : list Vector) (u v : Z)
  (st : grid * Z) :
  1 <= res -> (3 <= List.length uv)%nat ->
  0 <= u < res -> 0 <= v < res ->
  square res (fst st) ->
  exists st', sample_cell res uv u v st = Ok st' /\ square res (fst st').
Proof.
  intros Hres Huv Hu Hv (Hrows & Hcols); destruct st as [g n].
  cbn [fst] in *; unfold sample_cell.
  rewrite !truediv_nonzero by lia; cbn [bind].
  destruct (point_in_triangle_total
              (mkVector (inject_Z u / inject_Z res)
                        (inject_Z v / inject_Z res)) uv Huv) as (b & ->).
  cbn [bind]; destruct b; [| exists (g, n); repeat split; auto].
  destruct (getitem_total g v) as (r & Hr); [lia |].
  rewrite Hr; cbn [bind].
  apply getitem_ok in Hr as (kv & _ & Hkv).
  assert (Hlen : List.length r = Z.to_nat res).
  { rewrite Forall_forall in Hcols; apply Hcols.
    eapply nth_error_In; exact Hkv. }
  destruct (getitem_total r u) as (c & ->); [lia |].
  cbn [bind]; destruct (c =? 0); [| exists (g, n); repeat split; auto].
  rewrite (setitem_total r u) by lia; cbn [bind].
  rewrite (setitem_total g v) by lia; cbn [bind].
  eexists; split; [reflexivity |]; cbn [fst]; split.
  - now rewrite length_update.
  - apply Forall_update; [exact Hcols | now rewrite length_update].
Qed.

Lemma py_int_nonneg (q : Q) : (0 <= q)%Q -> 0 <= py_int q.
Proof. intros H; now apply (py_int_lower 0). Qed.

Lemma sample_face_total (res : Z) (g : grid) (f : face) :
  1 <= res -> placed f -> square res g ->
  exists g' n, sample_face res g f = Ok (g', n) /\ square res g'.
Proof.
  intros Hres (Hlen & Hpos) Hsq; unfold sample_face.
  destruct (loops_uv f) as [| p ps] eqn:Euv; [simpl in Hlen; lia |].
  cbn [py_min py_max map bind].
  assert (Hres0 : (0 <= inject_Z res)%Q) by (unfold Qle; simpl; lia).
  assert (Hu : 0 <= py_int (fold_left Qmin (map x ps) (x p) * inject_Z res)).
  { apply py_int_nonneg, Qmult_le_0_compat; [| exact Hres0].
    apply (py_min_lower 0 (map x (p :: ps))); [| reflexivity].
    apply Forall_map; eapply Forall_impl; [| exact Hpos]; now intros q []. }
  assert (Hv : 0 <= py_int (fold_left Qmin (map y ps) (y p) * inject_Z res)).
  { apply py_int_nonneg, Qmult_le_0_compat; [| exact Hres0].
    apply (py_min_lower 0 (map y (p :: ps))); [| reflexivity].
    apply Forall_map; eapply Forall_impl; [| exact Hpos]; now intros q []. }
  destruct (for_each_total (fun st : grid * Z => square res (fst st))
              (fun u =>
                 for_each (sample_cell res (p :: ps) u)
                   (py_range
                      (py_int (fold_left Qmin (map y ps) (y p) * inject_Z res))
                      (Z.min
                         (py_int (fold_left Qmax (map y ps) (y p)
                                  * inject_Z res) + 1) res)))
              (py_range
                 (py_int (fold_left Qmin (map x ps) (x p) * inject_Z res))
                 (Z.min
                    (py_int (fold_left Qmax (map x ps) (x p) * inject_Z res)
                     + 1) res))
              (g, 0) Hsq) as ([g' n] & Hrun & Hsq').
  - intros u st Hin Hst; apply py_range_bounds in Hin.
    apply for_each_total; [exact Hst |].
    intros v st1 Hinv Hst1; apply py_range_bounds in Hinv.
    apply sample_cell_total; auto; lia.
  - now exists g', n.
Qed.

Lemma truediv_positive (a d : Q) : (0 < d)%Q -> py_truediv a d = Ok (a / d)%Q.
Proof.
  intros Hd; unfold py_truediv.
  destruct (Qeq_bool d 0) eqn:E; [| reflexivity].
  apply Qeq_bool_iff in E; rewrite E in Hd.
  now apply Qlt_irrefl in Hd.
Qed.

Lemma ratio_positive (a b : Z) : 1 <= a -> 1 <= b -> (0 < inject_Z a / inject_Z b)%Q.
Proof.
  intros Ha Hb; apply Qmult_lt_0_compat; [| apply Qinv_lt_0_compat];
    unfold Qlt; simpl; lia.
Qed.

Section Facts.

Variable pow_half : Q -> Q.
Variables np_mean np_median np_std : list Q -> Q.

Lemma faces_res0 (w h : Z) (fs : list face) (st : grid * list Q) :
  Forall (fun f => loops_uv f <> []) fs ->
  for_each (face_step pow_half 0 w h) fs st = Ok st.
Proof.
  intros Hfs; apply for_each_id; intros f Hf.
  rewrite Forall_forall in Hfs.
  destruct st as [g sizes]; unfold face_step.
  rewrite sample_face_res0 by auto. reflexivity.
Qed.

(** C10. A texture whose larger side is at least 2 gives a grid of side
    at least 1, so the number of cells is not zero and the division that
    computes the utilization is defined whatever the count of used
    pixels; a texture whose larger side is 1 gives a grid of side 0 and
    the utilization division raises [ZeroDivisionError]. *)
Theorem grid_resolution_division
  (obj : object) (img : image) (w h : Z) :
  uv_active obj = true ->
  find_image obj = Some img ->
  size img = (w, h) ->
  Forall (fun f => loops_uv f <> []) (faces obj) ->
  (2 <= Z.max w h ->
     let res := grid_resolution w h in
     1 <= res /\ res * res <> 0 /\
     forall used : Z,
       py_truediv (inject_Z used) (inject_Z (res * res))
       = Ok (inject_Z used / inject_Z (res * res))%Q)
  /\
  (Z.max w h = 1 ->
     grid_resolution w h = 0 /\
     calculate_texel_sizes_and_utilization pow_half obj
     = Raise ZeroDivisionError).
Proof.
  intros Huv Himg Hsize Hfaces; split.
  - intros Hmax res.
    assert (Hres : 1 <= res).
    { unfold res; rewrite grid_resolution_quot.
      apply Z.quot_le_lower_bound; lia. }
    assert (Hsq : res * res <> 0) by nia.
    repeat split; auto.
    intros used; now apply truediv_nonzero.
  - intros Hmax.
    assert (Hres : grid_resolution w h = 0).
    { rewrite grid_resolution_quot, Hmax; reflexivity. }
    split; [exact Hres |].
    unfold calculate_texel_sizes_and_utilization.
    rewrite Huv, Himg, Hsize; simpl.
    rewrite Hres; unfold run_faces.
    rewrite faces_res0 by exact Hfaces.
    reflexivity.
Qed.

Lemma truediv_ok (a b q : Q) : py_truediv a b = Ok q -> q = (a / b)%Q.
Proof.
  unfold py_truediv; destruct (Qeq_bool b 0); [discriminate |].
  now intros [= <-].
Qed.

(** One face: its count is the number of cells it newly occupies, and an
    entry is appended exactly when that count is positive. *)
Lemma face_step_spec (res w h : Z) (f : face) (g g' : grid)
  (sizes sizes' : list Q) :
  binary g ->
  face_step pow_half res w h f (g, sizes) = Ok (g', sizes') ->
  let n := occupied g' - occupied g in
  binary g' /\ keeps g g' /\ 0 <= n /\
  sizes' =
    sizes ++
    (if 0 <? n then
       [pow_half (calc_area f /
                  (inject_Z n * (inject_Z w / inject_Z res)
                              * (inject_Z h / inject_Z res)))%Q]
     else []).
Proof.
  intros Hbin H n; unfold face_step in H.
  apply bind_ok in H as ((g1 & pc) & Hface & H).
  apply sample_face_counted in Hface as (Hsum & Hle & Hb & Hkeep).
  cbn [fst snd] in *; specialize (Hb Hbin).
  assert (Hpc : pc = occupied g1 - occupied g).
  { rewrite <- !used_pixels_occupied by assumption. lia. }
  destruct (0 <? pc) eqn:En.
  - apply bind_ok in H as (cw & Hcw & H).
    apply bind_ok in H as (ch & Hch & H).
    apply bind_ok in H as (q & Hq & H).
    apply truediv_ok in Hcw, Hch, Hq; subst cw ch q.
    injection H as <- <-; fold n in Hpc; rewrite <- Hpc, En.
    repeat split; auto.
  - injection H as <- <-; fold n in Hpc; rewrite <- Hpc, En.
    rewrite app_nil_r; repeat split; auto.
Qed.

Lemma run_faces_binary (res w h : Z) (fs : list face) (g : grid)
  (sizes : list Q) :
  run_faces pow_half res w h fs = Ok (g, sizes) -> binary g.
Proof.
  unfold run_faces; intros H.
  apply (for_each_inv (fun st => binary (fst st))
           (face_step pow_half res w h)) in H;
    [exact H | | apply binary_new_grid].
  intros f [g0 s0] [g1 s1] Hb Hstep.
  now apply face_step_spec in Hstep as (Hb1 & _).
Qed.

Lemma face_step_total (res w h : Z) (f : face) (st : grid * list Q) :
  1 <= res -> 1 <= w -> 1 <= h -> placed f -> square res (fst st) ->
  exists st', face_step pow_half res w h f st = Ok st' /\ square res (fst st').
Proof.
  intros Hres Hw Hh Hf Hsq; destruct st as [g sizes]; unfold face_step.
  destruct (sample_face_total res g f Hres Hf Hsq) as (g' & n & -> & Hsq').
  cbn [bind]; destruct (0 <? n) eqn:En;
    [| eexists; split; [reflexivity | exact Hsq']].
  apply Z.ltb_lt in En.
  rewrite !truediv_nonzero by lia; cbn [bind].
  rewrite truediv_positive; [eexists; split; [reflexivity | exact Hsq'] |].
  apply Qmult_lt_0_compat;
    [apply Qmult_lt_0_compat; [unfold Qlt; simpl; lia |] |];
    now apply ratio_positive.
Qed.

Lemma run_faces_total (res w h : Z) (fs : list face) :
  1 <= res -> 1 <= w -> 1 <= h -> Forall placed fs ->
  exists g sizes, run_faces pow_half res w h fs = Ok (g, sizes).
Proof.
  intros Hres Hw Hh Hfs; unfold run_faces.
  destruct (for_each_total (fun st : grid * list Q => square res (fst st))
              (face_step pow_half res w h) fs (new_grid res, []))
    as ([g sizes] & Hrun & _).
  - apply new_grid_square.
  - intros f st Hin Hst; rewrite Forall_forall in Hfs.
    apply face_step_total; auto.
  - now exists g, sizes.
Qed.

(** C5. The grid is square, of side the integer part of half the larger
    side of the texture, and starts empty. On a mesh whose faces have at
    least three loops and no negative UV coordinate, with a texture of
    positive sides whose larger side is at least 2, the rasterizer
    returns. Whenever it returns: for the face at each position [k] of
    the mesh, every cell occupied before it stays occupied, and with [n]
    the number of cells that the face occupies and no earlier face had
    (an occupied cell is never counted again), an entry is appended
    exactly when [n > 0], and it is
    [pow_half (face_area / (n * (width / side) * (height / side)))];
    the utilization is the number of distinct occupied cells divided by
    the number of cells of the grid. *)
Theorem texel_sizes_and_utilization (obj : object) (img : image) (w h : Z) :
  uv_active obj = true ->
  find_image obj = Some img ->
  size img = (w, h) ->
  let res := Z.quot (Z.max w h) 2 in
  (List.length (new_grid res) = Z.to_nat res /\
   Forall (fun r => List.length r = Z.to_nat res) (new_grid res) /\
   occupied (new_grid res) = 0) /\
  (2 <= Z.max w h -> 1 <= w -> 1 <= h -> Forall placed (faces obj) ->
   exists sizes utilization,
     calculate_texel_sizes_and_utilization pow_half obj
     = Ok (Tuple3 sizes utilization w)) /\
  (forall (sizes : list Q) (utilization : Q) (width : Z),
     calculate_texel_sizes_and_utilization pow_half obj
     = Ok (Tuple3 sizes utilization width) ->
     (forall (k : nat) (f : face),
        nth_error (faces obj) k = Some f ->
        exists g_before sizes_before g_after sizes_after,
          run_faces pow_half res w h (firstn k (faces obj))
          = Ok (g_before, sizes_before) /\
          run_faces pow_half res w h (firstn (S k) (faces obj))
          = Ok (g_after, sizes_after) /\
          let n := occupied g_after - occupied g_before in
          keeps g_before g_after /\ 0 <= n /\
          sizes_after =
            sizes_before ++
            (if 0 <? n then
               [pow_half (calc_area f /
                          (inject_Z n * (inject_Z w / inject_Z res)
                                      * (inject_Z h / inject_Z res)))%Q]
             else [])) /\
     (exists g_final,
        run_faces pow_half res w h (faces obj) = Ok (g_final, sizes) /\
        utilization
        = (inject_Z (occupied g_final) / inject_Z (res * res))%Q /\
        width = w)).
Proof.
  intros Huv Himg Hsize res.
  assert (Hcalc : calculate_texel_sizes_and_utilization pow_half obj
                  = ('(g', texel_sizes) <- run_faces pow_half res w h (faces obj) ;;
                     texture_utilization <-
                       py_truediv (inject_Z (used_pixels g'))
                                  (inject_Z (res * res)) ;;
                     Ok (Tuple3 texel_sizes texture_utilization w))).
  { unfold calculate_texel_sizes_and_utilization.
    rewrite Huv, Himg, Hsize; cbn [negb].
    now rewrite grid_resolution_quot. }
  rewrite Hcalc; clear Hcalc.
  split; [| split].
  - destruct (new_grid_square res) as (H1 & H2).
    repeat split; auto using occupied_new_grid.
  - intros Hmax Hw Hh Hfaces.
    assert (Hres : 1 <= res)
      by (apply Z.quot_le_lower_bound; lia).
    destruct (run_faces_total res w h (faces obj) Hres Hw Hh Hfaces)
      as (g & sizes & ->).
    cbn [bind]; rewrite truediv_nonzero by nia; cbn [bind]; eauto.
  - intros sizes utilization width H.
    apply bind_ok in H as ((g_final & sizes1) & Hrun & H).
    apply bind_ok in H as (u & Hu & H).
    injection H as -> -> <-.
    pose proof (run_faces_binary _ _ _ _ _ _ Hrun) as Hfinal.
    split.
    + intros k f Hk.
      pose proof Hrun as Hrun'; unfold run_faces in Hrun'.
      rewrite (split_at _ _ _ Hk) in Hrun'.
      apply for_each_prefix in Hrun' as ((g0 & s0) & Hpre & Hrest).
      cbn [for_each] in Hrest.
      apply bind_ok in Hrest as ((g1 & s1) & Hstep & _).
      exists g0, s0, g1, s1.
      assert (Hb0 : binary g0) by (eapply run_faces_binary; exact Hpre).
      split; [exact Hpre |]; split.
      * unfold run_faces; rewrite (firstn_snoc _ _ _ Hk), for_each_app.
        unfold run_faces in Hpre; rewrite Hpre; cbn [bind for_each].
        now rewrite Hstep.
      * now apply face_step_spec in Hstep as (_ & Hkeep & Hn & Hs).
    + exists g_final; repeat split; auto.
      apply truediv_ok in Hu; rewrite Hu.
      now rewrite used_pixels_occupied.
Qed.


(** C1 (the code departs from the claim). Without an active UV layer, or
    without a texture, [calculate_texel_sizes_and_utilization] returns a
    tuple of two values, the unpacking into three names in
    [calculate_statistics] raises [ValueError], and [process_glb_file]
    lets it through: no [None] is returned. *)
Theorem statistics_without_uv_or_texture (obj : object) :
  uv_active obj = false \/ find_image obj = None ->
  calculate_texel_sizes_and_utilization pow_half obj = Ok (Tuple2 [] 0) /\
  calculate_statistics pow_half np_mean np_median np_std obj
  = Raise ValueError /\
  forall objects : list object,
    first_mesh objects = Some obj ->
    process_glb_file pow_half np_mean np_median np_std true (Ok objects)
    = Raise ValueError.
Proof.
  intros H.
  assert (Ht : calculate_texel_sizes_and_utilization pow_half obj
               = Ok (Tuple2 [] 0)).
  { unfold calculate_texel_sizes_and_utilization.
    destruct (uv_active obj); [| reflexivity].
    destruct H as [H | H]; [discriminate | now rewrite H]. }
  assert (Hs : calculate_statistics pow_half np_mean np_median np_std obj
               = Raise ValueError).
  { unfold calculate_statistics; now rewrite Ht. }
  repeat split; auto.
  intros objects Hfirst; unfold process_glb_file; cbn [negb].
  now rewrite Hfirst, Hs.
Qed.

End Facts.

Lemma grid_resolution_division_witness :
  (2 <= Z.max 8 4 /\ 1 <= grid_resolution 8 4) /\
  (Z.max 1 1 = 1 /\
   calculate_texel_sizes_and_utilization Samples.rational_root Samples.tiny_texture_mesh
   = Raise ZeroDivisionError).
Proof.
  split.
  - split; [lia |].
    apply (grid_resolution_division Samples.rational_root
             (Samples.mesh true (Samples.textured 8 4) [Samples.half_square])
             (mkImage (8, 4)) 8 4); try reflexivity; [| lia].
    repeat constructor; discriminate.
  - split; [reflexivity |].
    apply (grid_resolution_division Samples.rational_root Samples.tiny_texture_mesh
             (mkImage (1, 1)) 1 1); try reflexivity.
    repeat constructor; discriminate.
Defined.

Lemma statistics_without_uv_or_texture_witness :
  (uv_active Samples.no_uv_mesh = false \/
   find_image Samples.no_uv_mesh = None) /\
  calculate_statistics Samples.rational_root Samples.mean Samples.mean Samples.mean
    Samples.no_uv_mesh
  = Raise ValueError.
Proof.
  split; [left; reflexivity |].
  apply (statistics_without_uv_or_texture Samples.rational_root
           Samples.mean Samples.mean Samples.mean Samples.no_uv_mesh).
  left; reflexivity.
Defined.

Lemma texel_sizes_and_utilization_witness :
  Forall placed (faces Samples.twice_mesh) /\
  (exists sizes utilization,
     calculate_texel_sizes_and_utilization Samples.rational_root
       Samples.twice_mesh
     = Ok (Tuple3 sizes utilization 4)) /\
  exists g_final,
    run_faces Samples.rational_root 2 4 4 (faces Samples.twice_mesh)
    = Ok (g_final, [16 # 64]%Q) /\
    (4 # 4)%Q = (inject_Z (occupied g_final) / inject_Z (2 * 2))%Q.
Proof.
  assert (Hplaced : Forall placed (faces Samples.twice_mesh)).
  { repeat constructor; simpl; try lia; unfold Qle; simpl; lia. }
  destruct (texel_sizes_and_utilization Samples.rational_root
              Samples.twice_mesh (mkImage (4, 4)) 4 4
              eq_refl eq_refl eq_refl) as (_ & Htotal & Hreturned).
  split; [exact Hplaced |]; split.
  - apply Htotal; [simpl; lia | lia | lia | exact Hplaced].
  - destruct (Hreturned [16 # 64]%Q (4 # 4)%Q 4) as (_ & g & Hrun & Hu & _);
      [vm_compute; reflexivity |].
    now exists g.
Defined.



(** The lower bound of the sampled range is not clipped at 0: a face
    whose UV coordinates are all negative reaches the grid through
    Python's negative indices. *)
Lemma negative_face_is_counted :
  exists g, sample_face 4 (new_grid 4) Samples.negative_face = Ok (g, 6).
Proof. eexists; vm_compute; reflexivity. Qed.

End RasterFacts.

(* ================================================================== *)
(** * The traversal *)
(* ================================================================== *)

Module TraversalFacts.

Import Traversal.

(** ** The pattern *)











Example parsed_2_3_4_5 :
  parsed "tiles/2/3/4/5.glb" = Some (2, 3, 4, 5) /\
  parsed "tiles/2/3/x/5.glb" = None /\
  parsed "tiles/2/3/4.glb" = None.
Proof. repeat split. Qed.





(** ** The implicit scan *)



Section Walk.

Variable read_json : string -> result document.
Variable os_walk : string -> list (string * list string).
Variable path_join : string -> string -> string.
Variable path_dirname : string -> string.
Variable path_relpath : string -> string -> string.





(** ** Numbering *)

Lemma ids_from_snoc (c : Z) (n : nat) :
  ids_from c (S n) = ids_from c n ++ [c + 1 + Z.of_nat n].
Proof. unfold ids_from; now rewrite seq_S, map_app. Qed.

Lemma ids_from_NoDup (c : Z) (n : nat) : NoDup (ids_from c n).
Proof.
  unfold ids_from; apply Injective_map_NoDup; [| apply seq_NoDup].
  intros i j H; lia.
Qed.

Lemma ids_from_range (c : Z) (n : nat) (i : Z) :
  In i (ids_from c n) -> c < i <= c + Z.of_nat n.
Proof.
  unfold ids_from; rewrite in_map_iff; intros (k & <- & Hk).
  apply in_seq in Hk; lia.
Qed.

(** A descriptor that takes the next identifier keeps the numbering. *)
Lemma numbered_emit (c0 : Z) (st : state) (d : descriptor) :
  numbered c0 st ->
  tile_id d = fst (get_unique_tile_id st) ->
  numbered c0 (append d (snd (get_unique_tile_id st))).
Proof.
  intros (Hc & Hids) Hd; unfold numbered, append; simpl in *.
  rewrite length_app, map_app, Hids; simpl.
  rewrite Nat.add_1_r, ids_from_snoc, Hd, Hc; split; [lia |].
  do 2 f_equal; lia.
Qed.

Lemma scan_file_numbered (c0 : Z) base parent sse (root file : string)
  (st st' : option Z * state) :
  numbered c0 (snd st) ->
  scan_file path_join path_relpath base parent sse root file st = Ok st' ->
  numbered c0 (snd st').
Proof.
  intros Hn H; unfold scan_file in H.
  destruct (endswith file ".glb"); [| now injection H as <-].
  destruct (pattern_match _) as [[[[g1 g2] g3] g4] |];
    [| now injection H as <-].
  apply bind_ok in H as (level & _ & H).
  apply bind_ok in H as (x & _ & H).
  apply bind_ok in H as (y & _ & H).
  apply bind_ok in H as (z & _ & H).
  cbn [get_unique_tile_id] in H; injection H as <-; cbn [snd].
  now apply (numbered_emit c0 (snd st)).
Qed.

Lemma implicit_scan_numbered (c0 : Z) base parent sse
  (st st' : option Z * state) :
  numbered c0 (snd st) ->
  implicit_scan os_walk path_join path_relpath base parent sse st = Ok st' ->
  numbered c0 (snd st').
Proof.
  unfold implicit_scan.
  apply (for_each_inv (fun s => numbered c0 (snd s))).
  intros [root files] st1 st2.
  apply (for_each_inv (fun s => numbered c0 (snd s))).
  intros file st3 st4; apply scan_file_numbered.
Qed.

Local Notation "'process'" :=
  (process_tile_structure read_json os_walk path_join path_dirname
     path_relpath).

(** The traversal keeps the numbering. *)
Lemma process_numbered (c0 : Z) (depth : nat) :
  forall (t : tile) (parent : option Z) (lod : Z) (base : string)
         (st st' : state),
    numbered c0 st ->
    process depth t parent lod base st = Ok st' ->
    numbered c0 st'.
Proof.
  induction depth as [| depth IH]; intros t parent lod base st st' Hn H;
    [discriminate |].
  cbn [process_tile_structure] in H.
  apply bind_ok in H as ([tid st1] & Hown & H).
  assert (Hn1 : numbered c0 st1).
  { destruct (is_implicit _).
    - now apply (implicit_scan_numbered c0) in Hown.
    - destruct (py_or _ _) as [u |]; [| now injection Hown as _ <-].
      destruct (negb (truthy (Some u))); [now injection Hown as _ <- |].
      destruct (endswith u ".json").
      + apply bind_ok in Hown as (doc & _ & Hown).
        apply bind_ok in Hown as (st2 & Hrec & Hown).
        injection Hown as _ <-; eauto.
      + destruct (endswith u ".glb"); [| now injection Hown as _ <-].
        cbn [get_unique_tile_id] in Hown; injection Hown as _ <-.
        now apply (numbered_emit c0 st). }
  destruct (children t) as [cs |]; [| now injection H as <-].
  revert H; apply for_each_inv; [| exact Hn1].
  intros child st2 st3 Hn2 Hc.
  destruct tid as [id |]; [eauto | discriminate].
Qed.

(** C9. The identifiers of the descriptors that [load_tileset] returns
    are pairwise distinct: each call of [get_unique_tile_id] returns a
    number above the counter it found and leaves the counter there, so
    the identifiers given in one run are those from [counter + 1] to the
    final value of the counter, each once. *)
Theorem tile_ids_distinct (depth : nat) (counter : Z) (tileset_path : string)
  (tiles : list descriptor) (counter' : Z) :
  load_tileset read_json os_walk path_join path_dirname path_relpath
    depth counter tileset_path
  = Ok (tiles, counter') ->
  NoDup (map tile_id tiles) /\
  (forall d, In d tiles -> counter < tile_id d <= counter') /\
  counter' = counter + Z.of_nat (List.length tiles) /\
  (forall st : state,
     tile_id_counter st < fst (get_unique_tile_id st) /\
     tile_id_counter (snd (get_unique_tile_id st))
     = fst (get_unique_tile_id st)).
Proof.
  unfold load_tileset; intros H.
  apply bind_ok in H as (doc & _ & H).
  apply bind_ok in H as (st & Hrun & H).
  injection H as <- <-.
  apply (process_numbered counter) in Hrun as (Hc & Hids);
    [| split; [simpl; lia | reflexivity]].
  pose proof (py_sort_by_perm lod_level (tiles_to_process st)) as Hperm.
  repeat split.
  - eapply Permutation_NoDup; [apply Permutation_map; exact Hperm |].
    rewrite Hids; apply ids_from_NoDup.
  - apply (in_map tile_id) in H.
    eapply Permutation_in in H;
      [| apply Permutation_map, Permutation_sym; exact Hperm].
    rewrite Hids in H; apply ids_from_range in H; lia.
  - apply (in_map tile_id) in H.
    eapply Permutation_in in H;
      [| apply Permutation_map, Permutation_sym; exact Hperm].
    rewrite Hids in H; apply ids_from_range in H; lia.
  - rewrite Hc; f_equal; f_equal; now apply Permutation_length.
  - simpl; lia.
Qed.

Lemma height_child (c : tile) (l : list tile) :
  In c l -> (height c <= fold_right (fun c m => Nat.max (height c) m) O l)%nat.
Proof.
  induction l as [| c' l IH]; cbn [In fold_right]; [contradiction |].
  intros [-> | H]; [lia | specialize (IH H); lia].
Qed.

(** On a tree all of whose tiles name a mesh asset, a stack deeper than
    the tree is enough for the traversal to return. *)
Lemma process_explicit (depth : nat) :
  forall (t : tile) (parent : option Z) (lod : Z) (base : string) (st : state),
    explicit t = true -> (height t <= depth)%nat ->
    exists st', process depth t parent lod base st = Ok st'.
Proof.
  induction depth as [| depth IH]; intros [c e cs] parent lod base st He Hh;
    [cbn [height] in Hh; lia |].
  cbn [explicit] in He; apply andb_prop in He as (Hemit & Hcs).
  unfold emits in Hemit; cbn [tile_content] in Hemit.
  cbn [process_tile_structure tile_content geometricError children].
  set (tc := match c with Some c => c | None => empty_content end) in *.
  apply andb_prop in Hemit as (Himp & Hurl).
  apply negb_true_iff in Himp; rewrite Himp.
  destruct (py_or (uri tc) (url tc)) as [u |]; [| discriminate].
  apply andb_prop in Hurl as (Hurl & Hglb).
  apply andb_prop in Hurl as (Htruthy & Hjson).
  apply negb_true_iff in Hjson.
  rewrite Htruthy, Hjson, Hglb; cbn [negb get_unique_tile_id bind].
  destruct cs as [l |]; [| eauto].
  destruct (for_each_total (fun _ : state => True)
              (fun child st2 =>
                 process depth child (Some (tile_id_counter st + 1))
                   (lod + 1) base st2)
              l
              (append {| lod_level := lod;
                         tile_id := tile_id_counter st + 1;
                         parent_id := parent;
                         tile_url := u;
                         screen_space_error := e;
                         base_path := base;
                         xyz := None |}
                      (mkState (tile_id_counter st + 1)
                               (tiles_to_process st))) I)
    as (st' & Hrun & _); [| eauto].
  intros child st2 Hin _.
  destruct (IH child (Some (tile_id_counter st + 1)) (lod + 1) base st2)
    as (st3 & H3); [| | eauto].
  - rewrite forallb_forall in Hcs; now apply Hcs.
  - cbn [height] in Hh; pose proof (height_child child l Hin); lia.
Qed.

(** C7. When the root of the document is a tree all of whose tiles name
    a mesh asset and the stack is deeper than the tree, [load_tileset]
    returns. Whenever it returns, the list is in ascending order of
    [lod_level], it holds the descriptors that the traversal discovered,
    and the descriptors of one level are in the order of discovery. *)
Theorem load_tileset_sorted (depth : nat) (counter : Z) (tileset_path : string) :
  (forall (tileset_data : document) (t : tile),
     read_json tileset_path = Ok tileset_data ->
     root tileset_data = Some t ->
     explicit t = true -> (height t <= depth)%nat ->
     exists tiles counter',
       load_tileset read_json os_walk path_join path_dirname path_relpath
         depth counter tileset_path
       = Ok (tiles, counter')) /\
  (forall (tiles : list descriptor) (counter' : Z),
     load_tileset read_json os_walk path_join path_dirname path_relpath
       depth counter tileset_path
     = Ok (tiles, counter') ->
     StronglySorted (key_le lod_level) tiles /\
     exists (tileset_data : document) (st : state),
       read_json tileset_path = Ok tileset_data /\
       process depth
         (match root tileset_data with Some r => r | None => empty_tile end)
         None 0 (path_dirname tileset_path) (mkState counter [])
       = Ok st /\
       Permutation (tiles_to_process st) tiles /\
       forall level : Z,
         filter (fun d => lod_level d =? level) tiles
         = filter (fun d => lod_level d =? level) (tiles_to_process st)).
Proof.
  split.
  - intros doc t Hdoc Hroot He Hh; unfold load_tileset.
    rewrite Hdoc; cbn [bind]; rewrite Hroot.
    destruct (process_explicit depth t None 0 (path_dirname tileset_path)
                (mkState counter []) He Hh) as (st & ->).
    cbn [bind]; eauto.
  - unfold load_tileset; intros tiles counter' H.
    apply bind_ok in H as (doc & Hdoc & H).
    apply bind_ok in H as (st & Hrun & H).
    injection H as <- <-.
    split; [apply py_sort_by_sorted |].
    exists doc, st; repeat split; auto using py_sort_by_perm.
    intros level; apply py_sort_by_stable.
Qed.

(** C2 (the code departs from the claim). A tile that has a child and
    emits no descriptor of its own, because it has no content reference
    or because its content is a nested tileset document whose traversal
    returned, reads the local variable [tile_id] that was never bound:
    the call raises [UnboundLocalError] and no child is visited. *)
Theorem children_without_descriptor (depth : nat) (t : tile)
  (parent : option Z) (lod : Z) (base : string) (st : state)
  (child : tile) (cs : list tile) :
  children t = Some (child :: cs) ->
  let c := match tile_content t with Some c => c | None => empty_content end in
  (truthy (py_or (uri c) (url c)) = false ->
   process (S depth) t parent lod base st = Raise UnboundLocalError) /\
  (forall (u : string) (nested : document) (st' : state),
     is_implicit (uri c) = false ->
     py_or (uri c) (url c) = Some u ->
     truthy (Some u) = true ->
     endswith u ".json" = true ->
     read_json (path_join base u) = Ok nested ->
     process depth
       (match root nested with Some r => r | None => empty_tile end)
       parent lod (path_dirname (path_join base u)) st
     = Ok st' ->
     process (S depth) t parent lod base st = Raise UnboundLocalError).
Proof.
  intros Hcs c; split.
  - intros Hfalsy.
    assert (Himp : is_implicit (uri c) = false).
    { unfold is_implicit; destruct (uri c) as [u |] eqn:Eu; [| reflexivity].
      unfold py_or in Hfalsy; rewrite ?Eu in Hfalsy.
      destruct (truthy (Some u)) eqn:Et; [congruence | reflexivity]. }
    cbn [process_tile_structure]; fold c.
    rewrite Himp, Hcs.
    destruct (py_or (uri c) (url c)) as [u |]; [| reflexivity].
    now rewrite Hfalsy.
  - intros u nested st' Himp Hu Htruthy Hjson Hread Hrec.
    cbn [process_tile_structure]; fold c.
    rewrite Himp, Hu, Htruthy, Hjson, Hread; cbn [negb bind].
    now rewrite Hrec, Hcs.
Qed.

End Walk.

Lemma tile_ids_distinct_witness :
  exists tiles,
    load_tileset (Samples.document_at "ts.json" Samples.full_root)
      Samples.no_walk Samples.join Samples.dirname Samples.relpath
      10 0 "ts.json"
    = Ok (tiles, 5) /\
    NoDup (map tile_id tiles).
Proof.
  eexists; split; [vm_compute; reflexivity |].
  eapply (tile_ids_distinct (Samples.document_at "ts.json" Samples.full_root)
            Samples.no_walk Samples.join Samples.dirname Samples.relpath
            10 0 "ts.json" _ 5).
  vm_compute; reflexivity.
Defined.

Lemma load_tileset_sorted_witness :
  (explicit Samples.full_root = true /\
   (height Samples.full_root <= 10)%nat) /\
  exists tiles,
    load_tileset (Samples.document_at "ts.json" Samples.full_root)
      Samples.no_walk Samples.join Samples.dirname Samples.relpath
      10 0 "ts.json"
    = Ok (tiles, 5) /\
    map tile_id tiles = [1; 2; 3; 5; 4] /\
    StronglySorted (key_le lod_level) tiles.
Proof.
  destruct (load_tileset_sorted
              (Samples.document_at "ts.json" Samples.full_root)
              Samples.no_walk Samples.join Samples.dirname Samples.relpath
              10 0 "ts.json") as (Hreturns & Hsorted).
  split; [split; [reflexivity | simpl; lia] |].
  destruct (Hreturns (mkDocument (Some Samples.full_root)) Samples.full_root
              eq_refl eq_refl eq_refl) as (tiles & counter' & Hrun);
    [simpl; lia |].
  eexists; split; [vm_compute; reflexivity |].
  split; [reflexivity |].
  eapply Hsorted; vm_compute; reflexivity.
Defined.

Lemma children_without_descriptor_witness :
  children Samples.bare_root
  = Some [Samples.leaf "tile_0.glb" JNull] /\
  load_tileset (Samples.document_at "ts.json" Samples.bare_root)
    Samples.no_walk Samples.join Samples.dirname Samples.relpath
    10 0 "ts.json"
  = Raise UnboundLocalError.
Proof.
  split; [reflexivity |].
  unfold load_tileset; cbn [bind Samples.document_at String.eqb root].
  change (Samples.document_at "ts.json" Samples.bare_root "ts.json")
    with (Ok (mkDocument (Some Samples.bare_root))).
  cbn [bind root].
  rewrite (proj1 (children_without_descriptor
             (Samples.document_at "ts.json" Samples.bare_root)
             Samples.no_walk Samples.join Samples.dirname Samples.relpath
             9 Samples.bare_root None 0 (Samples.dirname "ts.json")
             (mkState 0 []) (Samples.leaf "tile_0.glb" JNull) []
             eq_refl) eq_refl).
  reflexivity.
Defined.

End TraversalFacts.

(* ================================================================== *)
(** * The report *)
(* ================================================================== *)

Module ReportFacts.

Import Report.

(** ** Dictionaries *)

Lemma dict_get_set (k k' : string) (v : pyval) (d : row) :
  dict_get k (dict_set k' v d)
  = if String.eqb k' k then Some v else dict_get k d.
Proof.
  induction d as [| [k0 v0] d IH]; simpl; [reflexivity |].
  destruct (String.eqb_spec k0 k') as [-> | Hne]; simpl.
  - now destruct (String.eqb k' k).
  - rewrite IH.
    destruct (String.eqb_spec k0 k) as [-> | Hk]; [| reflexivity].
    now destruct (String.eqb_spec k' k) as [-> | _].
Qed.

Lemma dict_get_key (k : string) (d : row) :
  In k (keys d) -> exists v, dict_get k d = Some v.
Proof.
  induction d as [| [k0 v0] d IH]; simpl; [contradiction |].
  intros [-> | H].
  - rewrite String.eqb_refl; eauto.
  - destruct (String.eqb k0 k); eauto.
Qed.

(** ** Sums *)

Lemma fold_Qplus_eq (l : list Q) (a b : Q) :
  (a == b -> fold_left Qplus l a == fold_left Qplus l b)%Q.
Proof.
  revert a b; induction l as [| q l IH]; intros a b H; simpl; [exact H |].
  apply IH; now rewrite H.
Qed.

Lemma num_add_Q (acc acc' : num) (v : pyval) :
  num_add acc v = Ok acc' -> (Q_of_num acc' == Q_of_num acc + Q_of_val v)%Q.
Proof.
  destruct acc as [a | a], v as [| b | b | b]; cbn [num_add];
    try discriminate; intros [= <-]; cbn [Q_of_num Q_of_val];
    rewrite ?inject_Z_plus; reflexivity.
Qed.

Lemma num_add_total (acc : num) (v : pyval) :
  is_number v = true -> exists acc', num_add acc v = Ok acc'.
Proof.
  destruct acc, v; simpl; try discriminate; eauto.
Qed.

(** The sum of a column, from any value of the accumulator. *)
Lemma sum_from_Q (key : string) (group : list row) (acc sum : num) :
  for_each (fun r acc => v <- getitem r key ;; num_add acc v) group acc
  = Ok sum ->
  (Q_of_num sum == fold_left Qplus (column key group) (Q_of_num acc))%Q.
Proof.
  revert acc; induction group as [| r group IH]; intros acc H; simpl in *.
  - now injection H as <-.
  - apply bind_ok in H as (acc1 & H1 & H).
    apply bind_ok in H1 as (v & Hv & Hadd).
    unfold getitem in Hv; destruct (dict_get key r) as [v' |];
      [injection Hv as -> | discriminate].
    rewrite (IH _ H); apply fold_Qplus_eq.
    now apply num_add_Q.
Qed.

Lemma sum_key_Q (key : string) (group : list row) (sum : num) :
  sum_key key group = Ok sum -> (Q_of_num sum == Qsum (column key group))%Q.
Proof. intros H; apply sum_from_Q in H; exact H. Qed.

Lemma sum_from_total (key : string) (group : list row) (acc : num) :
  Forall (fun r => numeric_at key r = true) group ->
  exists sum,
    for_each (fun r acc => v <- getitem r key ;; num_add acc v) group acc
    = Ok sum.
Proof.
  intros H; revert acc; induction H as [| r group Hr _ IH]; intros acc;
    simpl; [eauto |].
  unfold numeric_at in Hr; unfold getitem.
  destruct (dict_get key r) as [v |]; [| discriminate]; simpl.
  destruct (num_add_total acc v Hr) as (acc1 & ->); simpl; apply IH.
Qed.

Lemma Q_of_val_num (n : num) : Q_of_val (val_of_num n) = Q_of_num n.
Proof. now destruct n. Qed.

(** ** The summary row of a group *)

Lemma average_key_put (group : list row) (first : row) (key : string)
  (avg : row) :
  group <> [] ->
  In key (keys first) ->
  (averaged first key = true ->
   Forall (fun r => numeric_at key r = true) group) ->
  average_key group first key avg = Ok (put group first avg key).
Proof.
  intros Hne Hkey Huni; unfold average_key, put, entry.
  assert (Hlen : Z.of_nat (List.length group) <> 0)
    by (destruct group; [contradiction | simpl; lia]).
  destruct (String.eqb key "total_polygons") eqn:Etp.
  - destruct (sum_from_total key group (NInt 0)) as (sum & Hsum).
    { apply Huni; unfold averaged; now rewrite Etp. }
    unfold sum_key; now rewrite Hsum.
  - unfold averaged in *; rewrite Etp in *; cbn [orb] in *.
    destruct (negb (String.eqb key "lod_level" || String.eqb key "tile_id"));
      cbn [andb] in *; [| now destruct (sum_key key group)].
    destruct (dict_get_key key first Hkey) as (v & Hv).
    unfold getitem, numeric_at in *; rewrite Hv in *; cbn [bind].
    destruct (is_number v); [| now destruct (sum_key key group)].
    destruct (sum_from_total key group (NInt 0) (Huni eq_refl))
      as (sum & Hsum).
    unfold sum_key; rewrite Hsum; cbn [bind].
    now rewrite truediv_nonzero by exact Hlen.
Qed.

Lemma summarize_fold (lod : Z) (first : row) (rest : list row) :
  uniform (first :: rest) ->
  summarize lod (first :: rest)
  = Ok (fold_left (put (first :: rest) first) (keys first)
          [("lod_level"%string, VInt lod);
           ("tile_id"%string,
            VInt (Z.of_nat (List.length (first :: rest))))]).
Proof.
  intros Huni; unfold summarize.
  change (py_getitem (first :: rest) 0) with (Ok first); cbn [bind].
  generalize [("lod_level"%string, VInt lod);
              ("tile_id"%string,
               VInt (Z.of_nat (List.length (first :: rest))))].
  assert (Hkeys : incl (keys first) (keys first)) by apply incl_refl.
  revert Hkeys; generalize (keys first) at 1 3 4; intros ks.
  induction ks as [| key ks IH]; intros Hincl avg; [reflexivity |].
  cbn [for_each fold_left].
  rewrite average_key_put; [cbn [bind]; apply IH | discriminate | |].
  - intros k Hk; apply Hincl; now right.
  - apply Hincl; now left.
  - apply Huni, Hincl; now left.
Qed.

Lemma dict_get_put (group : list row) (first : row) (k key : string)
  (avg : row) :
  dict_get k (put group first avg key)
  = if String.eqb key k then
      match entry group first k with
      | Some v => Some v
      | None => dict_get k avg
      end
    else dict_get k avg.
Proof.
  unfold put.
  destruct (String.eqb_spec key k) as [-> | Hne].
  - destruct (entry group first k); [| reflexivity].
    now rewrite dict_get_set, String.eqb_refl.
  - destruct (entry group first key); [| reflexivity].
    rewrite dict_get_set.
    now destruct (String.eqb_spec key k).
Qed.

(** What a key holds after the keys [ks] have been put. *)
Lemma dict_get_fold_put (group : list row) (first : row) (k : string)
  (ks : list string) (avg : row) :
  dict_get k (fold_left (put group first) ks avg)
  = match entry group first k with
    | Some v => if existsb (String.eqb k) ks then Some v else dict_get k avg
    | None => dict_get k avg
    end.
Proof.
  revert avg; induction ks as [| key ks IH]; intros avg; cbn [fold_left].
  - now destruct (entry group first k).
  - rewrite IH, dict_get_put; cbn [existsb].
    rewrite (String.eqb_sym k key).
    destruct (entry group first k) as [v |];
      destruct (String.eqb key k); cbn [orb]; try reflexivity.
    now destruct (existsb (String.eqb k) ks).
Qed.

Lemma summarize_summarizes (results : list row) (lod : Z)
  (first : row) (rest : list row) :
  rows_of lod results = first :: rest ->
  uniform (first :: rest) ->
  exists s, summarize lod (first :: rest) = Ok s /\ summarizes results lod s.
Proof.
  intros Hrows Huni.
  eexists; split; [now apply summarize_fold |].
  unfold summarizes; rewrite Hrows.
  set (group := first :: rest) in *.
  assert (Hno : forall k,
             averaged first k = false -> k <> "total_polygons"%string ->
             entry group first k = None).
  { intros k Hk Hne; unfold entry; rewrite Hk.
    destruct (String.eqb_spec k "total_polygons"); [contradiction |].
    now destruct (sum_key k group). }
  split; [| split].
  - rewrite dict_get_fold_put, Hno; [reflexivity | reflexivity | discriminate].
  - rewrite dict_get_fold_put, Hno; [reflexivity | reflexivity | discriminate].
  - intros first' rest' key [= <- <-] Hkey.
    assert (Hex : existsb (String.eqb key) (keys first) = true).
    { apply existsb_exists; exists key; split;
        [exact Hkey | apply String.eqb_refl]. }
    assert (Hsum : averaged first key = true ->
                   exists sum, sum_key key group = Ok sum /\
                               (Q_of_num sum == Qsum (column key group))%Q).
    { intros Hav.
      destruct (sum_from_total key group (NInt 0) (Huni key Hkey Hav))
        as (sum & Hs).
      exists sum; split; [exact Hs | now apply sum_key_Q]. }
    split.
    + intros ->.
      destruct (Hsum eq_refl) as (sum & Hs & Hq).
      exists (val_of_num sum); split; [| now rewrite Q_of_val_num].
      rewrite dict_get_fold_put; unfold entry; now rewrite Hs, Hex.
    + intros Htp Hlod Htid.
      assert (Hav : averaged first key = numeric_at key first).
      { unfold averaged.
        destruct (String.eqb_spec key "total_polygons"); [contradiction |].
        destruct (String.eqb_spec key "lod_level"); [contradiction |].
        now destruct (String.eqb_spec key "tile_id"). }
      destruct (numeric_at key first) eqn:Enum.
      * destruct (Hsum Hav) as (sum & Hs & Hq).
        eexists; split.
        -- rewrite dict_get_fold_put; unfold entry; rewrite Hs, Hav, Hex.
           now destruct (String.eqb_spec key "total_polygons").
        -- now rewrite Hq.
      * rewrite dict_get_fold_put, (Hno key Hav Htp); cbn [dict_get].
        destruct (String.eqb_spec "lod_level" key); [congruence |].
        destruct (String.eqb_spec "tile_id" key); [congruence | reflexivity].
Qed.

(** ** Grouping by level *)

Lemma assoc_group_append (lod z : Z) (r : row) (groups : list (Z * list row)) :
  assoc lod (group_append z r groups)
  = if z =? lod then
      Some (match assoc z groups with Some g => g ++ [r] | None => [r] end)
    else assoc lod groups.
Proof.
  induction groups as [| [k g] groups IH]; cbn [group_append assoc].
  - reflexivity.
  - destruct (Z.eqb_spec k z) as [-> | Hne]; cbn [assoc].
    + now destruct (z =? lod).
    + rewrite IH.
      destruct (Z.eqb_spec k lod) as [-> | Hk]; [| reflexivity].
      now destruct (Z.eqb_spec z lod) as [-> | _].
Qed.

Lemma keys_group_append (lod z : Z) (r : row) (groups : list (Z * list row)) :
  In lod (map fst (group_append z r groups)) <->
  lod = z \/ In lod (map fst groups).
Proof.
  induction groups as [| [k g] groups IH]; cbn [group_append map fst In].
  - intuition.
  - destruct (Z.eqb_spec k z) as [-> | Hne]; cbn [map fst In].
    + intuition.
    + rewrite IH; intuition.
Qed.

Lemma NoDup_group_append (z : Z) (r : row) (groups : list (Z * list row)) :
  NoDup (map fst groups) -> NoDup (map fst (group_append z r groups)).
Proof.
  induction groups as [| [k g] groups IH]; cbn [group_append map fst].
  - intros _; repeat constructor; auto.
  - intros H; inversion H as [| k' ks Hk Hnd]; subst.
    destruct (Z.eqb_spec k z) as [-> | Hne]; cbn [map fst].
    + exact H.
    + constructor; [| auto].
      rewrite keys_group_append; intuition.
Qed.

Lemma rows_of_snoc (lod z : Z) (pre : list row) (r : row) :
  dict_get "lod_level" r = Some (VInt z) ->
  rows_of lod (pre ++ [r])
  = rows_of lod pre ++ (if z =? lod then [r] else []).
Proof.
  intros Hr; unfold rows_of; rewrite filter_app; cbn [filter].
  unfold has_lod at 2; rewrite Hr; now destruct (z =? lod).
Qed.

Lemma grouped_step (z : Z) (pre : list row) (r : row)
  (groups : list (Z * list row)) :
  dict_get "lod_level" r = Some (VInt z) ->
  grouped pre groups -> grouped (pre ++ [r]) (group_append z r groups).
Proof.
  intros Hr (Hnd & Hassoc); split; [now apply NoDup_group_append |].
  intros lod; rewrite assoc_group_append, (rows_of_snoc lod z pre r Hr).
  destruct (Z.eqb_spec z lod) as [-> | Hne].
  - rewrite Hassoc.
    now destruct (rows_of lod pre).
  - now rewrite Hassoc, app_nil_r.
Qed.

Lemma group_from_grouped (rs pre : list row) (groups : list (Z * list row)) :
  Forall (fun r => exists z, dict_get "lod_level" r = Some (VInt z)) rs ->
  grouped pre groups ->
  exists groups',
    for_each (fun r groups => lod <- row_lod r ;;
                              Ok (group_append lod r groups)) rs groups
    = Ok groups' /\
    grouped (pre ++ rs) groups'.
Proof.
  intros Hrs; revert pre groups.
  induction Hrs as [| r rs (z & Hz) _ IH]; intros pre groups Hg.
  - exists groups; rewrite app_nil_r; now split.
  - cbn [for_each]; unfold row_lod, getitem; rewrite Hz; cbn [bind].
    destruct (IH (pre ++ [r]) (group_append z r groups))
      as (groups' & Hrun & Hg'); [now apply grouped_step |].
    exists groups'; split; [exact Hrun |].
    now rewrite <- app_assoc in Hg'.
Qed.

Lemma group_by_lod_grouped (results : list row) :
  Forall (fun r => exists z, dict_get "lod_level" r = Some (VInt z)) results ->
  exists groups, group_by_lod results = Ok groups /\ grouped results groups.
Proof.
  intros H; apply (group_from_grouped results [] []); [exact H |].
  split; [constructor | reflexivity].
Qed.

Lemma In_assoc (lod : Z) (g : list row) (groups : list (Z * list row)) :
  NoDup (map fst groups) -> In (lod, g) groups -> assoc lod groups = Some g.
Proof.
  induction groups as [| [k g'] groups IH]; cbn [map fst In assoc];
    [contradiction |].
  intros Hnd [[= -> ->] | Hin]; [now rewrite Z.eqb_refl |].
  inversion Hnd as [| k' ks Hk Hnd']; subst.
  destruct (Z.eqb_spec k lod) as [-> | _]; [| auto].
  exfalso; apply Hk; now apply (in_map fst) in Hin.
Qed.

Lemma assoc_keys (lod : Z) (groups : list (Z * list row)) :
  In lod (map fst groups) <-> assoc lod groups <> None.
Proof.
  induction groups as [| [k g] groups IH]; cbn [map fst In assoc].
  - intuition.
  - destruct (Z.eqb_spec k lod) as [-> | Hne].
    + split; [discriminate | auto].
    + rewrite <- IH; intuition.
Qed.

(** Keys in order, without repetition, are in strict order. *)
Lemma sorted_keys_strict {A} (key : A -> Z) (l : list A) :
  StronglySorted (key_le key) l -> NoDup (map key l) ->
  StronglySorted Z.lt (map key l).
Proof.
  induction 1 as [| a l Hl IH Ha]; cbn [map]; [constructor |].
  intros Hnd; inversion Hnd as [| k ks Hk Hnd']; subst.
  constructor; [auto |].
  apply Forall_forall; intros k Hin.
  apply in_map_iff in Hin as (b & <- & Hb).
  rewrite Forall_forall in Ha; specialize (Ha b Hb); unfold key_le in Ha.
  assert (key a <> key b) by (intros E; apply Hk; rewrite E; now apply in_map).
  lia.
Qed.

(** A loop that appends one result for each element. *)
Lemma for_each_collect {A B} (f : A -> result B) (l : list A) (acc : list B) :
  (forall a, In a l -> exists b, f a = Ok b) ->
  exists bs,
    for_each (fun a acc => b <- f a ;; Ok (acc ++ [b])) l acc
    = Ok (acc ++ bs) /\
    Forall2 (fun a b => f a = Ok b) l bs.
Proof.
  revert acc; induction l as [| a l IH]; intros acc Hf.
  - exists []; rewrite app_nil_r; split; [reflexivity | constructor].
  - destruct (Hf a (or_introl eq_refl)) as (b & Hb).
    destruct (IH (acc ++ [b])) as (bs & Hrun & Hall);
      [intros a' Ha'; apply Hf; now right |].
    exists (b :: bs); split; [| now constructor].
    cbn [for_each]; rewrite Hb; cbn [bind].
    now rewrite Hrun, <- app_assoc.
Qed.

Lemma for_each_ext {A S} (body body' : A -> S -> result S) (l : list A) (st : S) :
  (forall a st, body a st = body' a st) ->
  for_each body l st = for_each body' l st.
Proof.
  intros H; revert st; induction l as [| a l IH]; intros st; simpl;
    [reflexivity |].
  rewrite H; destruct (body' a st); simpl; auto.
Qed.

Lemma summaries_of_groups (results : list row)
  (groups : list (Z * list row)) (summary : list row) :
  (forall lod, uniform (rows_of lod results)) ->
  (forall lod g, In (lod, g) groups -> g = rows_of lod results /\ g <> []) ->
  Forall2 (fun p s => summarize (fst p) (snd p) = Ok s) groups summary ->
  Forall2 (summarizes results) (map fst groups) summary.
Proof.
  intros Huni Hgroup Hall; revert Hgroup.
  induction Hall as [| [lod g] s groups' summary' Hs _ IH]; intros Hgroup;
    cbn [map fst]; constructor.
  - cbn [fst snd] in Hs.
    destruct (Hgroup lod g (or_introl eq_refl)) as (-> & Hne).
    destruct (rows_of lod results) as [| first rest] eqn:E; [contradiction |].
    destruct (summarize_summarizes results lod first rest E)
      as (s' & Hs' & Hsum); [rewrite <- E; apply Huni |].
    rewrite Hs in Hs'; now injection Hs' as ->.
  - apply IH; intros lod' g' Hin; apply Hgroup; now right.
Qed.

(** The groups that the summary walks, and the row computed for each. *)
Lemma lod_summary_groups (results : list row) :
  well_typed results ->
  exists (sorted : list (Z * list row)) (summary : list row),
    lod_summary results = Ok summary /\
    StronglySorted Z.lt (map fst sorted) /\
    (forall lod, In lod (map fst sorted) <-> rows_of lod results <> []) /\
    (forall lod g, In (lod, g) sorted ->
                   g = rows_of lod results /\ g <> []) /\
    Forall2 (fun p s => summarize (fst p) (snd p) = Ok s) sorted summary.
Proof.
  intros (Hlod & Huni).
  destruct (group_by_lod_grouped results Hlod) as (groups & Hg & Hnd & Hassoc).
  set (sorted := py_sort_by fst groups).
  pose proof (py_sort_by_perm fst groups) as Hperm; fold sorted in Hperm.
  assert (Hnd' : NoDup (map fst sorted)).
  { eapply Permutation_NoDup; [apply Permutation_map; exact Hperm | exact Hnd]. }
  assert (Hgroup : forall lod g, In (lod, g) sorted ->
                                 g = rows_of lod results /\ g <> []).
  { intros lod g Hin.
    apply (Permutation_in _ (Permutation_sym Hperm)) in Hin.
    apply (In_assoc _ _ _ Hnd) in Hin; rewrite Hassoc in Hin.
    destruct (rows_of lod results); [discriminate |].
    injection Hin as <-; split; [reflexivity | discriminate]. }
  destruct (for_each_collect (fun p => summarize (fst p) (snd p)) sorted [])
    as (summary & Hrun & Hall).
  { intros [lod g] Hin; cbn [fst snd].
    destruct (Hgroup lod g Hin) as (-> & Hne).
    destruct (rows_of lod results) as [| first rest] eqn:E; [contradiction |].
    destruct (summarize_summarizes results lod first rest E) as (s & Hs & _);
      [rewrite <- E; apply Huni | eauto]. }
  exists sorted, summary.
  split; [| split; [| split; [| split; [exact Hgroup | exact Hall]]]].
  - unfold lod_summary; rewrite Hg; cbn [bind]; fold sorted.
    cbn [app] in Hrun; rewrite <- Hrun.
    apply for_each_ext; now intros [lod g] acc.
  - apply sorted_keys_strict; [apply py_sort_by_sorted | exact Hnd'].
  - intros lod.
    assert (Hiff : rows_of lod results <> [] <-> assoc lod groups <> None).
    { rewrite Hassoc; destruct (rows_of lod results); split; congruence. }
    rewrite Hiff, <- assoc_keys.
    split; apply Permutation_in, Permutation_map;
      [now apply Permutation_sym | exact Hperm].
Qed.

(** ** The lines of the report *)

Lemma dict_get_in_keys (k : string) (d : row) (v : pyval) :
  dict_get k d = Some v -> In k (keys d).
Proof.
  induction d as [| [k0 v0] d IH]; cbn [dict_get keys map fst In];
    [discriminate |].
  destruct (String.eqb_spec k0 k) as [-> | _]; [now left | right; auto].
Qed.

Lemma keys_dict_set (k : string) (v : pyval) (d : row) :
  incl (keys (dict_set k v d)) (k :: keys d).
Proof.
  induction d as [| [k0 v0] d IH]; cbn [dict_set keys map fst].
  - apply incl_refl.
  - destruct (String.eqb k0 k); cbn [keys map fst].
    + apply incl_tl, incl_refl.
    + intros x [<- | Hx]; [right; now left |].
      destruct (IH x Hx) as [<- | Hd]; [now left | right; now right].
Qed.

Lemma keys_fold_put (group : list row) (first : row) (ks : list string)
  (avg : row) :
  incl (keys (fold_left (put group first) ks avg)) (ks ++ keys avg).
Proof.
  revert avg; induction ks as [| key ks IH]; intros avg; cbn [fold_left app];
    [apply incl_refl |].
  intros x Hx; apply IH, in_app_or in Hx as [Hx | Hx].
  - right; apply in_or_app; now left.
  - unfold put in Hx; destruct (entry group first key).
    + apply keys_dict_set in Hx as [<- | Hx]; [now left |].
      right; apply in_or_app; now right.
    + right; apply in_or_app; now right.
Qed.

(** The keys of a summary row are [lod_level], [tile_id] and keys of the
    first row of its group. *)
Lemma summary_keys (results : list row) (groups : list (Z * list row))
  (summary : list row) (fieldnames : list string) :
  (forall lod, uniform (rows_of lod results)) ->
  (forall lod g, In (lod, g) groups -> g = rows_of lod results /\ g <> []) ->
  Forall2 (fun p s => summarize (fst p) (snd p) = Ok s) groups summary ->
  (forall r, In r results -> keys r = fieldnames) ->
  In "lod_level"%string fieldnames -> In "tile_id"%string fieldnames ->
  Forall (fun s => incl (keys s) fieldnames) summary.
Proof.
  intros Huni Hgroup Hall Hsame Hlod Htid; revert Hgroup.
  induction Hall as [| [lod g] s groups' summary' Hs _ IH]; intros Hgroup;
    constructor.
  - cbn [fst snd] in Hs.
    destruct (Hgroup lod g (or_introl eq_refl)) as (Hg & Hne).
    destruct g as [| first_g rest_g]; [contradiction |].
    assert (Hin : In first_g results).
    { assert (H : In first_g (rows_of lod results))
        by (rewrite <- Hg; now left).
      unfold rows_of in H; now apply filter_In in H. }
    rewrite summarize_fold in Hs by (rewrite Hg; apply Huni).
    injection Hs as <-.
    intros k Hk; apply keys_fold_put, in_app_or in Hk as [Hk | Hk].
    + now rewrite <- (Hsame first_g Hin).
    + destruct Hk as [<- | [<- | []]]; assumption.
  - apply IH; intros lod' g' Hin; apply Hgroup; now right.
Qed.

Section Lines.

Variable fmt4 : Q -> string.

Lemma keys_rounded_row (r : row) : keys (rounded_row fmt4 r) = keys r.
Proof.
  unfold keys, rounded_row; rewrite map_map.
  apply map_ext; now intros [k v].
Qed.

Lemma writerow_line (fieldnames : list string) (r : row) :
  incl (keys r) fieldnames -> writerow fieldnames r = Ok (line fieldnames r).
Proof.
  intros Hincl; unfold writerow.
  replace (forallb _ (keys r)) with true; [reflexivity |].
  symmetry; apply forallb_forall; intros k Hk.
  apply existsb_exists; exists k; split; [auto | apply String.eqb_refl].
Qed.

Lemma writerows_lines (fieldnames : list string) (rows : list row)
  (out : list (list pyval)) :
  Forall (fun r => incl (keys r) fieldnames) rows ->
  writerows fmt4 fieldnames rows out
  = Ok (out ++ map (fun r => line fieldnames (rounded_row fmt4 r)) rows).
Proof.
  unfold writerows; intros H; revert out.
  induction H as [| r rows Hr _ IH]; intros out; cbn [for_each map].
  - now rewrite app_nil_r.
  - rewrite writerow_line by now rewrite keys_rounded_row.
    cbn [bind]; rewrite IH, <- app_assoc; reflexivity.
Qed.

End Lines.

(** C6, as amended. When every row holds an integer [lod_level] and, in
    each group, every column that holds a number in the first row of the
    group (and the column of the polygons) holds a number in all its
    rows, the summary is computed: it has one row for each level that
    occurs, in ascending order of the levels; the row of a level holds
    the number of rows of the group under [tile_id], the sum of the group
    under [total_polygons], the arithmetic mean of the group under every
    other key whose value in the first row of the group is a number, and
    nothing under the remaining keys. When the rows moreover have the
    keys of the first one, [tile_id] among them, the report is written:
    the summary rows in that order, then the result rows. *)
Theorem lod_summary_by_level (results : list row) :
  well_typed results ->
  exists (summary : list row) (levels : list Z),
    lod_summary results = Ok summary /\
    StronglySorted Z.lt levels /\
    (forall lod, In lod levels <-> rows_of lod results <> []) /\
    Forall2 (summarizes results) levels summary /\
    forall (fmt4 : Q -> string) (first : row) (rest : list row),
      results = first :: rest ->
      In "tile_id"%string (keys first) ->
      Forall (fun r => keys r = keys first) rest ->
      write_results_to_csv fmt4 results
      = Ok (report_lines fmt4 (keys first) summary results).
Proof.
  intros Hwt.
  destruct (lod_summary_groups results Hwt)
    as (sorted & summary & Hsum & Hsorted & Hlevels & Hgroup & Hall).
  exists summary, (map fst sorted).
  split; [exact Hsum |]; split; [exact Hsorted |]; split; [exact Hlevels |].
  split; [apply summaries_of_groups;
            [apply Hwt | exact Hgroup | exact Hall] |].
  intros fmt4 first rest -> Htid Hkeys.
    assert (Hsame : forall r, In r (first :: rest) -> keys r = keys first).
    { intros r [<- | Hr]; [reflexivity |].
      rewrite Forall_forall in Hkeys; auto. }
    assert (Hlod : In "lod_level"%string (keys first)).
    { destruct Hwt as (Hl & _); inversion Hl as [| r rs (z & Hz) _]; subst.
      eapply dict_get_in_keys; exact Hz. }
    assert (Hsummary : Forall (fun s => incl (keys s) (keys first)) summary).
    { apply (summary_keys (first :: rest) sorted); auto; apply Hwt. }
    unfold write_results_to_csv, report_lines.
    rewrite Hsum; cbn [bind py_getitem].
    change (py_getitem (first :: rest) 0) with (Ok first); cbn [bind].
    rewrite writerows_lines by exact Hsummary; cbn [bind].
    rewrite writerow_line by (intros k []); cbn [bind].
    rewrite writerows_lines.
    + now rewrite <- !app_assoc.
    + apply Forall_forall; intros r Hr; rewrite (Hsame r Hr).
      apply incl_refl.
Qed.

(** ** The boolean tests *)

Lemma uniformb_sound (group : list row) : uniformb group = true -> uniform group.
Proof.
  destruct group as [| first rest]; [easy |].
  cbn [uniformb uniform]; intros H key Hkey Hav.
  rewrite forallb_forall in H; specialize (H key Hkey).
  rewrite Hav in H; cbn [implb] in H.
  apply Forall_forall; now apply forallb_forall.
Qed.

Lemma rows_of_level (lod : Z) (results : list row) :
  rows_of lod results <> [] -> In lod (levels_of results).
Proof.
  induction results as [| r results IH]; [easy |].
  unfold rows_of, levels_of in *; cbn [filter flat_map].
  unfold has_lod at 1.
  destruct (dict_get "lod_level" r) as [[| z | |] |]; auto.
  destruct (Z.eqb_spec z lod) as [-> | _]; intros H;
    apply in_or_app; [left; now left | right; auto].
Qed.

Lemma well_typedb_sound (results : list row) :
  well_typedb results = true -> well_typed results.
Proof.
  unfold well_typedb, well_typed; intros H.
  apply andb_prop in H as (Hlod & Huni); split.
  - apply Forall_forall; intros r Hr.
    rewrite forallb_forall in Hlod; specialize (Hlod r Hr).
    destruct (dict_get "lod_level" r) as [[| z | |] |]; try discriminate.
    now exists z.
  - intros lod.
    destruct (rows_of lod results) as [| first rest] eqn:E; [exact I |].
    rewrite <- E; apply uniformb_sound.
    rewrite forallb_forall in Huni; apply Huni.
    apply rows_of_level; now rewrite E.
Qed.

Lemma lod_summary_by_level_witness :
  well_typed Samples.report_rows /\
  exists (summary : list row) (levels : list Z),
    lod_summary Samples.report_rows = Ok summary /\
    StronglySorted Z.lt levels /\
    (forall lod, In lod levels <-> rows_of lod Samples.report_rows <> []) /\
    Forall2 (summarizes Samples.report_rows) levels summary /\
    forall (fmt4 : Q -> string) (first : row) (rest : list row),
      Samples.report_rows = first :: rest ->
      In "tile_id"%string (keys first) ->
      Forall (fun r => keys r = keys first) rest ->
      write_results_to_csv fmt4 Samples.report_rows
      = Ok (report_lines fmt4 (keys first) summary Samples.report_rows).
Proof.
  assert (H : well_typed Samples.report_rows)
    by (apply well_typedb_sound; vm_compute; reflexivity).
  split; [exact H |].
  exact (lod_summary_by_level Samples.report_rows H).
Defined.

(** C6, counterexample. Two result rows of level 1, one from a tile with
    a geometric error and one from a tile without. With the second one
    first, the column [screen_space_error] is not a number in the first
    row of the group and the summary row has nothing under it, although
    the other row holds 16.0; with the first one first, the sum of the
    column adds [None] to a number and no summary is produced. *)
Lemma mixed_column_raises :
  (exists s,
     lod_summary [Samples.row_of Samples.tile_b; Samples.row_of Samples.tile_a]
     = Ok [s] /\
     dict_get "screen_space_error" (Samples.row_of Samples.tile_a)
     = Some (VFloat 16) /\
     dict_get "screen_space_error" s = None) /\
  lod_summary [Samples.row_of Samples.tile_a; Samples.row_of Samples.tile_b]
  = Raise TypeError.
Proof.
  split; [eexists; repeat split |]; vm_compute; reflexivity.
Qed.

Section Csv.

Variable fmt4 : Q -> string.

Lemma no_valid_results (n : nat) :
  flat_map (fun r : option row => match r with Some r => [r] | None => [] end)
           (repeat None n)
  = [].
Proof. induction n as [| n IH]; [reflexivity | exact IH]. Qed.

(** C3 (the code departs from the claim). For an empty list of results
    the summary is empty, and then [results[0]] raises [IndexError]
    before the output file is opened; the end of [main] passes the empty
    list on when every tile gave [None], and the exception ends the
    run. *)
Theorem empty_results_raise (n : nat) :
  lod_summary [] = Ok [] /\
  write_results_to_csv fmt4 [] = Raise IndexError /\
  main_report fmt4 (repeat None n) = Raise IndexError.
Proof.
  repeat split; unfold main_report; now rewrite ?no_valid_results.
Qed.

End Csv.

End ReportFacts.

(* ================================================================== *)
(** * More on the rasterizer *)
(* ================================================================== *)

Module RasterMore.

Import Raster RasterSpec RasterFacts.

(** ** The point-in-triangle test *)

Section Test.

#[local] Open Scope Q_scope.


Lemma sign_rotate (a b c : Vector) : sign a b c == sign b c a.
Proof. unfold sign; ring. Qed.





Lemma Qltb_true (a b : Q) : Qltb a b = true <-> a < b.
Proof.
  unfold Qltb; rewrite negb_true_iff; split; intros H.
  - apply Qnot_le_lt; intros Hle; apply Qle_bool_iff in Hle; congruence.
  - destruct (Qle_bool b a) eqn:E; [| reflexivity].
    apply Qle_bool_iff in E; exfalso; exact (Qlt_not_le _ _ H E).
Qed.





End Test.


(** ** Bounds of what the rasterizer returns *)

Lemma sample_cell_square (res : Z) (uv : list Vector) (u v : Z)
  (st st' : grid * Z) :
  square res (fst st) -> sample_cell res uv u v st = Ok st' ->
  square res (fst st').
Proof.
  intros (Hrows & Hcols) H; destruct st as [g n]; cbn [fst] in *.
  unfold sample_cell in H.
  apply bind_ok in H as (px & _ & H).
  apply bind_ok in H as (py & _ & H).
  apply bind_ok in H as ([|] & _ & H); [| injection H as <-; now split].
  apply bind_ok in H as (r & Hr & H).
  apply bind_ok in H as (c0 & _ & H).
  destruct (c0 =? 0); [| injection H as <-; now split].
  apply bind_ok in H as (r' & Hr' & H).
  apply bind_ok in H as (g' & Hg' & H).
  injection H as <-; cbn [fst].
  apply getitem_ok in Hr as (kv & _ & Hkv).
  apply setitem_ok in Hr' as (ku & _ & ->).
  apply setitem_ok in Hg' as (kv' & _ & ->).
  split; [now rewrite length_update |].
  apply Forall_update; [exact Hcols |].
  rewrite length_update.
  rewrite Forall_forall in Hcols; apply Hcols.
  eapply nth_error_In; exact Hkv.
Qed.

Lemma sample_face_square (res : Z) (g g' : grid) (f : face) (n : Z) :
  square res g -> sample_face res g f = Ok (g', n) -> square res g'.
Proof.
  intros Hsq H; unfold sample_face in H.
  apply bind_ok in H as (min_u & _ & H).
  apply bind_ok in H as (max_u & _ & H).
  apply bind_ok in H as (min_v & _ & H).
  apply bind_ok in H as (max_v & _ & H).
  apply (for_each_inv (fun st : grid * Z => square res (fst st))) in H;
    [exact H | | exact Hsq].
  intros u st st' Hst.
  apply (for_each_inv (fun st : grid * Z => square res (fst st)));
    [| exact Hst].
  intros v st1 st2; apply sample_cell_square.
Qed.

Lemma length_concat_rows {A} (n : nat) (g : list (list A)) :
  Forall (fun r => List.length r = n) g ->
  List.length (List.concat g) = (List.length g * n)%nat.
Proof.
  induction 1 as [| r g Hr _ IH]; [reflexivity |].
  cbn [List.concat List.length]; rewrite length_app, IH, Hr; lia.
Qed.

(** A square grid has no more occupied cells than cells. *)
Lemma occupied_le_cells (res : Z) (g : grid) :
  square res g -> 0 <= occupied g <= res * res.
Proof.
  intros (Hrows & Hcols); unfold occupied.
  pose proof (filter_length_le (Z.eqb 1) (List.concat g)) as Hle.
  rewrite (length_concat_rows _ _ Hcols), Hrows in Hle.
  split; [lia |]. nia.
Qed.

Lemma truediv_ok_nonzero (a b q : Q) :
  py_truediv a b = Ok q -> ~ (b == 0)%Q /\ q = (a / b)%Q.
Proof.
  unfold py_truediv; destruct (Qeq_bool b 0) eqn:E; [discriminate |].
  intros [= <-]; split; [now apply Qeq_bool_neq | reflexivity].
Qed.

(** A part of a positive whole, as a fraction. *)
Lemma fraction_bounds (n T : Z) :
  0 <= n <= T -> T <> 0 ->
  (0 <= inject_Z n / inject_Z T)%Q /\ (inject_Z n / inject_Z T <= 1)%Q /\
  ((inject_Z n / inject_Z T == 0)%Q <-> n = 0).
Proof.
  intros Hn HT; destruct T as [| t | t]; try lia.
  unfold Qle, Qeq, Qdiv, Qmult, Qinv; simpl.
  repeat split; try lia; intros H; lia.
Qed.

Section Bounds.

Variable pow_half : Q -> Q.
Variables np_mean np_median np_std : list Q -> Q.

(** Entries and occupied cells along the loop over the faces. *)
Lemma faces_entries (res w h : Z) (fs : list face) :
  forall (g g' : grid) (sizes sizes' : list Q),
    binary g -> square res g ->
    for_each (face_step pow_half res w h) fs (g, sizes) = Ok (g', sizes') ->
    binary g' /\ square res g' /\
    (List.length sizes' <= List.length sizes + List.length fs)%nat /\
    (List.length sizes <= List.length sizes')%nat /\
    Z.of_nat (List.length sizes') - Z.of_nat (List.length sizes)
    <= occupied g' - occupied g /\
    (occupied g < occupied g' -> (List.length sizes < List.length sizes')%nat).
Proof.
  induction fs as [| f fs IH]; intros g g' sizes sizes' Hb Hsq H.
  - injection H as <- <-.
    split; [exact Hb |]; split; [exact Hsq |]; repeat split; lia.
  - cbn [for_each] in H.
    apply bind_ok in H as ([g1 sizes1] & Hstep & H).
    assert (Hsq1 : square res g1).
    { unfold face_step in Hstep.
      apply bind_ok in Hstep as ([g2 n] & Hface & Hstep).
      apply (sample_face_square res g g2 f n Hsq) in Hface.
      destruct (0 <? n).
      - apply bind_ok in Hstep as (cw & _ & Hstep).
        apply bind_ok in Hstep as (ch & _ & Hstep).
        apply bind_ok in Hstep as (q & _ & Hstep).
        now injection Hstep as <- _.
      - now injection Hstep as <- _. }
    apply face_step_spec in Hstep as (Hb1 & _ & Hn & Hs); [| exact Hb].
    destruct (IH g1 g' sizes1 sizes' Hb1 Hsq1 H)
      as (Hb' & Hsq' & Hlen & Hmono & Hocc & Hgrow).
    assert (Hlen1 : List.length sizes1
                    = (List.length sizes
                       + if (0 <? occupied g1 - occupied g)%Z
                         then 1 else 0)%nat).
    { rewrite Hs, length_app.
      now destruct (0 <? occupied g1 - occupied g). }
    cbn [List.length].
    split; [exact Hb' |]; split; [exact Hsq' |].
    destruct (0 <? occupied g1 - occupied g) eqn:E.
    + apply Z.ltb_lt in E; repeat split; lia.
    + apply Z.ltb_ge in E; repeat split; lia.
Qed.

(** What a returned triple was computed from. *)
Lemma calculate_returns (obj : object) (sizes : list Q) (u : Q) (width : Z) :
  calculate_texel_sizes_and_utilization pow_half obj
  = Ok (Tuple3 sizes u width) ->
  exists (img : image) (g : grid),
    uv_active obj = true /\ find_image obj = Some img /\
    width = fst (size img) /\
    let res := grid_resolution (fst (size img)) (snd (size img)) in
    run_faces pow_half res (fst (size img)) (snd (size img)) (faces obj)
    = Ok (g, sizes) /\
    res * res <> 0 /\
    u = (inject_Z (occupied g) / inject_Z (res * res))%Q.
Proof.
  unfold calculate_texel_sizes_and_utilization; intros H.
  destruct (uv_active obj); [| discriminate]; cbn [negb] in H.
  destruct (find_image obj) as [img |]; [| discriminate].
  destruct (size img) as [w h] eqn:Esize.
  apply bind_ok in H as ([g sizes1] & Hrun & H).
  apply bind_ok in H as (q & Hq & H).
  injection H as -> -> <-.
  exists img, g; rewrite Esize; cbn [fst snd].
  repeat split; auto.
  - apply truediv_ok_nonzero in Hq as (Hnz & _).
    intros E; apply Hnz; now rewrite E.
  - apply truediv_ok_nonzero in Hq as (_ & ->).
    rewrite used_pixels_occupied; [reflexivity |].
    eapply run_faces_binary; exact Hrun.
Qed.

(** X2. When the rasterizer returns its triple, the utilization lies
    between 0 and 1, there are no more texel sizes than faces, and the
    list of texel sizes is empty exactly when the utilization is 0; the
    width returned is that of the texture found. *)
Theorem utilization_bounds (obj : object) (sizes : list Q) (u : Q) (width : Z) :
  calculate_texel_sizes_and_utilization pow_half obj
  = Ok (Tuple3 sizes u width) ->
  (0 <= u)%Q /\ (u <= 1)%Q /\
  (List.length sizes <= List.length (faces obj))%nat /\
  (sizes = [] <-> (u == 0)%Q) /\
  exists img, find_image obj = Some img /\ width = fst (size img).
Proof.
  intros H.
  apply calculate_returns in H
    as (img & g & Huv & Himg & Hw & Hrun & Hnz & ->).
  unfold run_faces in Hrun.
  apply faces_entries in Hrun
    as (Hb & Hsq & Hlen & _ & Hocc & Hgrow);
    [| apply binary_new_grid | apply new_grid_square].
  rewrite occupied_new_grid in Hocc, Hgrow.
  pose proof (occupied_le_cells _ _ Hsq) as Hcells.
  destruct (fraction_bounds _ _ Hcells Hnz) as (H0 & H1 & Hzero).
  repeat split; auto.
  - intros ->; apply Hzero; cbn [List.length] in Hocc; lia.
  - intros E; apply Hzero in E.
    destruct sizes; [reflexivity | cbn [List.length] in Hocc; lia].
  - now exists img.
Qed.

(** X3. When [calculate_statistics] returns, the mesh has a UV layer and
    a texture and the rasterizer returned. The result is [None] exactly
    when no cell was occupied; otherwise it is a dictionary whose
    utilization is positive and at most 1, whose width is the width of
    the texture, whose polygon count is the number of faces, and whose
    texel and edge statistics are those of the texel sizes and of the
    edge lengths. *)
Theorem statistics_returned (obj : object) (r : option stats) :
  calculate_statistics pow_half np_mean np_median np_std obj = Ok r ->
  exists (sizes : list Q) (u : Q) (img : image),
    uv_active obj = true /\ find_image obj = Some img /\
    calculate_texel_sizes_and_utilization pow_half obj
    = Ok (Tuple3 sizes u (fst (size img))) /\
    match r with
    | None => sizes = [] /\ (u == 0)%Q
    | Some s =>
        sizes <> [] /\
        texture_utilization s = u /\ (0 < u)%Q /\ (u <= 1)%Q /\
        texture_width s = fst (size img) /\
        total_polygons s = Z.of_nat (List.length (faces obj)) /\
        avg_texel_size s = np_mean sizes /\
        median_texel_size s = np_median sizes /\
        std_dev_texel_size s = np_std sizes /\
        avg_polygon_edge_length s = np_mean (edge_lengths obj) /\
        median_polygon_edge_length s = np_median (edge_lengths obj) /\
        std_dev_polygon_edge_length s = np_std (edge_lengths obj)
    end.
Proof.
  unfold calculate_statistics; intros H.
  apply bind_ok in H as (t & Ht & H).
  destruct t as [| sizes u width]; [discriminate |]; cbn [unpack3 bind] in H.
  pose proof Ht as Hret.
  apply calculate_returns in Hret
    as (img & g & Huv & Himg & Hw & Hrun & Hnz & Hu).
  unfold run_faces in Hrun.
  apply faces_entries in Hrun
    as (Hb & Hsq & Hlen & _ & Hocc & Hgrow);
    [| apply binary_new_grid | apply new_grid_square].
  rewrite occupied_new_grid in Hocc, Hgrow.
  pose proof (occupied_le_cells _ _ Hsq) as Hcells.
  destruct (fraction_bounds _ _ Hcells Hnz) as (H0 & H1 & Hzero).
  rewrite <- Hu in H0, H1, Hzero.
  exists sizes, u, img; subst width.
  split; [exact Huv |]; split; [exact Himg |]; split; [exact Ht |].
  destruct sizes as [| q sizes].
  - injection H as <-; split; [reflexivity |].
    apply Hzero.
    destruct (Z.eq_dec (occupied g) 0) as [E | E]; [exact E |].
    assert (Hpos : 0 < occupied g) by lia.
    specialize (Hgrow Hpos); cbn [List.length] in Hgrow; lia.
  - injection H as <-; cbn.
    repeat split; auto; try discriminate.
    apply Qle_lt_or_eq in H0 as [Hlt | Heq]; [exact Hlt |].
    symmetry in Heq; apply Hzero in Heq.
    cbn [List.length] in Hocc; lia.
Qed.


End Bounds.

Lemma utilization_bounds_witness :
  calculate_texel_sizes_and_utilization Samples.rational_root
    Samples.twice_mesh
  = Ok (Tuple3 [16 # 64]%Q (4 # 4)%Q 4) /\
  (4 # 4 <= 1)%Q /\
  ([16 # 64]%Q = [] <-> (4 # 4 == 0)%Q).
Proof.
  assert (H : calculate_texel_sizes_and_utilization Samples.rational_root
                Samples.twice_mesh
              = Ok (Tuple3 [16 # 64]%Q (4 # 4)%Q 4))
    by (vm_compute; reflexivity).
  split; [exact H |].
  destruct (utilization_bounds Samples.rational_root Samples.twice_mesh
              _ _ _ H) as (_ & H1 & _ & Hz & _).
  split; [exact H1 | exact Hz].
Defined.

Lemma statistics_returned_witness :
  exists r,
    calculate_statistics Samples.rational_root Samples.mean Samples.mean
      Samples.mean Samples.twice_mesh
    = Ok r /\
    exists (sizes : list Q) (u : Q) (img : image),
      uv_active Samples.twice_mesh = true /\
      find_image Samples.twice_mesh = Some img /\
      calculate_texel_sizes_and_utilization Samples.rational_root
        Samples.twice_mesh
      = Ok (Tuple3 sizes u (fst (size img))) /\
      match r with
      | None => sizes = [] /\ (u == 0)%Q
      | Some s =>
          sizes <> [] /\
          texture_utilization s = u /\ (0 < u)%Q /\ (u <= 1)%Q /\
          texture_width s = fst (size img) /\
          total_polygons s = Z.of_nat (List.length (faces Samples.twice_mesh)) /\
          avg_texel_size s = Samples.mean sizes /\
          median_texel_size s = Samples.mean sizes /\
          std_dev_texel_size s = Samples.mean sizes /\
          avg_polygon_edge_length s
          = Samples.mean (edge_lengths Samples.twice_mesh) /\
          median_polygon_edge_length s
          = Samples.mean (edge_lengths Samples.twice_mesh) /\
          std_dev_polygon_edge_length s
          = Samples.mean (edge_lengths Samples.twice_mesh)
      end.
Proof.
  eexists; split; [vm_compute; reflexivity |].
  apply (statistics_returned Samples.rational_root Samples.mean Samples.mean
           Samples.mean Samples.twice_mesh).
  vm_compute; reflexivity.
Defined.


End RasterMore.

(* ================================================================== *)
(** * More on the traversal *)
(* ================================================================== *)

Module TraversalMore.

Import Traversal TraversalSpec TraversalFacts.

Lemma int_of_string_nonneg (s : string) (z : Z) :
  int_of_string s = Ok z -> 0 <= z.
Proof.
  unfold int_of_string; destruct s as [| ch s]; [discriminate |].
  destruct (NilEmpty.uint_of_string _); [| discriminate].
  intros [= <-]; lia.
Qed.

Lemma ids_from_In (c : Z) (n : nat) (i : Z) :
  c < i <= c + Z.of_nat n -> In i (ids_from c n).
Proof.
  intros H; unfold ids_from; apply in_map_iff.
  exists (Z.to_nat (i - c - 1)); split; [lia |].
  apply in_seq; lia.
Qed.

Lemma known_later (c0 : Z) (st st' : state) (parent : option Z) :
  known c0 st parent -> tile_id_counter st <= tile_id_counter st' ->
  known c0 st' parent.
Proof. destruct parent as [p |]; cbn [known]; [lia | auto]. Qed.

(** A descriptor that takes the next number, names a known parent and
    has a level that is not negative keeps the list sound. *)
Lemma sound_emit (c0 : Z) (st : state) (d : descriptor) :
  sound c0 st -> known c0 st (parent_id d) -> 0 <= lod_level d ->
  tile_id d = tile_id_counter st + 1 ->
  sound c0 (append d (snd (get_unique_tile_id st))).
Proof.
  intros (Hn & Hall) Hk Hlod Hid; split.
  - apply numbered_emit; [exact Hn | exact Hid].
  - cbn [append get_unique_tile_id snd tiles_to_process].
    apply Forall_app; split; [exact Hall |].
    constructor; [| constructor].
    split; [| exact Hlod].
    unfold parent_before; unfold known in Hk.
    destruct (parent_id d) as [p |]; [lia | exact I].
Qed.

Section Walk.

Variable read_json : string -> result document.
Variable os_walk : string -> list (string * list string).
Variable path_join : string -> string -> string.
Variable path_dirname : string -> string.
Variable path_relpath : string -> string -> string.

Local Notation "'process'" :=
  (process_tile_structure read_json os_walk path_join path_dirname
     path_relpath).

(** What the implicit scan keeps, from the state [st] it started in:
    the list is sound, the counter has not gone down, and the local
    variable [tile_id] is unbound or holds a number that was given. *)
Lemma scan_file_sound (c0 : Z) (st : state) base parent sse
  (root file : string) (s s' : option Z * state) :
  known c0 st parent ->
  sound c0 (snd s) /\ known c0 (snd s) (fst s) /\
  tile_id_counter st <= tile_id_counter (snd s) ->
  scan_file path_join path_relpath base parent sse root file s = Ok s' ->
  sound c0 (snd s') /\ known c0 (snd s') (fst s') /\
  tile_id_counter st <= tile_id_counter (snd s').
Proof.
  intros Hk (Hs & Hks & Hle) H; unfold scan_file in H.
  destruct (endswith file ".glb"); [| injection H as <-; auto].
  destruct (pattern_match _) as [[[[g1 g2] g3] g4] |];
    [| injection H as <-; auto].
  apply bind_ok in H as (level & Hlevel & H).
  apply bind_ok in H as (x & _ & H).
  apply bind_ok in H as (y & _ & H).
  apply bind_ok in H as (z & _ & H).
  cbn [get_unique_tile_id] in H; injection H as <-; cbn [fst snd].
  split; [| split].
  - apply (sound_emit c0 (snd s)); cbn; auto.
    + now apply (known_later c0 st).
    + now apply int_of_string_nonneg in Hlevel.
  - destruct Hs as ((Hc & _) & _); cbn; lia.
  - cbn; lia.
Qed.

Lemma implicit_scan_sound (c0 : Z) (st : state) base parent sse
  (s s' : option Z * state) :
  known c0 st parent ->
  sound c0 (snd s) /\ known c0 (snd s) (fst s) /\
  tile_id_counter st <= tile_id_counter (snd s) ->
  implicit_scan os_walk path_join path_relpath base parent sse s = Ok s' ->
  sound c0 (snd s') /\ known c0 (snd s') (fst s') /\
  tile_id_counter st <= tile_id_counter (snd s').
Proof.
  intros Hk; unfold implicit_scan.
  apply (for_each_inv
           (fun s : option Z * state =>
              sound c0 (snd s) /\ known c0 (snd s) (fst s) /\
              tile_id_counter st <= tile_id_counter (snd s))).
  intros [root files] s1 s2.
  apply (for_each_inv
           (fun s : option Z * state =>
              sound c0 (snd s) /\ known c0 (snd s) (fst s) /\
              tile_id_counter st <= tile_id_counter (snd s))).
  intros file s3 s4; now apply scan_file_sound.
Qed.

(** The traversal keeps the list sound and never lowers the counter. *)
Lemma process_sound (c0 : Z) (depth : nat) :
  forall (t : tile) (parent : option Z) (lod : Z) (base : string)
         (st st' : state),
    sound c0 st -> known c0 st parent -> 0 <= lod ->
    process depth t parent lod base st = Ok st' ->
    sound c0 st' /\ tile_id_counter st <= tile_id_counter st'.
Proof.
  induction depth as [| depth IH];
    intros t parent lod base st st' Hs Hk Hlod H; [discriminate |].
  cbn [process_tile_structure] in H.
  apply bind_ok in H as ([tid st1] & Hown & H).
  assert (H1 : sound c0 st1 /\ known c0 st1 tid /\
               tile_id_counter st <= tile_id_counter st1).
  { destruct (is_implicit _).
    - apply (implicit_scan_sound c0 st) in Hown; [exact Hown | exact Hk |].
      cbn [fst snd known]; split; [exact Hs | split; [exact I | lia]].
    - destruct (py_or _ _) as [u |];
        [| injection Hown as <- <-; cbn [known];
           split; [exact Hs | split; [exact I | lia]]].
      destruct (negb (truthy (Some u)));
        [injection Hown as <- <-; cbn [known];
         split; [exact Hs | split; [exact I | lia]] |].
      destruct (endswith u ".json").
      + apply bind_ok in Hown as (doc & _ & Hown).
        apply bind_ok in Hown as (st2 & Hrec & Hown).
        injection Hown as <- <-.
        apply IH in Hrec as (Hs2 & Hle); auto.
        cbn [known]; auto.
      + destruct (endswith u ".glb");
          [| injection Hown as <- <-; cbn [known];
             split; [exact Hs | split; [exact I | lia]]].
        cbn [get_unique_tile_id] in Hown; injection Hown as <- <-.
        split; [| split].
        * apply (sound_emit c0 st); cbn; auto.
        * cbn; destruct Hs as ((Hc & _) & _); lia.
        * cbn; lia. }
  destruct H1 as (Hs1 & Hk1 & Hle1).
  destruct (children t) as [cs |]; [| injection H as <-; auto].
  apply (for_each_inv
           (fun s : state =>
              sound c0 s /\ tile_id_counter st1 <= tile_id_counter s))
    in H; [destruct H; split; [assumption | lia] | | split; [exact Hs1 | lia]].
  intros child st2 st3 (Hs2 & Hle2) Hc.
  destruct tid as [id |]; [| discriminate].
  apply IH in Hc as (Hs3 & Hle3); [split; [exact Hs3 | lia] | exact Hs2 | | lia].
  cbn [known] in *; lia.
Qed.

Lemma load_tileset_sound (depth : nat) (counter : Z) (tileset_path : string)
  (tiles : list descriptor) (counter' : Z) :
  load_tileset read_json os_walk path_join path_dirname path_relpath
    depth counter tileset_path
  = Ok (tiles, counter') ->
  exists st,
    sound counter st /\ Permutation (tiles_to_process st) tiles.
Proof.
  unfold load_tileset; intros H.
  apply bind_ok in H as (doc & _ & H).
  apply bind_ok in H as (st & Hrun & H).
  injection H as <- <-.
  exists st; split; [| apply py_sort_by_perm].
  apply (process_sound counter) in Hrun; [apply Hrun | | exact I | lia].
  split; [split; [simpl; lia | reflexivity] | constructor].
Qed.

(** X5. Every parent identifier in the list that [load_tileset] returns
    is the identifier of a descriptor of the same list, and that
    descriptor was discovered before the child: its identifier is the
    smaller one. A descriptor is never its own parent. *)
Theorem parents_are_listed (depth : nat) (counter : Z)
  (tileset_path : string) (tiles : list descriptor) (counter' : Z) :
  load_tileset read_json os_walk path_join path_dirname path_relpath
    depth counter tileset_path
  = Ok (tiles, counter') ->
  forall (d : descriptor) (p : Z),
    In d tiles -> parent_id d = Some p ->
    p < tile_id d /\
    exists d', In d' tiles /\ tile_id d' = p.
Proof.
  intros H d p Hin Hp.
  apply load_tileset_sound in H as (st & ((Hc & Hids) & Hall) & Hperm).
  assert (Hd : In d (tiles_to_process st))
    by (eapply Permutation_in; [apply Permutation_sym; exact Hperm | exact Hin]).
  rewrite Forall_forall in Hall.
  destruct (Hall d Hd) as (Hbefore & _).
  unfold parent_before in Hbefore; rewrite Hp in Hbefore.
  split; [lia |].
  assert (Hrange : counter < tile_id d
                   <= counter + Z.of_nat (List.length (tiles_to_process st))).
  { apply ids_from_range; rewrite <- Hids; now apply in_map. }
  assert (Hin' : In p (map tile_id (tiles_to_process st)))
    by (rewrite Hids; apply ids_from_In; lia).
  apply in_map_iff in Hin' as (d' & Hd' & Hin').
  exists d'; split; [| exact Hd'].
  eapply Permutation_in; [exact Hperm | exact Hin'].
Qed.

(** X6. No descriptor that [load_tileset] returns has a negative level:
    the root is at level 0, a child is one level below its tile, a
    nested document keeps the level, and a level parsed from a path is
    a numeral without a sign. *)
Theorem levels_not_negative (depth : nat) (counter : Z)
  (tileset_path : string) (tiles : list descriptor) (counter' : Z) :
  load_tileset read_json os_walk path_join path_dirname path_relpath
    depth counter tileset_path
  = Ok (tiles, counter') ->
  Forall (fun d => 0 <= lod_level d) tiles.
Proof.
  intros H.
  apply load_tileset_sound in H as (st & (_ & Hall) & Hperm).
  rewrite Forall_forall in *; intros d Hin.
  apply Hall; eapply Permutation_in;
    [apply Permutation_sym; exact Hperm | exact Hin].
Qed.

(** X7. A tile whose content is a tileset document whose root is that
    same tile, read from the same directory, is never left: whatever the
    depth of the stack, the traversal raises [RecursionError]. *)
Theorem document_in_itself (depth : nat) (t : tile) (parent : option Z)
  (lod : Z) (base : string) (st : state) (u : string) (nested : document) :
  let c := match tile_content t with Some c => c | None => empty_content end in
  is_implicit (uri c) = false ->
  py_or (uri c) (url c) = Some u ->
  truthy (Some u) = true ->
  endswith u ".json" = true ->
  read_json (path_join base u) = Ok nested ->
  root nested = Some t ->
  path_dirname (path_join base u) = base ->
  process depth t parent lod base st = Raise RecursionError.
Proof.
  intros c Himp Hu Htruthy Hjson Hread Hroot Hdir.
  induction depth as [| depth IH]; [reflexivity |].
  cbn [process_tile_structure]; fold c.
  rewrite Himp, Hu, Htruthy, Hjson, Hread; cbn [negb bind].
  now rewrite Hroot, Hdir, IH.
Qed.

(** X8. A tile whose content names neither a mesh asset ([.glb]) nor a
    tileset document ([.json]), and no template, is dropped without a
    word: without children, or with an empty list of children, the call
    returns and leaves the list and the counter as they were; with a
    child it raises [UnboundLocalError]. *)
Theorem other_content_is_dropped (depth : nat) (t : tile)
  (parent : option Z) (lod : Z) (base : string) (st : state) :
  let c := match tile_content t with Some c => c | None => empty_content end in
  is_implicit (uri c) = false ->
  (forall u, py_or (uri c) (url c) = Some u ->
             endswith u ".json" = false /\ endswith u ".glb" = false) ->
  (children t = None \/ children t = Some [] ->
   process (S depth) t parent lod base st = Ok st) /\
  (forall child cs,
     children t = Some (child :: cs) ->
     process (S depth) t parent lod base st = Raise UnboundLocalError).
Proof.
  intros c Himp Hother.
  assert (Hown :
    (if is_implicit (uri c) then
       implicit_scan os_walk path_join path_relpath base parent
         (geometricError t) (None, st)
     else
       match py_or (uri c) (url c) with
       | Some tile_url =>
           if negb (truthy (Some tile_url)) then Ok (None, st)
           else if endswith tile_url ".json" then
             nested_tileset_data <- read_json (path_join base tile_url) ;;
             st' <- process depth
                      (match root nested_tileset_data with
                       | Some r => r
                       | None => empty_tile
                       end)
                      parent lod (path_dirname (path_join base tile_url)) st ;;
             Ok (None, st')
           else if endswith tile_url ".glb" then
             let '(id, st') := get_unique_tile_id st in
             Ok (Some id,
                 append {| lod_level := lod;
                           tile_id := id;
                           parent_id := parent;
                           tile_url := tile_url;
                           screen_space_error := geometricError t;
                           base_path := base;
                           xyz := None |} st')
           else Ok (None, st)
       | None => Ok (None, st)
       end) = Ok (None, st)).
  { rewrite Himp.
    destruct (py_or (uri c) (url c)) as [u |]; [| reflexivity].
    destruct (Hother u eq_refl) as (-> & ->).
    now destruct (negb (truthy (Some u))). }
  split.
  - intros Hcs; cbn [process_tile_structure]; fold c.
    rewrite Hown; cbn [bind].
    destruct Hcs as [-> | ->]; reflexivity.
  - intros child cs Hcs; cbn [process_tile_structure]; fold c.
    rewrite Hown, Hcs; reflexivity.
Qed.

End Walk.

(** ** Trees of mesh assets *)

Lemma preorder_length (base : string) :
  forall (t : tile) (parent : option Z) (lod c : Z),
    List.length (preorder base t parent lod c) = size t.
Proof.
  fix IH 1; intros [tc e cs] parent lod c.
  cbn [preorder size List.length]; f_equal.
  destruct cs as [l |]; [| reflexivity].
  generalize (c + 1) at 2; intros c'.
  revert c'; induction l as [| child l IHl]; intros c'; cbn [thread fold_right];
    [reflexivity |].
  rewrite length_app, IH, IHl; reflexivity.
Qed.

Lemma extend_nil (st : state) : extend st [] = st.
Proof.
  destruct st as [c ts]; unfold extend; cbn.
  f_equal; [lia | apply app_nil_r].
Qed.

Lemma extend_app (st : state) (ds ds' : list descriptor) :
  extend (extend st ds) ds' = extend st (ds ++ ds').
Proof.
  unfold extend; cbn [tile_id_counter tiles_to_process].
  rewrite length_app, app_assoc; f_equal; lia.
Qed.

Section Preorder.

Variable read_json : string -> result document.
Variable os_walk : string -> list (string * list string).
Variable path_join : string -> string -> string.
Variable path_dirname : string -> string.
Variable path_relpath : string -> string -> string.

Local Notation "'process'" :=
  (process_tile_structure read_json os_walk path_join path_dirname
     path_relpath).

(** The loop over the children, when each child is traversed in
    preorder. *)
Lemma children_preorder (depth : nat) (id lod : Z) (base : string)
  (l : list tile) :
  (forall child st,
     In child l ->
     process depth child (Some id) (lod + 1) base st
     = Ok (extend st (preorder base child (Some id) (lod + 1)
                        (tile_id_counter st)))) ->
  forall st,
    for_each
      (fun child st2 => process depth child (Some id) (lod + 1) base st2)
      l st
    = Ok (extend st
            (thread (fun child c' => preorder base child (Some id) (lod + 1) c')
                    l (tile_id_counter st))).
Proof.
  induction l as [| child l IH]; intros Hl st; cbn [for_each thread].
  - now rewrite extend_nil.
  - rewrite Hl by (left; reflexivity); cbn [bind].
    rewrite IH by (intros c' st' Hc'; apply Hl; now right).
    now rewrite extend_app.
Qed.

Lemma process_preorder (depth : nat) :
  forall (t : tile) (parent : option Z) (lod : Z) (base : string) (st : state),
    explicit t = true -> (height t <= depth)%nat ->
    process depth t parent lod base st
    = Ok (extend st (preorder base t parent lod (tile_id_counter st))).
Proof.
  induction depth as [| depth IH]; intros [c e cs] parent lod base st He Hh;
    [cbn [height] in Hh; lia |].
  cbn [explicit] in He; apply andb_prop in He as (Hemit & Hcs).
  unfold emits in Hemit; cbn [tile_content] in Hemit.
  cbn [process_tile_structure tile_content geometricError children preorder].
  set (tc := match c with Some c => c | None => empty_content end) in *.
  apply andb_prop in Hemit as (Himp & Hurl).
  apply negb_true_iff in Himp; rewrite Himp.
  destruct (py_or (uri tc) (url tc)) as [u |]; [| discriminate].
  apply andb_prop in Hurl as (Hurl & Hglb).
  apply andb_prop in Hurl as (Htruthy & Hjson).
  apply negb_true_iff in Hjson.
  rewrite Htruthy, Hjson, Hglb; cbn [negb get_unique_tile_id bind].
  destruct cs as [l |]; [| reflexivity].
  rewrite children_preorder.
  - unfold extend, append; cbn [tile_id_counter tiles_to_process List.length].
    rewrite <- app_assoc; cbn [app]; f_equal; f_equal; lia.
  - intros child st2 Hin; apply IH.
    + rewrite forallb_forall in Hcs; now apply Hcs.
    + cbn [height] in Hh; pose proof (height_child child l Hin); lia.
Qed.

(** X9. On a tree all of whose tiles name a mesh asset, with a stack
    deeper than the tree, the traversal appends the tiles of the tree in
    preorder and numbers them in that order: one descriptor per tile, a
    tile before its children, the children in the order of the document,
    each with the identifier of its tile as parent and a level one more
    than that of its tile. *)
Theorem explicit_tree_in_preorder (depth : nat) (t : tile)
  (parent : option Z) (lod : Z) (base : string) (st : state) :
  explicit t = true -> (height t <= depth)%nat ->
  process depth t parent lod base st
  = Ok (extend st (preorder base t parent lod (tile_id_counter st))) /\
  List.length (preorder base t parent lod (tile_id_counter st)) = size t.
Proof.
  intros He Hh; split;
    [now apply process_preorder | apply preorder_length].
Qed.

End Preorder.

Lemma parents_are_listed_witness :
  exists tiles,
    load_tileset (Samples.document_at "ts.json" Samples.full_root)
      Samples.no_walk Samples.join Samples.dirname Samples.relpath
      10 0 "ts.json"
    = Ok (tiles, 5) /\
    In (mkDescriptor 2 4 (Some 3) "c.glb" (JInt 1) "." None) tiles /\
    exists d', In d' tiles /\ tile_id d' = 3.
Proof.
  eexists; split; [vm_compute; reflexivity |].
  split; [do 4 right; left; reflexivity |].
  eapply (parents_are_listed
            (Samples.document_at "ts.json" Samples.full_root)
            Samples.no_walk Samples.join Samples.dirname Samples.relpath
            10 0 "ts.json" _ 5);
    [vm_compute; reflexivity | do 4 right; left; reflexivity | reflexivity].
Defined.

Lemma levels_not_negative_witness :
  exists tiles,
    load_tileset (Samples.document_at "ts.json" Samples.full_root)
      Samples.no_walk Samples.join Samples.dirname Samples.relpath
      10 0 "ts.json"
    = Ok (tiles, 5) /\
    Forall (fun d => 0 <= lod_level d) tiles.
Proof.
  eexists; split; [vm_compute; reflexivity |].
  eapply (levels_not_negative
            (Samples.document_at "ts.json" Samples.full_root)
            Samples.no_walk Samples.join Samples.dirname Samples.relpath
            10 0 "ts.json" _ 5).
  vm_compute; reflexivity.
Defined.

Lemma document_in_itself_witness :
  Samples.document_at "./ts.json" MoreSamples.loop_tile
    (Samples.join "." "ts.json")
  = Ok (mkDocument (Some MoreSamples.loop_tile)) /\
  process_tile_structure
    (Samples.document_at "./ts.json" MoreSamples.loop_tile)
    Samples.no_walk Samples.join Samples.dirname Samples.relpath
    1000 MoreSamples.loop_tile None 0 "." (mkState 0 [])
  = Raise RecursionError.
Proof.
  split; [reflexivity |].
  apply (document_in_itself
           (Samples.document_at "./ts.json" MoreSamples.loop_tile)
           Samples.no_walk Samples.join Samples.dirname Samples.relpath
           1000 MoreSamples.loop_tile None 0 "." (mkState 0 [])
           "ts.json" (mkDocument (Some MoreSamples.loop_tile)));
    reflexivity.
Defined.

Lemma other_content_is_dropped_witness :
  is_implicit (uri (mkContent None (Some "model.b3dm"%string))) = false /\
  process_tile_structure
    (Samples.document_at "ts.json" Samples.full_root)
    Samples.no_walk Samples.join Samples.dirname Samples.relpath
    1 (MoreSamples.batched (Some [])) None 0 "." (mkState 0 [])
  = Ok (mkState 0 []) /\
  process_tile_structure
    (Samples.document_at "ts.json" Samples.full_root)
    Samples.no_walk Samples.join Samples.dirname Samples.relpath
    1 (MoreSamples.batched (Some [Samples.leaf "a.glb" JNull])) None 0 "."
    (mkState 0 [])
  = Raise UnboundLocalError.
Proof.
  split; [reflexivity |]; split.
  - apply (other_content_is_dropped
             (Samples.document_at "ts.json" Samples.full_root)
             Samples.no_walk Samples.join Samples.dirname Samples.relpath
             0 (MoreSamples.batched (Some [])) None 0 "." (mkState 0 []));
      [reflexivity | intros u [= <-]; split; reflexivity
       | right; reflexivity].
  - apply (proj2 (other_content_is_dropped
             (Samples.document_at "ts.json" Samples.full_root)
             Samples.no_walk Samples.join Samples.dirname Samples.relpath
             0 (MoreSamples.batched (Some [Samples.leaf "a.glb" JNull]))
             None 0 "." (mkState 0 []) eq_refl
             (fun u H =>
                match H in _ = o
                      return match o with
                             | Some u' =>
                                 endswith u' ".json" = false /\
                                 endswith u' ".glb" = false
                             | None => True
                             end
                with eq_refl => conj eq_refl eq_refl end))
             (Samples.leaf "a.glb" JNull) []).
    reflexivity.
Defined.

Lemma explicit_tree_in_preorder_witness :
  (explicit Samples.full_root = true /\
   (height Samples.full_root <= 10)%nat) /\
  exists ds,
    process_tile_structure
      (Samples.document_at "ts.json" Samples.full_root)
      Samples.no_walk Samples.join Samples.dirname Samples.relpath
      10 Samples.full_root None 0 "." (mkState 7 [])
    = Ok (mkState 12 ds) /\
    map tile_id ds = [8; 9; 10; 11; 12] /\
    map parent_id ds = [None; Some 8; Some 8; Some 10; Some 8] /\
    map lod_level ds = [0; 1; 1; 2; 1].
Proof.
  split; [split; [reflexivity | simpl; lia] |].
  destruct (explicit_tree_in_preorder
              (Samples.document_at "ts.json" Samples.full_root)
              Samples.no_walk Samples.join Samples.dirname Samples.relpath
              10 Samples.full_root None 0 "." (mkState 7 []) eq_refl)
    as (Hrun & _); [simpl; lia |].
  eexists; split; [rewrite Hrun; vm_compute; reflexivity |].
  repeat split.
Defined.

End TraversalMore.

(* ================================================================== *)
(** * More on the report *)
(* ================================================================== *)

Module ReportMore.

Import Raster Traversal Report ReportSpec ReportFacts.

(** ** What a summary that was computed holds *)

(** A loop that appended one result for each element, read backwards. *)
Lemma collect_inv {A B} (f : A -> result B) (l : list A) (acc out : list B) :
  for_each (fun a acc => b <- f a ;; Ok (acc ++ [b])) l acc = Ok out ->
  exists bs, out = acc ++ bs /\ Forall2 (fun a b => f a = Ok b) l bs.
Proof.
  revert acc; induction l as [| a l IH]; intros acc H; cbn [for_each] in H.
  - injection H as <-; exists []; split; [now rewrite app_nil_r | constructor].
  - apply bind_ok in H as (acc1 & H1 & H).
    apply bind_ok in H1 as (b & Hb & H1); injection H1 as <-.
    apply IH in H as (bs & -> & Hall).
    exists (b :: bs); split; [now rewrite <- app_assoc | now constructor].
Qed.

Lemma row_lod_ok (r : row) (z : Z) :
  row_lod r = Ok z <-> dict_get "lod_level" r = Some (VInt z).
Proof.
  unfold row_lod, getitem.
  destruct (dict_get "lod_level" r) as [[| z' | q | s] |]; cbn [bind];
    split; intros H; try discriminate; now injection H as ->.
Qed.

Lemma grouped_rows_lod (rs : list row) (groups groups' : list (Z * list row)) :
  for_each (fun r groups => lod <- row_lod r ;;
                            Ok (group_append lod r groups)) rs groups
  = Ok groups' ->
  Forall (fun r => exists z, dict_get "lod_level" r = Some (VInt z)) rs.
Proof.
  revert groups; induction rs as [| r rs IH]; intros groups H;
    [constructor |].
  cbn [for_each] in H; apply bind_ok in H as (g1 & H1 & H).
  apply bind_ok in H1 as (lod & Hlod & _).
  constructor; [exists lod; now apply row_lod_ok | eauto].
Qed.

(** The groups that a summary was computed from. *)
Lemma lod_summary_inv (results summary : list row) :
  lod_summary results = Ok summary ->
  exists sorted : list (Z * list row),
    Forall (fun r => exists z, dict_get "lod_level" r = Some (VInt z))
           results /\
    NoDup (map fst sorted) /\
    (forall lod, In lod (map fst sorted) <-> rows_of lod results <> []) /\
    (forall lod g, In (lod, g) sorted ->
                   g = rows_of lod results /\ g <> []) /\
    Forall2 (fun p s => summarize (fst p) (snd p) = Ok s) sorted summary.
Proof.
  unfold lod_summary; intros H.
  apply bind_ok in H as (groups & Hg & Hrun).
  pose proof (grouped_rows_lod _ _ _ Hg) as Hlod.
  destruct (group_by_lod_grouped results Hlod) as (groups' & Hg' & Hnd & Hassoc).
  rewrite Hg in Hg'; injection Hg' as <-.
  set (sorted := py_sort_by fst groups) in *.
  pose proof (py_sort_by_perm fst groups) as Hperm; fold sorted in Hperm.
  exists sorted; split; [exact Hlod |]; split; [| split; [| split]].
  - eapply Permutation_NoDup; [apply Permutation_map; exact Hperm | exact Hnd].
  - intros lod.
    assert (Hiff : rows_of lod results <> [] <-> assoc lod groups <> None).
    { rewrite Hassoc; destruct (rows_of lod results); split; congruence. }
    rewrite Hiff, <- assoc_keys.
    split; apply Permutation_in, Permutation_map;
      [now apply Permutation_sym | exact Hperm].
  - intros lod g Hin.
    apply (Permutation_in _ (Permutation_sym Hperm)) in Hin.
    apply (In_assoc _ _ _ Hnd) in Hin; rewrite Hassoc in Hin.
    destruct (rows_of lod results); [discriminate |].
    injection Hin as <-; split; [reflexivity | discriminate].
  - rewrite (for_each_ext _
               (fun p acc => b <- summarize (fst p) (snd p) ;; Ok (acc ++ [b])))
      in Hrun by (now intros [lod g] acc).
    apply collect_inv in Hrun as (bs & -> & Hall); exact Hall.
Qed.

(** The loop over the keys never writes under [lod_level] or [tile_id]. *)
Lemma average_key_keeps (group : list row) (first : row) (key k : string)
  (avg avg' : row) :
  k = "lod_level"%string \/ k = "tile_id"%string ->
  average_key group first key avg = Ok avg' ->
  dict_get k avg' = dict_get k avg.
Proof.
  intros Hk H; unfold average_key in H.
  destruct (String.eqb_spec key "total_polygons") as [-> | Htp].
  - apply bind_ok in H as (sum & _ & H); injection H as <-.
    rewrite dict_get_set.
    destruct Hk as [-> | ->]; reflexivity.
  - destruct (String.eqb_spec key "lod_level") as [-> | Hl];
      [now injection H as <- |].
    destruct (String.eqb_spec key "tile_id") as [-> | Ht];
      [now injection H as <- |].
    cbn [orb negb] in H.
    apply bind_ok in H as (v & _ & H).
    destruct (is_number v); [| now injection H as <-].
    apply bind_ok in H as (sum & _ & H).
    apply bind_ok in H as (m & _ & H); injection H as <-.
    rewrite dict_get_set.
    destruct (String.eqb_spec key k) as [-> | _]; [| reflexivity].
    destruct Hk; contradiction.
Qed.

Lemma getitem_first {A} (l : list A) (a : A) :
  py_getitem l 0 = Ok a -> exists rest, l = a :: rest.
Proof.
  destruct l as [| b l]; [discriminate |].
  change (py_getitem (b :: l) 0) with (Ok b).
  intros [= ->]; eauto.
Qed.

(** A summary row holds its level and the size of its group. *)
Lemma summarize_count (lod : Z) (g : list row) (s : row) :
  summarize lod g = Ok s ->
  dict_get "lod_level" s = Some (VInt lod) /\
  dict_get "tile_id" s = Some (VInt (Z.of_nat (List.length g))).
Proof.
  unfold summarize; intros H.
  apply bind_ok in H as (first & _ & H).
  revert H.
  apply (for_each_inv
           (fun avg : row =>
              dict_get "lod_level" avg = Some (VInt lod) /\
              dict_get "tile_id" avg
              = Some (VInt (Z.of_nat (List.length g)))));
    [| split; reflexivity].
  intros key avg avg' (Hl & Ht) Hstep; split.
  - rewrite <- Hl; eapply average_key_keeps; [now left | exact Hstep].
  - rewrite <- Ht; eapply average_key_keeps; [now right | exact Hstep].
Qed.

(** A summary row of a group whose first row has the column of the
    polygons holds the sum of that column. *)
Lemma summarize_polygons (lod : Z) (first : row) (rest : list row) (s : row) :
  summarize lod (first :: rest) = Ok s ->
  In "total_polygons"%string (keys first) ->
  exists v,
    dict_get "total_polygons" s = Some v /\
    (Q_of_val v == Qsum (column "total_polygons" (first :: rest)))%Q.
Proof.
  unfold summarize; intros H Hin.
  change (py_getitem (first :: rest) 0) with (Ok first) in H; cbn [bind] in H.
  apply in_split in Hin as (k1 & k2 & Hkeys); rewrite Hkeys in H.
  apply for_each_prefix in H as (avg1 & _ & H).
  cbn [for_each] in H; apply bind_ok in H as (avg2 & Hstep & H).
  unfold average_key in Hstep; cbn [String.eqb Ascii.eqb Bool.eqb] in Hstep.
  apply bind_ok in Hstep as (sum & Hsum & Hstep); injection Hstep as <-.
  exists (val_of_num sum); split;
    [| rewrite Q_of_val_num; now apply sum_key_Q].
  revert H.
  apply (for_each_inv
           (fun avg : row =>
              dict_get "total_polygons" avg = Some (val_of_num sum)));
    [| now rewrite dict_get_set].
  intros key avg avg' Havg Hkey; unfold average_key in Hkey.
  destruct (String.eqb_spec key "total_polygons") as [-> | Htp].
  - rewrite Hsum in Hkey; cbn [bind] in Hkey; injection Hkey as <-.
    now rewrite dict_get_set.
  - destruct (negb _); [| now injection Hkey as <-].
    apply bind_ok in Hkey as (v & _ & Hkey).
    destruct (is_number v); [| now injection Hkey as <-].
    apply bind_ok in Hkey as (sum' & _ & Hkey).
    apply bind_ok in Hkey as (m & _ & Hkey); injection Hkey as <-.
    rewrite dict_get_set.
    destruct (String.eqb_spec key "total_polygons"); [contradiction | exact Havg].
Qed.

(** ** Sums over the levels *)

Lemma not_in_levels (z : Z) (levels : list Z) :
  ~ In z levels -> existsb (Z.eqb z) levels = false.
Proof.
  intros H; destruct (existsb (Z.eqb z) levels) eqn:E; [| reflexivity].
  apply existsb_exists in E as (l & Hl & El).
  apply Z.eqb_eq in El; subst l; contradiction.
Qed.

(** One unit at the level [z], counted over levels without repetition. *)
Lemma count_level (z : Z) (n : Z -> Z) (levels : list Z) :
  NoDup levels ->
  py_sum (map (fun l => (if z =? l then 1 else 0) + n l) levels)
  = (if existsb (Z.eqb z) levels then 1 else 0) + py_sum (map n levels).
Proof.
  induction 1 as [| l ls Hl _ IH]; [reflexivity |].
  cbn [map existsb]; rewrite !RasterFacts.py_sum_cons, IH.
  destruct (Z.eqb_spec z l) as [-> | _]; cbn [orb]; [| lia].
  rewrite (not_in_levels l ls Hl); lia.
Qed.

Lemma rows_of_cons (lod z : Z) (r : row) (rs : list row) :
  dict_get "lod_level" r = Some (VInt z) ->
  rows_of lod (r :: rs) = (if z =? lod then [r] else []) ++ rows_of lod rs.
Proof.
  intros Hr; unfold rows_of; cbn [filter].
  unfold has_lod at 1; rewrite Hr; now destruct (z =? lod).
Qed.

(** The groups of the levels share out the rows. *)
Lemma count_partition (levels : list Z) (results : list row) :
  NoDup levels ->
  Forall (fun r => exists z, dict_get "lod_level" r = Some (VInt z) /\
                             In z levels) results ->
  py_sum (map (fun l => Z.of_nat (List.length (rows_of l results))) levels)
  = Z.of_nat (List.length results).
Proof.
  intros Hnd; induction 1 as [| r rs (z & Hz & Hin) _ IH].
  - induction levels as [| l ls IHl]; [reflexivity |].
    inversion Hnd; subst.
    cbn [map]; rewrite RasterFacts.py_sum_cons, IHl by assumption.
    reflexivity.
  - rewrite (map_ext _
               (fun l => (if z =? l then 1 else 0)
                         + Z.of_nat (List.length (rows_of l rs)))).
    + rewrite count_level, IH by exact Hnd.
      replace (existsb (Z.eqb z) levels) with true.
      * cbn [List.length]; lia.
      * symmetry; apply existsb_exists; exists z; split;
          [exact Hin | apply Z.eqb_refl].
    + intros l; rewrite (rows_of_cons l z r rs Hz), length_app.
      destruct (z =? l); cbn [List.length]; lia.
Qed.

#[local] Open Scope Q_scope.

Lemma fold_Qplus_shift (l : list Q) (a b : Q) :
  fold_left Qplus l (a + b) == a + fold_left Qplus l b.
Proof.
  revert b; induction l as [| q l IH]; intros b; cbn [fold_left];
    [reflexivity |].
  rewrite <- IH; apply fold_Qplus_eq; ring.
Qed.

Lemma Qsum_cons (q : Q) (l : list Q) : Qsum (q :: l) == q + Qsum l.
Proof.
  unfold Qsum; cbn [fold_left].
  rewrite <- fold_Qplus_shift; apply fold_Qplus_eq; ring.
Qed.

Lemma Qsum_app (l1 l2 : list Q) : Qsum (l1 ++ l2) == Qsum l1 + Qsum l2.
Proof.
  induction l1 as [| q l1 IH]; cbn [app].
  - unfold Qsum at 2; cbn [fold_left]; ring.
  - rewrite !Qsum_cons, IH; ring.
Qed.

Lemma Qsum_ext {A} (f g : A -> Q) (l : list A) :
  (forall a, In a l -> f a == g a) -> Qsum (map f l) == Qsum (map g l).
Proof.
  induction l as [| a l IH]; intros H; cbn [map]; [reflexivity |].
  rewrite !Qsum_cons, IH, (H a) by (try (now left); intros b Hb; apply H; now right).
  reflexivity.
Qed.

(** One amount at the level [z], summed over levels without repetition. *)
Lemma sum_level (z : Z) (q : Q) (n : Z -> Q) (levels : list Z) :
  NoDup levels ->
  Qsum (map (fun l => (if (z =? l)%Z then q else 0) + n l) levels)
  == (if existsb (Z.eqb z) levels then q else 0) + Qsum (map n levels).
Proof.
  induction 1 as [| l ls Hl _ IH]; [unfold Qsum; cbn; ring |].
  cbn [map existsb]; rewrite !Qsum_cons, IH.
  destruct (Z.eqb_spec z l) as [-> | _]; cbn [orb]; [| ring].
  rewrite (not_in_levels l ls Hl); ring.
Qed.

(** The sums of a column over the groups add up to its sum over the
    rows. *)
Lemma sum_partition (key : string) (levels : list Z) (results : list row) :
  NoDup levels ->
  Forall (fun r => exists z, dict_get "lod_level" r = Some (VInt z) /\
                             In z levels) results ->
  Qsum (map (fun l => Qsum (column key (rows_of l results))) levels)
  == Qsum (column key results).
Proof.
  intros Hnd; induction 1 as [| r rs (z & Hz & Hin) _ IH].
  - induction levels as [| l ls IHl]; [reflexivity |].
    inversion Hnd; subst.
    cbn [map]; rewrite Qsum_cons, IHl by assumption.
    unfold rows_of, column, Qsum; cbn; ring.
  - set (q := match dict_get key r with
              | Some v => Q_of_val v
              | None => 0
              end).
    rewrite (Qsum_ext _
               (fun l => (if (z =? l)%Z then q else 0)
                         + Qsum (column key (rows_of l rs)))).
    + rewrite sum_level, IH by exact Hnd.
      replace (existsb (Z.eqb z) levels) with true.
      * unfold column at 2; cbn [map]; fold (column key rs); fold q.
        now rewrite Qsum_cons.
      * symmetry; apply existsb_exists; exists z; split;
          [exact Hin | apply Z.eqb_refl].
    + intros l _; rewrite (rows_of_cons l z r rs Hz).
      unfold column; rewrite map_app; fold (column key (rows_of l rs)).
      rewrite Qsum_app.
      destruct (z =? l)%Z; cbn [map]; fold q;
        [rewrite Qsum_cons |]; unfold Qsum at 1; cbn [fold_left]; ring.
Qed.

#[local] Close Scope Q_scope.

(** Every row of the results is in the group of one of the levels. *)
Lemma rows_in_levels (results : list row) (levels : list Z) :
  Forall (fun r => exists z, dict_get "lod_level" r = Some (VInt z)) results ->
  (forall lod, In lod levels <-> rows_of lod results <> []) ->
  Forall (fun r => exists z, dict_get "lod_level" r = Some (VInt z) /\
                             In z levels) results.
Proof.
  intros Hlod Hlevels; rewrite Forall_forall in *; intros r Hr.
  destruct (Hlod r Hr) as (z & Hz); exists z; split; [exact Hz |].
  apply Hlevels; intros Hnil.
  assert (Hin : In r (rows_of z results)).
  { apply filter_In; split; [exact Hr |].
    unfold has_lod; rewrite Hz; apply Z.eqb_refl. }
  now rewrite Hnil in Hin.
Qed.

(** X10. Whenever the summary is computed, its tile counts share out the
    results: every summary row counts at least one tile, and the counts
    add up to the number of result rows. *)
Theorem tile_counts_add_up (results summary : list row) :
  lod_summary results = Ok summary ->
  py_sum (map tile_count summary) = Z.of_nat (List.length results) /\
  Forall (fun s => 0 < tile_count s) summary.
Proof.
  intros H.
  apply lod_summary_inv in H
    as (sorted & Hlod & Hnd & Hlevels & Hgroup & Hall).
  assert (Hcounts :
    map tile_count summary
    = map (fun l => Z.of_nat (List.length (rows_of l results)))
          (map fst sorted) /\
    Forall (fun s => 0 < tile_count s) summary).
  { clear Hnd Hlevels; revert Hgroup.
    induction Hall as [| [lod g] s sorted' summary' Hs _ IH]; intros Hgroup;
      [split; [reflexivity | constructor] |].
    destruct IH as (IH1 & IH2);
      [intros lod' g' Hin; apply Hgroup; now right |].
    cbn [fst snd] in Hs; apply summarize_count in Hs as (_ & Hs).
    destruct (Hgroup lod g (or_introl eq_refl)) as (Hg & Hne).
    assert (Hc : tile_count s = Z.of_nat (List.length (rows_of lod results)))
      by (unfold tile_count; rewrite Hs, Hg; reflexivity).
    split.
    - cbn [map fst]; now rewrite Hc, IH1.
    - constructor; [| exact IH2].
      rewrite Hc, <- Hg; destruct g; [contradiction | cbn [List.length]; lia]. }
  destruct Hcounts as (-> & Hpos); split; [| exact Hpos].
  apply count_partition; [exact Hnd |].
  now apply rows_in_levels.
Qed.

(** X11. Whenever the summary is computed for results that all have the
    column [total_polygons], the polygon totals of the summary rows add
    up to the polygon total of the result rows: no polygon is lost or
    counted twice by the grouping. *)
Theorem polygons_add_up (results summary : list row) :
  Forall (fun r => In "total_polygons"%string (keys r)) results ->
  lod_summary results = Ok summary ->
  (Qsum (column "total_polygons" summary)
   == Qsum (column "total_polygons" results))%Q.
Proof.
  intros Hcol H.
  apply lod_summary_inv in H
    as (sorted & Hlod & Hnd & Hlevels & Hgroup & Hall).
  rewrite <- (sum_partition "total_polygons" (map fst sorted) results Hnd)
    by now apply rows_in_levels.
  clear Hnd Hlevels Hlod; revert Hgroup.
  induction Hall as [| [lod g] s sorted' summary' Hs _ IH]; intros Hgroup;
    [reflexivity |].
  cbn [map fst]; unfold column at 1; cbn [map].
  fold (column "total_polygons" summary').
  rewrite !Qsum_cons, IH by (intros lod' g' Hin; apply Hgroup; now right).
  apply Qplus_inj_r.
  cbn [fst snd] in Hs.
  destruct (Hgroup lod g (or_introl eq_refl)) as (Hg & Hne).
  destruct g as [| first rest]; [contradiction |].
  assert (Hfirst : In first results).
  { assert (Hin : In first (rows_of lod results))
      by (rewrite <- Hg; now left).
    unfold rows_of in Hin; now apply filter_In in Hin. }
  rewrite Forall_forall in Hcol.
  destruct (summarize_polygons lod first rest s Hs (Hcol first Hfirst))
    as (v & -> & Hv).
  now rewrite Hv, Hg.
Qed.

(** ** The order of the results *)

Lemma strict_sorted_unique (l l' : list Z) :
  StronglySorted Z.lt l -> StronglySorted Z.lt l' ->
  (forall z, In z l <-> In z l') -> l = l'.
Proof.
  intros H; revert l'; induction H as [| a l Hl IH Ha]; intros l' H' Hin.
  - destruct l' as [| b l']; [reflexivity |].
    destruct (proj2 (Hin b) (or_introl eq_refl)).
  - inversion H' as [| b l'' Hl' Hb]; subst.
    + destruct (proj1 (Hin a) (or_introl eq_refl)).
    + rewrite Forall_forall in Ha, Hb.
      assert (Hab : a = b).
      { destruct (proj1 (Hin a) (or_introl eq_refl)) as [Hba | Hal];
          [now symmetry |].
        destruct (proj2 (Hin b) (or_introl eq_refl)) as [Hab | Hbl];
          [exact Hab |].
        specialize (Ha b Hbl); specialize (Hb a Hal); lia. }
      subst b; f_equal; apply IH; [exact Hl' |].
      intros z; split; intros Hz.
      * destruct (proj1 (Hin z) (or_intror Hz)) as [<- | Hz'];
          [specialize (Ha a Hz); lia | exact Hz'].
      * destruct (proj2 (Hin z) (or_intror Hz)) as [<- | Hz'];
          [specialize (Hb a Hz); lia | exact Hz'].
Qed.

Lemma groups_unique (F : Z -> list row) (s s' : list (Z * list row)) :
  map fst s = map fst s' ->
  (forall lod g, In (lod, g) s -> g = F lod) ->
  (forall lod g, In (lod, g) s' -> g = F lod) ->
  s = s'.
Proof.
  revert s'; induction s as [| [k g] s IH]; intros [| [k' g'] s'];
    cbn [map fst]; intros Hk Hs Hs'; try discriminate; [reflexivity |].
  injection Hk as <- Hk.
  rewrite (Hs k g), (Hs' k g') by now left.
  f_equal; apply IH; [exact Hk | |]; intros lod g0 Hin;
    [apply Hs | apply Hs']; now right.
Qed.

(** The groups in the order in which the summary walks them. *)
Lemma sorted_groups (results : list row) :
  Forall (fun r => exists z, dict_get "lod_level" r = Some (VInt z))
         results ->
  exists groups,
    group_by_lod results = Ok groups /\
    StronglySorted Z.lt (map fst (py_sort_by fst groups)) /\
    (forall lod, In lod (map fst (py_sort_by fst groups)) <->
                 rows_of lod results <> []) /\
    (forall lod g, In (lod, g) (py_sort_by fst groups) ->
                   g = rows_of lod results).
Proof.
  intros Hlod.
  destruct (group_by_lod_grouped results Hlod) as (groups & Hg & Hnd & Hassoc).
  pose proof (py_sort_by_perm fst groups) as Hperm.
  exists groups; split; [exact Hg |]; split; [| split].
  - apply sorted_keys_strict; [apply py_sort_by_sorted |].
    eapply Permutation_NoDup; [apply Permutation_map; exact Hperm | exact Hnd].
  - intros lod.
    assert (Hiff : rows_of lod results <> [] <-> assoc lod groups <> None).
    { rewrite Hassoc; destruct (rows_of lod results); split; congruence. }
    rewrite Hiff, <- assoc_keys.
    split; apply Permutation_in, Permutation_map;
      [now apply Permutation_sym | exact Hperm].
  - intros lod g Hin.
    apply (Permutation_in _ (Permutation_sym Hperm)) in Hin.
    apply (In_assoc _ _ _ Hnd) in Hin; rewrite Hassoc in Hin.
    destruct (rows_of lod results); [discriminate |].
    now injection Hin as <-.
Qed.

(** X16. The summary depends on the results only through the rows of
    each level and their order within the level: two lists of results
    with the same rows for every level have the same summary, or fail
    with the same exception. The order in which tiles of different
    levels arrive is of no consequence. *)
Theorem summary_by_rows_of_level (results results' : list row) :
  Forall (fun r => exists z, dict_get "lod_level" r = Some (VInt z))
         results ->
  Forall (fun r => exists z, dict_get "lod_level" r = Some (VInt z))
         results' ->
  (forall lod, rows_of lod results' = rows_of lod results) ->
  lod_summary results' = lod_summary results.
Proof.
  intros Hlod Hlod' Hrows.
  destruct (sorted_groups results Hlod)
    as (groups & Hg & Hsorted & Hkeys & Hcontent).
  destruct (sorted_groups results' Hlod')
    as (groups' & Hg' & Hsorted' & Hkeys' & Hcontent').
  unfold lod_summary; rewrite Hg, Hg'; cbn [bind].
  replace (py_sort_by fst groups') with (py_sort_by fst groups);
    [reflexivity |].
  apply (groups_unique (fun lod => rows_of lod results)).
  - apply strict_sorted_unique; [exact Hsorted | exact Hsorted' |].
    intros z; now rewrite Hkeys, Hkeys', Hrows.
  - exact Hcontent.
  - intros lod g Hin; rewrite <- Hrows; now apply Hcontent'.
Qed.

(** ** The lines of a report that was written *)

Section Shape.

Variable fmt4 : Q -> string.

Lemma writerow_inv (fieldnames : list string) (r : row) (l : list pyval) :
  writerow fieldnames r = Ok l ->
  l = line fieldnames r /\ incl (keys r) fieldnames.
Proof.
  unfold writerow.
  destruct (forallb _ (keys r)) eqn:E; [| discriminate].
  intros [= <-]; split; [reflexivity |].
  rewrite forallb_forall in E; intros k Hk.
  apply E, existsb_exists in Hk as (k' & Hk' & Heq).
  apply String.eqb_eq in Heq; now subst k'.
Qed.

Lemma writerows_inv (fieldnames : list string) (rows : list row)
  (out out' : list (list pyval)) :
  writerows fmt4 fieldnames rows out = Ok out' ->
  out' = out ++ map (fun r => line fieldnames (rounded_row fmt4 r)) rows /\
  Forall (fun r => incl (keys r) fieldnames) rows.
Proof.
  unfold writerows; revert out.
  induction rows as [| r rows IH]; intros out H; cbn [for_each map] in *.
  - injection H as <-; split; [now rewrite app_nil_r | constructor].
  - apply bind_ok in H as (out1 & H1 & H).
    apply bind_ok in H1 as (l & Hl & H1); injection H1 as <-.
    apply writerow_inv in Hl as (-> & Hincl).
    apply IH in H as (-> & Hall); split.
    + now rewrite <- app_assoc.
    + constructor; [now rewrite keys_rounded_row in Hincl | exact Hall].
Qed.

Lemma length_line (fieldnames : list string) (r : row) :
  List.length (line fieldnames r) = List.length fieldnames.
Proof. unfold line; apply length_map. Qed.

(** X12. Whenever the report is written, it has the header, one line
    for each summary row, three blank lines, the header again and one
    line for each result row in the order of the results; every line has
    as many cells as the first result row has columns; and no summary or
    result row has a column that the first result row lacks. *)
Theorem written_report_shape (results : list row)
  (lines : list (list pyval)) :
  write_results_to_csv fmt4 results = Ok lines ->
  exists (first : row) (rest summary : list row),
    results = first :: rest /\
    lod_summary results = Ok summary /\
    lines = report_lines fmt4 (keys first) summary results /\
    List.length lines
    = (List.length summary + List.length results + 5)%nat /\
    Forall (fun l => List.length l = List.length (keys first)) lines /\
    Forall (fun r => incl (keys r) (keys first)) (summary ++ results).
Proof.
  unfold write_results_to_csv; intros H.
  apply bind_ok in H as (summary & Hsum & H).
  apply bind_ok in H as (first & Hfirst & H).
  apply getitem_first in Hfirst as (rest & ->).
  apply bind_ok in H as (out & Hout & H).
  apply bind_ok in H as (blank & Hblank & H).
  apply writerows_inv in Hout as (-> & Hsummary).
  apply writerow_inv in Hblank as (-> & _).
  apply writerows_inv in H as (-> & Hrows).
  exists first, rest, summary.
  split; [reflexivity |]; split; [exact Hsum |].
  split; [unfold report_lines; now rewrite <- !app_assoc |].
  split; [| split].
  - rewrite !length_app, !length_map; cbn [List.length]; lia.
  - repeat (apply Forall_app; split);
      repeat constructor;
      try (apply Forall_forall; intros l Hl;
           apply in_map_iff in Hl as (r & <- & _));
      try apply length_line; apply length_map.
  - apply Forall_app; split; assumption.
Qed.

(** The report of well-typed rows that have the columns of the first. *)
Lemma write_report (first : row) (rest : list row) :
  well_typed (first :: rest) ->
  In "tile_id"%string (keys first) ->
  Forall (fun r => keys r = keys first) rest ->
  exists summary,
    lod_summary (first :: rest) = Ok summary /\
    write_results_to_csv fmt4 (first :: rest)
    = Ok (report_lines fmt4 (keys first) summary (first :: rest)).
Proof.
  intros Hwt Htid Hkeys.
  destruct (lod_summary_groups (first :: rest) Hwt)
    as (sorted & summary & Hsum & _ & _ & Hgroup & Hall).
  exists summary; split; [exact Hsum |].
  assert (Hsame : forall r, In r (first :: rest) -> keys r = keys first).
  { intros r [<- | Hr]; [reflexivity |].
    rewrite Forall_forall in Hkeys; auto. }
  assert (Hlod : In "lod_level"%string (keys first)).
  { destruct Hwt as (Hl & _); inversion Hl as [| r rs (z & Hz) _]; subst.
    eapply dict_get_in_keys; exact Hz. }
  assert (Hsummary : Forall (fun s => incl (keys s) (keys first)) summary).
  { apply (summary_keys (first :: rest) sorted); auto; apply Hwt. }
  unfold write_results_to_csv, report_lines.
  rewrite Hsum; cbn [bind].
  change (py_getitem (first :: rest) 0) with (Ok first); cbn [bind].
  rewrite writerows_lines by exact Hsummary; cbn [bind].
  rewrite writerow_line by (intros k []); cbn [bind].
  rewrite writerows_lines.
  - now rewrite <- !app_assoc.
  - apply Forall_forall; intros r Hr; rewrite (Hsame r Hr).
    apply incl_refl.
Qed.

(** ** From the tiles to the report *)

(** The decorated list that the sort of [main] works on. *)
Lemma keyed_rows (rows : list row) :
  Forall (fun r => exists z, dict_get "lod_level" r = Some (VInt z)) rows ->
  exists keyed,
    for_each (fun r acc => k <- row_lod r ;; Ok (acc ++ [(k, r)])) rows []
    = Ok keyed /\
    map snd keyed = rows /\
    Forall (fun p => dict_get "lod_level" (snd p) = Some (VInt (fst p)))
           keyed.
Proof.
  intros Hlod.
  destruct (for_each_collect (fun r => k <- row_lod r ;; Ok (k, r)) rows [])
    as (keyed & Hrun & Hall).
  { rewrite Forall_forall in Hlod; intros r Hr.
    destruct (Hlod r Hr) as (z & Hz); apply row_lod_ok in Hz.
    rewrite Hz; cbn [bind]; eauto. }
  exists keyed; split; [| clear Hrun Hlod].
  - cbn [app] in Hrun; rewrite <- Hrun; apply for_each_ext.
    intros r acc; now destruct (row_lod r).
  - induction Hall as [| r p rows keyed Hp _ (IH1 & IH2)];
      [split; [reflexivity | constructor] |].
    apply bind_ok in Hp as (k & Hk & Hp); injection Hp as <-.
    apply row_lod_ok in Hk.
    split; [cbn [map snd]; now rewrite IH1 | now constructor].
Qed.

Lemma rows_of_keyed (lod : Z) (keyed : list (Z * row)) :
  Forall (fun p => dict_get "lod_level" (snd p) = Some (VInt (fst p)))
         keyed ->
  rows_of lod (map snd keyed)
  = map snd (filter (fun p => fst p =? lod) keyed).
Proof.
  induction 1 as [| p keyed Hp _ IH]; [reflexivity |].
  cbn [map]; rewrite (rows_of_cons lod (fst p) (snd p) _ Hp), IH.
  cbn [filter]; now destruct (fst p =? lod).
Qed.

Lemma sorted_keyed (keyed : list (Z * row)) :
  Forall (fun p => dict_get "lod_level" (snd p) = Some (VInt (fst p)))
         keyed ->
  Forall (fun p => dict_get "lod_level" (snd p) = Some (VInt (fst p)))
         (py_sort_by fst keyed).
Proof.
  rewrite !Forall_forall; intros H p Hp; apply H.
  eapply Permutation_in;
    [apply Permutation_sym, py_sort_by_perm | exact Hp].
Qed.

(** The end of [main] on rows that are well typed and have the same
    columns: the rows are sorted by level, rows of one level keeping
    their order, and the report of the sorted rows is written. *)
Lemma main_report_written (results : list (option row))
  (first : row) (rest : list row) :
  valid results = first :: rest ->
  well_typed (valid results) ->
  In "tile_id"%string (keys first) ->
  Forall (fun r => keys r = keys first) rest ->
  exists (keyed : list (Z * row)) (summary : list row),
    StronglySorted (key_le fst) keyed /\
    Forall (fun p => dict_get "lod_level" (snd p) = Some (VInt (fst p)))
           keyed /\
    Permutation (valid results) (map snd keyed) /\
    (forall lod,
       rows_of lod (map snd keyed) = rows_of lod (valid results)) /\
    lod_summary (map snd keyed) = Ok summary /\
    main_report fmt4 results
    = Ok (report_lines fmt4 (keys first) summary (map snd keyed)).
Proof.
  intros Hvalid Hwt Htid Hkeys.
  destruct (keyed_rows (valid results) (proj1 Hwt))
    as (keyed & Hrun & Hsnd & Hkeyed).
  pose proof (sorted_keyed keyed Hkeyed) as Hsorted.
  pose proof (py_sort_by_perm fst keyed) as Hperm.
  set (sorted := py_sort_by fst keyed) in *.
  assert (Hrows : forall lod,
             rows_of lod (map snd sorted) = rows_of lod (valid results)).
  { intros lod; rewrite <- Hsnd, !rows_of_keyed by assumption.
    unfold sorted; now rewrite py_sort_by_stable. }
  assert (Hp : Permutation (valid results) (map snd sorted))
    by (rewrite <- Hsnd; now apply Permutation_map).
  assert (Hall : forall r, In r (map snd sorted) -> keys r = keys first).
  { intros r Hr.
    apply (Permutation_in _ (Permutation_sym Hp)) in Hr.
    rewrite Hvalid in Hr; destruct Hr as [<- | Hr]; [reflexivity |].
    rewrite Forall_forall in Hkeys; auto. }
  assert (Hwt' : well_typed (map snd sorted)).
  { split.
    - apply Forall_forall; intros r Hr.
      apply in_map_iff in Hr as (p & <- & Hp').
      rewrite Forall_forall in Hsorted; eauto.
    - intros lod; rewrite Hrows; apply Hwt. }
  destruct (map snd sorted) as [| first' rest'] eqn:E.
  { apply Permutation_sym, Permutation_nil in Hp.
    rewrite Hvalid in Hp; discriminate. }
  destruct (write_report first' rest' Hwt') as (summary & Hsum & Hwrite).
  - rewrite (Hall first') by now left. exact Htid.
  - apply Forall_forall; intros r Hr.
    rewrite (Hall r) by now right.
    symmetry; apply Hall; now left.
  - exists sorted, summary.
    split; [apply py_sort_by_sorted |].
    split; [exact Hsorted |].
    rewrite E.
    split; [exact Hp |]; split; [exact Hrows |]; split; [exact Hsum |].
    unfold main_report; fold (valid results).
    rewrite Hrun; cbn [bind]; fold sorted; rewrite E, Hwrite.
    now rewrite (Hall first') by now left.
Qed.

Lemma valid_jobs (jobs : list (descriptor * glb_stats)) (r : row) :
  In r (valid (map (fun j => Tile.process_tile_parallel (fst j) (snd j))
                   jobs)) <->
  exists d s, In (d, StatsOf s) jobs /\ r = tile_row d s.
Proof.
  induction jobs as [| [d st] jobs IH]; cbn [map valid flat_map fst snd].
  - split; [contradiction | intros (d & s & [] & _)].
  - fold (valid (map (fun j => Tile.process_tile_parallel (fst j) (snd j))
                     jobs)).
    rewrite in_app_iff, IH; split.
    + intros [Hr | (d' & s' & Hin & Hr)].
      * destruct st as [| | s]; cbn in Hr; try contradiction.
        destruct Hr as [<- | []]; exists d, s; split; [now left | reflexivity].
      * exists d', s'; split; [now right | exact Hr].
    + intros (d' & s' & [[= -> ->] | Hin] & Hr).
      * left; subst r; now left.
      * right; eauto.
Qed.

(** In a row of a tile, a column that is summed or averaged in the row
    of a tile like it holds a number. *)
Lemma tile_row_numeric (d0 d : descriptor) (s0 s : stats) (key : string) :
  alike d0 d -> In key columns ->
  averaged (tile_row d0 s0) key = true ->
  numeric_at key (tile_row d s) = true.
Proof.
  intros (Hp & He) Hkey Hav; unfold columns in Hkey; cbn [In] in Hkey.
  decompose [or] Hkey; try contradiction; subst key;
    try reflexivity; try discriminate Hav.
  - unfold averaged, numeric_at in *; cbn in Hav |- *.
    destruct (parent_id d0), (parent_id d); cbn in *; try reflexivity;
      try discriminate.
    destruct Hp as (_ & Hp); discriminate (Hp eq_refl).
  - unfold averaged, numeric_at in *; cbn in Hav |- *.
    destruct (screen_space_error d0), (screen_space_error d); cbn in *;
      try reflexivity; try discriminate;
      destruct He as (_ & He); discriminate (He eq_refl).
Qed.

(** The end of [main] on the rows of tiles. *)
Lemma tiles_report (jobs : list (descriptor * glb_stats)) :
  (exists d s, In (d, StatsOf s) jobs) ->
  (forall d s d' s',
     In (d, StatsOf s) jobs -> In (d', StatsOf s') jobs ->
     lod_level d = lod_level d' -> alike d d') ->
  let results :=
    map (fun j => Tile.process_tile_parallel (fst j) (snd j)) jobs in
  exists (keyed : list (Z * row)) (summary : list row),
    StronglySorted (key_le fst) keyed /\
    Forall (fun p => dict_get "lod_level" (snd p) = Some (VInt (fst p)))
           keyed /\
    Permutation (valid results) (map snd keyed) /\
    (forall lod,
       rows_of lod (map snd keyed) = rows_of lod (valid results)) /\
    lod_summary (map snd keyed) = Ok summary /\
    main_report fmt4 results
    = Ok (report_lines fmt4 columns summary (map snd keyed)).
Proof.
  intros (d1 & s1 & Hin1) Halike results.
  assert (Hrows : forall r, In r (valid results) ->
                            exists d s, In (d, StatsOf s) jobs /\
                                        r = tile_row d s)
    by (intros r; apply valid_jobs).
  assert (Hne : valid results <> []).
  { intros Hnil.
    assert (H : In (tile_row d1 s1) (valid results))
      by (apply valid_jobs; eauto).
    now rewrite Hnil in H. }
  destruct (valid results) as [| first rest] eqn:E; [contradiction |].
  assert (Hk : forall r, In r (first :: rest) -> keys r = columns).
  { intros r Hr; destruct (Hrows r Hr) as (d & s & _ & ->); reflexivity. }
  assert (Hwt : well_typed (valid results)).
  { rewrite E; split.
    - apply Forall_forall; intros r Hr.
      destruct (Hrows r Hr) as (d & s & _ & ->).
      exists (lod_level d); reflexivity.
    - intros lod.
      destruct (rows_of lod (first :: rest)) as [| g0 g] eqn:Eg; [exact I |].
      intros key Hkey Hav; apply Forall_forall; intros r Hr.
      assert (Hg : forall r', In r' (g0 :: g) ->
                exists d s, In (d, StatsOf s) jobs /\ r' = tile_row d s /\
                            lod_level d = lod).
      { intros r' Hr'; rewrite <- Eg in Hr'.
        apply filter_In in Hr' as (Hr' & Hl).
        destruct (Hrows r' Hr') as (d & s & Hin & ->).
        exists d, s; split; [exact Hin |]; split; [reflexivity |].
        unfold has_lod in Hl; cbn in Hl; now apply Z.eqb_eq in Hl. }
      destruct (Hg g0 (or_introl eq_refl)) as (d0 & s0 & Hin0 & -> & Hl0).
      destruct (Hg r Hr) as (d & s & Hin & -> & Hl).
      apply (tile_row_numeric d0 d s0 s);
        [apply (Halike d0 s0 d s); auto; congruence | exact Hkey | exact Hav]. }
  destruct (main_report_written results first rest E Hwt)
    as (keyed & summary & H).
  - rewrite (Hk first) by now left.
    right; left; reflexivity.
  - apply Forall_forall; intros r Hr.
    now rewrite (Hk r), (Hk first) by (try (now left); now right).
  - rewrite (Hk first) in H by now left.
    rewrite E in H; exists keyed, summary; exact H.
Qed.

(** X13. When at least one tile gave statistics and the tiles of one
    level that gave statistics agree on having a parent and on having a
    geometric error, the report is written: the tiles without statistics
    are left out, the rows of the others are sorted by level, those of
    one level in the order of the tiles, and the header is the fourteen
    columns of a result row. *)
Theorem report_of_tiles (jobs : list (descriptor * glb_stats)) :
  (exists d s, In (d, StatsOf s) jobs) ->
  (forall d s d' s',
     In (d, StatsOf s) jobs -> In (d', StatsOf s') jobs ->
     lod_level d = lod_level d' -> alike d d') ->
  let results :=
    map (fun j => Tile.process_tile_parallel (fst j) (snd j)) jobs in
  exists (keyed : list (Z * row)) (summary : list row),
    StronglySorted (key_le fst) keyed /\
    Forall (fun p => dict_get "lod_level" (snd p) = Some (VInt (fst p)))
           keyed /\
    Permutation (valid results) (map snd keyed) /\
    (forall lod,
       rows_of lod (map snd keyed) = rows_of lod (valid results)) /\
    lod_summary (map snd keyed) = Ok summary /\
    main_report fmt4 results
    = Ok (report_lines fmt4 columns summary (map snd keyed)).
Proof. exact (tiles_report jobs). Qed.

End Shape.

Lemma summary_by_rows_of_level_witness :
  (forall lod,
     rows_of lod [Samples.row_of Samples.tile_a; Samples.row_of Samples.tile_r;
                  Samples.row_of Samples.tile_c]
     = rows_of lod Samples.report_rows) /\
  lod_summary [Samples.row_of Samples.tile_a; Samples.row_of Samples.tile_r;
               Samples.row_of Samples.tile_c]
  = lod_summary Samples.report_rows.
Proof.
  assert (H : forall lod,
     rows_of lod [Samples.row_of Samples.tile_a; Samples.row_of Samples.tile_r;
                  Samples.row_of Samples.tile_c]
     = rows_of lod Samples.report_rows).
  { intros lod; unfold rows_of, Samples.report_rows; cbn [filter].
    change (has_lod lod (Samples.row_of Samples.tile_a)) with (1 =? lod).
    change (has_lod lod (Samples.row_of Samples.tile_r)) with (0 =? lod).
    change (has_lod lod (Samples.row_of Samples.tile_c)) with (1 =? lod).
    destruct (Z.eqb_spec 1 lod) as [<- | _]; [reflexivity |].
    now destruct (0 =? lod). }
  split; [exact H |].
  apply (summary_by_rows_of_level Samples.report_rows); [| | exact H];
    repeat (apply Forall_cons; [eexists; reflexivity |]); apply Forall_nil.
Defined.

Lemma tile_counts_add_up_witness :
  exists summary,
    lod_summary Samples.report_rows = Ok summary /\
    py_sum (map tile_count summary) = 3 /\
    Forall (fun s => 0 < tile_count s) summary.
Proof.
  eexists; split; [vm_compute; reflexivity |].
  apply (tile_counts_add_up Samples.report_rows).
  vm_compute; reflexivity.
Defined.

Lemma polygons_add_up_witness :
  Forall (fun r => In "total_polygons"%string (keys r)) Samples.report_rows /\
  exists summary,
    lod_summary Samples.report_rows = Ok summary /\
    (Qsum (column "total_polygons" summary)
     == Qsum (column "total_polygons" Samples.report_rows))%Q.
Proof.
  assert (H : Forall (fun r => In "total_polygons"%string (keys r))
                Samples.report_rows).
  { unfold Samples.report_rows.
    repeat (apply Forall_cons; [do 13 right; left; reflexivity |]).
    apply Forall_nil. }
  split; [exact H |].
  eexists; split; [vm_compute; reflexivity |].
  apply (polygons_add_up Samples.report_rows); [exact H |].
  vm_compute; reflexivity.
Defined.

Lemma written_report_shape_witness :
  exists lines,
    write_results_to_csv MoreSamples.ten_thousandths Samples.report_rows
    = Ok lines /\
    exists (first : row) (rest summary : list row),
      Samples.report_rows = first :: rest /\
      lod_summary Samples.report_rows = Ok summary /\
      lines = report_lines MoreSamples.ten_thousandths (keys first) summary
                Samples.report_rows /\
      List.length lines
      = (List.length summary + List.length Samples.report_rows + 5)%nat /\
      Forall (fun l => List.length l = List.length (keys first)) lines /\
      Forall (fun r => incl (keys r) (keys first))
             (summary ++ Samples.report_rows).
Proof.
  eexists; split; [vm_compute; reflexivity |].
  apply (written_report_shape MoreSamples.ten_thousandths Samples.report_rows).
  vm_compute; reflexivity.
Defined.

Lemma report_of_tiles_witness :
  (exists d s, In (d, StatsOf s) MoreSamples.jobs) /\
  exists (keyed : list (Z * row)) (summary : list row),
    StronglySorted (key_le fst) keyed /\
    Forall (fun p => dict_get "lod_level" (snd p) = Some (VInt (fst p)))
           keyed /\
    Permutation
      (valid (map (fun j => Tile.process_tile_parallel (fst j) (snd j))
                  MoreSamples.jobs))
      (map snd keyed) /\
    (forall lod,
       rows_of lod (map snd keyed)
       = rows_of lod
           (valid (map (fun j => Tile.process_tile_parallel (fst j) (snd j))
                       MoreSamples.jobs))) /\
    lod_summary (map snd keyed) = Ok summary /\
    main_report MoreSamples.ten_thousandths
      (map (fun j => Tile.process_tile_parallel (fst j) (snd j))
           MoreSamples.jobs)
    = Ok (report_lines MoreSamples.ten_thousandths columns summary
            (map snd keyed)).
Proof.
  assert (H : exists d s, In (d, StatsOf s) MoreSamples.jobs)
    by (exists Samples.tile_a, Samples.sample_stats; left; reflexivity).
  split; [exact H |].
  apply (report_of_tiles MoreSamples.ten_thousandths MoreSamples.jobs H).
  intros d s d' s' Hin Hin' Hlod.
  destruct Hin as [[= <- <-] | [[=] | [[= <- <-] | [[= <- <-] | []]]]];
    destruct Hin' as [[= <- <-] | [[=] | [[= <- <-] | [[= <- <-] | []]]]];
    try discriminate Hlod;
    unfold alike; cbn; split; split; intros E;
    (reflexivity || discriminate E).
Defined.

End ReportMore.

(* ================================================================== *)
(** * The run *)
(* ================================================================== *)

Module MainFacts.

Import Raster Traversal Report ReportSpec ReportFacts ReportMore.

(** The last two arguments of a command line. *)
Lemma last_two_arguments (args : list string) (a b : string) :
  py_getitem (args ++ [a; b]) (-2) = Ok a /\
  py_getitem (args ++ [a; b]) (-1) = Ok b.
Proof.
  unfold py_getitem, py_index; rewrite length_app; cbn [List.length].
  set (n := List.length args).
  replace ((0 <=? -2) && _) with false by reflexivity.
  replace ((0 <=? -1) && _) with false by reflexivity.
  replace ((- Z.of_nat (n + 2) <=? -2) && (-2 <? 0)) with true
    by (symmetry; apply andb_true_intro; split;
        [apply Z.leb_le; lia | reflexivity]).
  replace ((- Z.of_nat (n + 2) <=? -1) && (-1 <? 0)) with true
    by (symmetry; apply andb_true_intro; split;
        [apply Z.leb_le; lia | reflexivity]).
  cbn [bind].
  replace (Z.to_nat (Z.of_nat (n + 2) + -2)) with (n + 0)%nat by lia.
  replace (Z.to_nat (Z.of_nat (n + 2) + -1)) with (n + 1)%nat by lia.
  unfold n; rewrite !nth_error_app2 by lia.
  replace (List.length args + 0 - List.length args)%nat with 0%nat by lia.
  replace (List.length args + 1 - List.length args)%nat with 1%nat by lia.
  split; reflexivity.
Qed.

(** A loop that fails at an element fails with its exception. *)
Lemma for_each_raise {A S} (body : A -> S -> result S) (l1 l2 : list A)
  (a : A) (st st1 : S) (e : exn) :
  for_each body l1 st = Ok st1 -> body a st1 = Raise e ->
  for_each body (l1 ++ a :: l2) st = Raise e.
Proof.
  intros H1 Ha; rewrite for_each_app, H1; cbn [bind for_each].
  now rewrite Ha.
Qed.

Section Run.

Variable pow_half : Q -> Q.
Variables np_mean np_median np_std : list Q -> Q.
Variable read_json : string -> result document.
Variable os_walk : string -> list (string * list string).
Variable path_join : string -> string -> string.
Variable path_dirname : string -> string.
Variable path_relpath : string -> string -> string.
Variable isfile : string -> bool.
Variable import_scene : string -> result (list object).
Variable fmt4 : Q -> string.

Local Notation "'run_tile'" :=
  (Main.process_tile_parallel pow_half np_mean np_median np_std path_join
     isfile import_scene).

Local Notation "'run'" :=
  (Main.main pow_half np_mean np_median np_std read_json os_walk path_join
     path_dirname path_relpath isfile import_scene fmt4).

(** The statistics of the file of a tile. *)
Local Notation "'stats_at' d" :=
  (process_glb_file pow_half np_mean np_median np_std
     (isfile (path_join (base_path d) (tile_url d)))
     (import_scene (path_join (base_path d) (tile_url d))))
  (at level 10, d at level 9).

Lemma imap_results (tiles : list descriptor)
  (stats_of : descriptor -> glb_stats) :
  (forall d, In d tiles -> stats_at d = Ok (stats_of d)) ->
  Main.imap pow_half np_mean np_median np_std path_join isfile import_scene
    tiles
  = Ok (map (fun d => Tile.process_tile_parallel d (stats_of d)) tiles).
Proof.
  intros Hstats; unfold Main.imap.
  destruct (for_each_collect run_tile tiles []) as (rs & Hrun & Hall).
  { intros d Hd; unfold Main.process_tile_parallel.
    rewrite (Hstats d Hd); cbn [bind]; eauto. }
  cbn [app] in Hrun; rewrite Hrun; f_equal.
  clear Hrun; induction Hall as [| d r tiles rs Hr _ IH]; [reflexivity |].
  cbn [map]; rewrite IH by (intros d' Hd'; apply Hstats; now right).
  f_equal.
  unfold Main.process_tile_parallel in Hr.
  rewrite (Hstats d) in Hr by now left.
  now injection Hr as <-.
Qed.

Lemma main_with_arguments (depth : nat) (args : list string)
  (tileset_path output_csv : string) :
  (4 <= List.length args)%nat ->
  run depth (args ++ [tileset_path; output_csv])
  = ('(tiles_to_process, _) <-
       load_tileset read_json os_walk path_join path_dirname path_relpath
         depth 0 tileset_path ;;
     results <- Main.imap pow_half np_mean np_median np_std path_join
                  isfile import_scene tiles_to_process ;;
     lines <- main_report fmt4 results ;;
     Ok (Main.Written output_csv lines)).
Proof.
  intros Hlen; unfold Main.main.
  replace (Z.of_nat (List.length (args ++ [tileset_path; output_csv])) <? 6)
    with false
    by (symmetry; apply Z.ltb_ge; rewrite length_app; cbn [List.length]; lia).
  destruct (last_two_arguments args tileset_path output_csv) as (-> & ->).
  reflexivity.
Qed.

(** X14. A run with a tileset path and an output name as its last two
    arguments writes the report when the traversal returns, the file of
    every tile is processed without an exception, at least one tile
    gives statistics, and the tiles of one level that give statistics
    agree on having a parent and on having a geometric error. The report
    has the fourteen columns, and its result rows are those of the tiles
    with statistics, sorted by level. *)
Theorem main_writes_report (depth : nat) (args : list string)
  (tileset_path output_csv : string) (tiles : list descriptor)
  (counter' : Z) (stats_of : descriptor -> glb_stats) :
  (4 <= List.length args)%nat ->
  load_tileset read_json os_walk path_join path_dirname path_relpath
    depth 0 tileset_path
  = Ok (tiles, counter') ->
  (forall d, In d tiles -> stats_at d = Ok (stats_of d)) ->
  (exists d s, In d tiles /\ stats_of d = StatsOf s) ->
  (forall d s d' s',
     In d tiles -> In d' tiles ->
     stats_of d = StatsOf s -> stats_of d' = StatsOf s' ->
     lod_level d = lod_level d' -> alike d d') ->
  let results :=
    map (fun d => Tile.process_tile_parallel d (stats_of d)) tiles in
  exists (keyed : list (Z * row)) (summary : list row),
    run depth (args ++ [tileset_path; output_csv])
    = Ok (Main.Written output_csv
            (report_lines fmt4 columns summary (map snd keyed))) /\
    StronglySorted (key_le fst) keyed /\
    Permutation (valid results) (map snd keyed) /\
    lod_summary (map snd keyed) = Ok summary.
Proof.
  intros Hlen Hload Hstats (d1 & s1 & Hin1 & Hs1) Halike results.
  set (jobs := map (fun d => (d, stats_of d)) tiles).
  assert (Hjobs : forall d s, In (d, StatsOf s) jobs ->
                              In d tiles /\ stats_of d = StatsOf s).
  { intros d s Hin; apply in_map_iff in Hin as (d' & [= -> Hs] & Hin).
    now split. }
  assert (Hresults :
    results = map (fun j => Tile.process_tile_parallel (fst j) (snd j)) jobs)
    by (unfold results, jobs; now rewrite map_map).
  destruct (tiles_report fmt4 jobs)
    as (keyed & summary & Hsorted & _ & Hperm & _ & Hsum & Hreport).
  - exists d1, s1; apply in_map_iff; exists d1; split; [now rewrite Hs1 | auto].
  - intros d s d' s' Hin Hin' Hlod.
    apply Hjobs in Hin as (Hin & Hs), Hin' as (Hin' & Hs'); eauto.
  - exists keyed, summary.
    rewrite <- Hresults in Hperm, Hreport.
    split; [| split; [exact Hsorted | split; [exact Hperm | exact Hsum]]].
    rewrite main_with_arguments by exact Hlen.
    rewrite Hload; cbn [bind].
    rewrite (imap_results tiles stats_of Hstats); cbn [bind].
    fold results; now rewrite Hreport.
Qed.

(** X15. One tile is enough to stop a run: when the traversal returns
    and the files of the tiles before some tile are processed, an
    exception raised for the file of that tile ends the run with that
    exception, and no report is written, whatever the other tiles hold.
    The file of a tile whose first mesh object has no active UV layer
    raises [ValueError]. *)
Theorem one_tile_stops_the_run (depth : nat) (args : list string)
  (tileset_path output_csv : string) (before after : list descriptor)
  (d : descriptor) (counter' : Z) :
  (4 <= List.length args)%nat ->
  load_tileset read_json os_walk path_join path_dirname path_relpath
    depth 0 tileset_path
  = Ok (before ++ d :: after, counter') ->
  (forall d', In d' before -> exists st, stats_at d' = Ok st) ->
  (forall e, stats_at d = Raise e ->
             run depth (args ++ [tileset_path; output_csv]) = Raise e) /\
  (forall objects obj,
     isfile (path_join (base_path d) (tile_url d)) = true ->
     import_scene (path_join (base_path d) (tile_url d)) = Ok objects ->
     first_mesh objects = Some obj ->
     uv_active obj = false ->
     run depth (args ++ [tileset_path; output_csv]) = Raise ValueError).
Proof.
  intros Hlen Hload Hbefore.
  assert (Hraise : forall e, stats_at d = Raise e ->
            run depth (args ++ [tileset_path; output_csv]) = Raise e).
  { intros e He.
    rewrite main_with_arguments by exact Hlen.
    rewrite Hload; cbn [bind]; unfold Main.imap.
    destruct (for_each_collect run_tile before []) as (rs & Hrun & _).
    { intros d' Hd'; unfold Main.process_tile_parallel.
      destruct (Hbefore d' Hd') as (st & ->); cbn [bind]; eauto. }
    rewrite (for_each_raise _ before after d [] ([] ++ rs) e Hrun);
      [reflexivity |].
    unfold Main.process_tile_parallel; now rewrite He. }
  split; [exact Hraise |].
  intros objects obj Hfile Himport Hmesh Huv; apply Hraise.
  unfold process_glb_file; rewrite Hfile, Himport, Hmesh; cbn [negb].
  unfold calculate_statistics, calculate_texel_sizes_and_utilization.
  now rewrite Huv.
Qed.

(** X17. A run in which no tile gives statistics, because the file of
    every tile is missing, cannot be imported or holds no mesh that
    occupies a texture cell, writes nothing: it ends with [IndexError],
    raised for the first row of an empty list of results. So does a run
    on a tileset without tiles. *)
Theorem run_without_statistics (depth : nat) (args : list string)
  (tileset_path output_csv : string) (tiles : list descriptor)
  (counter' : Z) :
  (4 <= List.length args)%nat ->
  load_tileset read_json os_walk path_join path_dirname path_relpath
    depth 0 tileset_path
  = Ok (tiles, counter') ->
  ((forall d, In d tiles ->
              stats_at d = Ok StatsNone \/ stats_at d = Ok StatsEmpty) ->
   run depth (args ++ [tileset_path; output_csv]) = Raise IndexError) /\
  ((forall d, In d tiles ->
              isfile (path_join (base_path d) (tile_url d)) = false) ->
   run depth (args ++ [tileset_path; output_csv]) = Raise IndexError).
Proof.
  intros Hlen Hload.
  assert (Hnone :
    (forall d, In d tiles ->
               stats_at d = Ok StatsNone \/ stats_at d = Ok StatsEmpty) ->
    run depth (args ++ [tileset_path; output_csv]) = Raise IndexError).
  { intros Hstats.
    rewrite main_with_arguments by exact Hlen.
    rewrite Hload; cbn [bind].
    rewrite (imap_results tiles
               (fun d => match stats_at d with
                         | Ok st => st
                         | Raise _ => StatsNone
                         end))
      by (intros d Hd; destruct (Hstats d Hd) as [-> | ->]; reflexivity).
    cbn [bind].
    replace (map _ tiles) with (repeat (@None row) (List.length tiles)).
    - unfold main_report; now rewrite no_valid_results.
    - clear Hload; induction tiles as [| d tiles' IH]; [reflexivity |].
      cbn [List.length repeat map]; rewrite IH
        by (intros d' Hd'; apply Hstats; now right).
      destruct (Hstats d (or_introl eq_refl)) as [-> | ->]; reflexivity. }
  split; [exact Hnone |].
  intros Hmissing; apply Hnone; intros d Hd; left.
  unfold process_glb_file; now rewrite (Hmissing d Hd).
Qed.

End Run.

Lemma main_writes_report_witness :
  load_tileset (Samples.document_at "ts.json" MoreSamples.even_root)
    Samples.no_walk Samples.join Samples.dirname Samples.relpath
    10 0 "ts.json"
  = Ok (MoreSamples.even_tiles, 3) /\
  exists (keyed : list (Z * row)) (summary : list row),
    Main.main Samples.rational_root Samples.mean Samples.mean Samples.mean
      (Samples.document_at "ts.json" MoreSamples.even_root)
      Samples.no_walk Samples.join Samples.dirname Samples.relpath
      MoreSamples.every_file (MoreSamples.scene_of Samples.twice_mesh)
      MoreSamples.ten_thousandths 10 MoreSamples.command_line
    = Ok (Main.Written "out.csv"
            (report_lines MoreSamples.ten_thousandths columns summary
               (map snd keyed))) /\
    List.length keyed = 3%nat.
Proof.
  assert (Hload :
    load_tileset (Samples.document_at "ts.json" MoreSamples.even_root)
      Samples.no_walk Samples.join Samples.dirname Samples.relpath
      10 0 "ts.json"
    = Ok (MoreSamples.even_tiles, 3)) by (vm_compute; reflexivity).
  split; [exact Hload |].
  destruct (main_writes_report
              Samples.rational_root Samples.mean Samples.mean Samples.mean
              (Samples.document_at "ts.json" MoreSamples.even_root)
              Samples.no_walk Samples.join Samples.dirname Samples.relpath
              MoreSamples.every_file (MoreSamples.scene_of Samples.twice_mesh)
              MoreSamples.ten_thousandths 10
              ["blender"; "--background"; "--python"; "examine_3d-tile.py";
               "--"]%string
              "ts.json" "out.csv" MoreSamples.even_tiles 3
              (fun _ => MoreSamples.twice_stats))
    as (keyed & summary & Hrun & _ & Hperm & _).
  - simpl; lia.
  - exact Hload.
  - intros d _; vm_compute; reflexivity.
  - eexists _, _; split; [left; reflexivity | vm_compute; reflexivity].
  - intros d s d' s' Hin Hin' _ _ Hlod.
    destruct Hin as [<- | [<- | [<- | []]]];
      destruct Hin' as [<- | [<- | [<- | []]]];
      try discriminate Hlod;
      unfold alike; cbn; split; split; intros E;
      (reflexivity || discriminate E).
  - exists keyed, summary; split; [exact Hrun |].
    apply Permutation_length in Hperm.
    rewrite length_map in Hperm; rewrite <- Hperm; reflexivity.
Defined.

Lemma one_tile_stops_the_run_witness :
  load_tileset (Samples.document_at "ts.json" MoreSamples.even_root)
    Samples.no_walk Samples.join Samples.dirname Samples.relpath
    10 0 "ts.json"
  = Ok (MoreSamples.even_tiles, 3) /\
  Main.main Samples.rational_root Samples.mean Samples.mean Samples.mean
    (Samples.document_at "ts.json" MoreSamples.even_root)
    Samples.no_walk Samples.join Samples.dirname Samples.relpath
    MoreSamples.every_file (MoreSamples.scene_of Samples.no_uv_mesh)
    MoreSamples.ten_thousandths 10 MoreSamples.command_line
  = Raise ValueError.
Proof.
  assert (Hload :
    load_tileset (Samples.document_at "ts.json" MoreSamples.even_root)
      Samples.no_walk Samples.join Samples.dirname Samples.relpath
      10 0 "ts.json"
    = Ok (MoreSamples.even_tiles, 3)) by (vm_compute; reflexivity).
  split; [exact Hload |].
  destruct (one_tile_stops_the_run
              Samples.rational_root Samples.mean Samples.mean Samples.mean
              (Samples.document_at "ts.json" MoreSamples.even_root)
              Samples.no_walk Samples.join Samples.dirname Samples.relpath
              MoreSamples.every_file (MoreSamples.scene_of Samples.no_uv_mesh)
              MoreSamples.ten_thousandths 10
              ["blender"; "--background"; "--python"; "examine_3d-tile.py";
               "--"]%string
              "ts.json" "out.csv" []
              [mkDescriptor 1 2 (Some 1) "a.glb" (JInt 4) "." None;
               mkDescriptor 1 3 (Some 1) "b.glb" (JInt 4) "." None]
              (mkDescriptor 0 1 None "r.glb" (JInt 16) "." None) 3)
    as (_ & Huv).
  - simpl; lia.
  - exact Hload.
  - intros d' [].
  - apply (Huv [MoreSamples.camera; Samples.no_uv_mesh] Samples.no_uv_mesh);
      reflexivity.
Defined.

Lemma run_without_statistics_witness :
  load_tileset (Samples.document_at "ts.json" MoreSamples.even_root)
    Samples.no_walk Samples.join Samples.dirname Samples.relpath
    10 0 "ts.json"
  = Ok (MoreSamples.even_tiles, 3) /\
  Main.main Samples.rational_root Samples.mean Samples.mean Samples.mean
    (Samples.document_at "ts.json" MoreSamples.even_root)
    Samples.no_walk Samples.join Samples.dirname Samples.relpath
    (fun _ => false) (MoreSamples.scene_of Samples.twice_mesh)
    MoreSamples.ten_thousandths 10 MoreSamples.command_line
  = Raise IndexError.
Proof.
  assert (Hload :
    load_tileset (Samples.document_at "ts.json" MoreSamples.even_root)
      Samples.no_walk Samples.join Samples.dirname Samples.relpath
      10 0 "ts.json"
    = Ok (MoreSamples.even_tiles, 3)) by (vm_compute; reflexivity).
  split; [exact Hload |].
  destruct (run_without_statistics
              Samples.rational_root Samples.mean Samples.mean Samples.mean
              (Samples.document_at "ts.json" MoreSamples.even_root)
              Samples.no_walk Samples.join Samples.dirname Samples.relpath
              (fun _ => false) (MoreSamples.scene_of Samples.twice_mesh)
              MoreSamples.ten_thousandths 10
              ["blender"; "--background"; "--python"; "examine_3d-tile.py";
               "--"]%string
              "ts.json" "out.csv" MoreSamples.even_tiles 3)
    as (_ & Hmissing).
  - simpl; lia.
  - exact Hload.
  - apply Hmissing; intros d _; reflexivity.
Defined.

End MainFacts.
